(** * CharmTools: the intermediate model, its importers, the reconciliation
    engine, the validation engine and the generators

    A shallow embedding of [internal/models] (xfile.go, pos.go, stack.go,
    dpv.go).  Go strings are byte sequences, [int] is a 64-bit integer carried
    in [Z], [float64] is the kernel's binary64 float, maps are [gmap]s, and a
    function that receives [*XFile] and writes through it returns the new
    [XFile] next to its result. *)

From Stdlib Require Import ZArith Ascii String List Floats Bool Lia.
From Stdlib Require Import DecimalPos DecimalZ.
From stdpp Require Import base option list gmap strings.
Import ListNotations.
Local Open Scope Z_scope.

(** ** Go strings *)

Abbreviation gostring := (list ascii).

Notation "$ s" :=
  (ltac:(let r := eval cbv in (list_ascii_of_string s%string) in exact r))
  (at level 1, s at level 0, only parsing).

Definition dquote : ascii := "034"%char.
Definition CR : ascii := "013"%char.
Definition LF : ascii := "010"%char.
Definition CRLF : gostring := [CR; LF].

Module strings.

(** [strings.HasPrefix]. *)
Fixpoint HasPrefix (s prefix : gostring) : bool :=
  match prefix, s with
  | [], _ => true
  | _ :: _, [] => false
  | p :: prefix', c :: s' => Ascii.eqb c p && HasPrefix s' prefix'
  end.

Definition HasSuffix (s suffix : gostring) : bool :=
  HasPrefix (rev s) (rev suffix).

Definition TrimPrefix (s prefix : gostring) : gostring :=
  if HasPrefix s prefix then drop (length prefix) s else s.

Definition TrimSuffix (s suffix : gostring) : gostring :=
  if HasSuffix s suffix then take (length s - length suffix)%nat s else s.

Fixpoint Contains (s substr : gostring) : bool :=
  HasPrefix s substr ||
  match s with
  | [] => false
  | _ :: s' => Contains s' substr
  end.

(** [strings.ContainsAny] with ASCII [chars]: a byte of [s] is one of them. *)
Definition ContainsAny (s chars : gostring) : bool :=
  existsb (fun c => existsb (Ascii.eqb c) chars) s.

(** [strings.ReplaceAll(s, old, new)] for a one-byte [old]. *)
Definition ReplaceAll (s : gostring) (old : ascii) (new : gostring) : gostring :=
  flat_map (fun c => if Ascii.eqb c old then new else [c]) s.

(** [strings.Split(s, sep)] for a one-byte [sep]: one piece more than there
    are separators. *)
Fixpoint Split (s : gostring) (sep : ascii) : list gostring :=
  match s with
  | [] => [[]]
  | c :: r =>
      if Ascii.eqb c sep then [] :: Split r sep
      else match Split r sep with
           | p :: ps => (c :: p) :: ps
           | [] => [[c]]
           end
  end.

Fixpoint Join (elems : list gostring) (sep : gostring) : gostring :=
  match elems with
  | [] => []
  | [e] => e
  | e :: rest => e ++ sep ++ Join rest sep
  end.

(** The six ASCII white-space bytes of [unicode.IsSpace]. *)
Definition asciiSpace (c : ascii) : bool :=
  match c with
  | "009"%char | "010"%char | "011"%char | "012"%char | "013"%char
  | " "%char => true
  | _ => false
  end.

(** [unicode.IsSpace] on the UTF-8 text in front: ASCII white space, U+0085,
    U+00A0, U+1680, U+2000..U+200A, U+2028, U+2029, U+202F, U+205F, U+3000.
    [trimLeft] drops such runes from the front. *)
Definition spaceTail2 (c : ascii) : bool :=
  (* third byte of E2 80 xx for U+2000..U+200A, U+2028, U+2029, U+202F *)
  let n := N_of_ascii c in
  ((128 <=? n)%N && (n <=? 138)%N) || (n =? 168)%N || (n =? 169)%N || (n =? 175)%N.

Fixpoint trimLeft (s : gostring) : gostring :=
  match s with
  | [] => []
  | c :: r =>
      if asciiSpace c then trimLeft r
      else match s with
           | "194"%char :: "133"%char :: r' => trimLeft r'
           | "194"%char :: "160"%char :: r' => trimLeft r'
           | "225"%char :: "154"%char :: "128"%char :: r' => trimLeft r'
           | "226"%char :: "128"%char :: c2 :: r' =>
               if spaceTail2 c2 then trimLeft r' else s
           | "226"%char :: "129"%char :: "159"%char :: r' => trimLeft r'
           | "227"%char :: "128"%char :: "128"%char :: r' => trimLeft r'
           | _ => s
           end
  end.

(** The same runes read backwards, on the reversed string; a rune that is not
    ASCII ends with a byte that is not ASCII. *)
Fixpoint trimLeftRev (s : gostring) : gostring :=
  match s with
  | [] => []
  | c :: r =>
      if asciiSpace c then trimLeftRev r
      else if (N_of_ascii c <? 128)%N then s
      else match s with
           | "133"%char :: "194"%char :: r' => trimLeftRev r'
           | "160"%char :: "194"%char :: r' => trimLeftRev r'
           | "128"%char :: "154"%char :: "225"%char :: r' => trimLeftRev r'
           | "159"%char :: "129"%char :: "226"%char :: r' => trimLeftRev r'
           | "128"%char :: "128"%char :: "227"%char :: r' => trimLeftRev r'
           | c2 :: "128"%char :: "226"%char :: r' =>
               if spaceTail2 c2 then trimLeftRev r' else s
           | _ => s
           end
  end.

Definition trimRight (s : gostring) : gostring := rev (trimLeftRev (rev s)).

(** [strings.TrimSpace]. *)
Definition TrimSpace (s : gostring) : gostring := trimRight (trimLeft s).

Definition lowerByte (c : ascii) : ascii :=
  let n := N_of_ascii c in
  if (65 <=? n)%N && (n <=? 90)%N then ascii_of_N (n + 32) else c.

(** [strings.ToLower], as far as the package can observe it: every use in
    the package compares the result with ASCII text (equality, prefix,
    substring, map key).  ASCII letters are folded; so are the two runes
    outside ASCII whose lower case is an ASCII letter, U+0130 (to i) and
    U+212A (to k); every other byte stays, where Go may write a different
    rune that is not ASCII either. *)
Fixpoint ToLower (s : gostring) : gostring :=
  match s with
  | [] => []
  | "196"%char :: "176"%char :: r => "i"%char :: ToLower r
  | "226"%char :: "132"%char :: "170"%char :: r => "k"%char :: ToLower r
  | c :: r => lowerByte c :: ToLower r
  end.

Definition eqb (a b : gostring) : bool := bool_decide (a = b).

End strings.

(** [regexp.MustCompile(`\s+`).Split(s, -1)]: the pieces between the maximal
    runs of [\t\n\f\r ] (the class has no vertical tab). *)
Module regexp.

Definition isSpaceClass (c : ascii) : bool :=
  match c with
  | "009"%char | "010"%char | "012"%char | "013"%char | " "%char => true
  | _ => false
  end.

(** [inrun] says that the byte before was in a run of separators. *)
Fixpoint splitRuns (s : gostring) (inrun : bool) : list gostring :=
  match s with
  | [] => [[]]
  | c :: r =>
      if isSpaceClass c then
        if inrun then splitRuns r true else [] :: splitRuns r true
      else match splitRuns r false with
           | p :: ps => (c :: p) :: ps
           | [] => [[c]]
           end
  end.

Definition SplitSpaces (s : gostring) : list gostring := splitRuns s false.

End regexp.

(** ** [strconv] and [fmt] *)

Module strconv.

Definition isDigit (c : ascii) : bool :=
  let n := N_of_ascii c in (48 <=? n)%N && (n <=? 57)%N.

Definition digitVal (c : ascii) : Z := Z.of_N (N_of_ascii c) - 48.

(** The decimal digits of [s], if it has nothing else. *)
Fixpoint digitsOf (s : gostring) : option Decimal.uint :=
  match s with
  | [] => Some Decimal.Nil
  | c :: r =>
      match digitsOf r with
      | None => None
      | Some d =>
          match c with
          | "0"%char => Some (Decimal.D0 d)
          | "1"%char => Some (Decimal.D1 d)
          | "2"%char => Some (Decimal.D2 d)
          | "3"%char => Some (Decimal.D3 d)
          | "4"%char => Some (Decimal.D4 d)
          | "5"%char => Some (Decimal.D5 d)
          | "6"%char => Some (Decimal.D6 d)
          | "7"%char => Some (Decimal.D7 d)
          | "8"%char => Some (Decimal.D8 d)
          | "9"%char => Some (Decimal.D9 d)
          | _ => None
          end
      end
  end.

Fixpoint uintText (d : Decimal.uint) : gostring :=
  match d with
  | Decimal.Nil => []
  | Decimal.D0 d => "0"%char :: uintText d
  | Decimal.D1 d => "1"%char :: uintText d
  | Decimal.D2 d => "2"%char :: uintText d
  | Decimal.D3 d => "3"%char :: uintText d
  | Decimal.D4 d => "4"%char :: uintText d
  | Decimal.D5 d => "5"%char :: uintText d
  | Decimal.D6 d => "6"%char :: uintText d
  | Decimal.D7 d => "7"%char :: uintText d
  | Decimal.D8 d => "8"%char :: uintText d
  | Decimal.D9 d => "9"%char :: uintText d
  end.

Definition minInt : Z := - 2 ^ 63.
Definition maxInt : Z := 2 ^ 63 - 1.

(** [strconv.Itoa]. *)
Definition Itoa (n : Z) : gostring :=
  match Z.to_int n with
  | Decimal.Pos d => uintText d
  | Decimal.Neg d => "-"%char :: uintText d
  end.

(** [strconv.Atoi] on a 64-bit platform: an optional sign, then decimal
    digits, at least one; [None] is the syntax or range error. *)
Definition Atoi (s : gostring) : option Z :=
  let '(neg, ds) :=
    match s with
    | "-"%char :: r => (true, r)
    | "+"%char :: r => (false, r)
    | _ => (false, s)
    end in
  match ds with
  | [] => None
  | _ =>
      match digitsOf ds with
      | None => None
      | Some d =>
          let n := Z.of_uint d in
          let v := if neg then - n else n in
          if (minInt <=? v) && (v <=? maxInt) then Some v else None
      end
  end.

(** *** Floats to text: [FormatFloat(f, 'f', prec, 64)] *)

(** [num / den] rounded to the nearest integer, ties to even. *)
Definition roundHalfEven (num den : Z) : Z :=
  let q := num / den in
  let r := num mod den in
  if 2 * r <? den then q
  else if den <? 2 * r then q + 1
  else if Z.even q then q else q + 1.

(** [m * 2^e * 10^prec], rounded. *)
Definition scaledDigits (prec : nat) (m : positive) (e : Z) : Z :=
  let p10 := 10 ^ Z.of_nat prec in
  if 0 <=? e then Z.pos m * 2 ^ e * p10
  else roundHalfEven (Z.pos m * p10) (2 ^ (- e)).

Definition padZeros (width : nat) (s : gostring) : gostring :=
  repeat "0"%char (width - length s) ++ s.

Definition fixedText (prec : nat) (n : Z) : gostring :=
  let p10 := 10 ^ Z.of_nat prec in
  Itoa (n / p10) ++
  match prec with
  | O => []
  | _ => "."%char :: padZeros prec (Itoa (n mod p10))
  end.

Definition signText (neg : bool) : gostring := if neg then $"-" else [].

Definition FormatFloat (f : float) (prec : nat) : gostring :=
  match Prim2SF f with
  | S754_nan => $"NaN"
  | S754_infinity s => if s then $"-Inf" else $"+Inf"
  | S754_zero s => signText s ++ fixedText prec 0
  | S754_finite s m e => signText s ++ fixedText prec (scaledDigits prec m e)
  end.

(** *** Text to floats: [ParseFloat(s, 64)] *)

(** [lower(c)] of strconv: [c | ('x' - 'X')]. *)
Definition lower (c : ascii) : ascii := ascii_of_N (N.lor (N_of_ascii c) 32).

Definition isHexLetter (c : ascii) : bool :=
  let n := N_of_ascii (lower c) in (97 <=? n)%N && (n <=? 102)%N.

Fixpoint commonPrefixLenIgnoreCase (s prefix : gostring) : nat :=
  match prefix, s with
  | p :: prefix', c :: s' =>
      if Ascii.eqb (strings.lowerByte c) p
      then S (commonPrefixLenIgnoreCase s' prefix') else O
  | _, _ => O
  end.

(** [special]: the value and the number of bytes read. *)
Definition special (s : gostring) : option (float * nat) :=
  let inf (neg : bool) (nsign : nat) (t : gostring) :=
    let n := commonPrefixLenIgnoreCase t $"infinity" in
    let n := if (3 <? n)%nat && (n <? 8)%nat then 3%nat else n in
    if (n =? 3)%nat || (n =? 8)%nat
    then Some (if neg then neg_infinity else infinity, (nsign + n)%nat)
    else None in
  match s with
  | "+"%char :: t => inf false 1%nat t
  | "-"%char :: t => inf true 1%nat t
  | "i"%char :: _ | "I"%char :: _ => inf false 0%nat s
  | "n"%char :: _ | "N"%char :: _ =>
      if (commonPrefixLenIgnoreCase s $"nan" =? 3)%nat
      then Some (nan, 3%nat) else None
  | _ => None
  end.

(** What [readFloat] has read of the mantissa: the digits as a number
    (leading zeros dropped), how many there are, where the point is. *)
Record mantissa := {
  mdigits : Z;
  nd : Z;
  dp : Z;
  sawdot : bool;
  sawdigits : bool;
  underscores : bool
}.

Definition mantissa0 : mantissa :=
  {| mdigits := 0; nd := 0; dp := 0; sawdot := false; sawdigits := false;
     underscores := false |}.

Definition addDigit (base v : Z) (m : mantissa) : mantissa :=
  {| mdigits := mdigits m * base + v; nd := nd m + 1; dp := dp m;
     sawdot := sawdot m; sawdigits := true; underscores := underscores m |}.

(** The digit loop of [readFloat]; returns what is left of the text. *)
Fixpoint readMantissa (base : Z) (s : gostring) (m : mantissa)
  : mantissa * gostring :=
  match s with
  | [] => (m, [])
  | c :: r =>
      if Ascii.eqb c "_" then
        readMantissa base r
          {| mdigits := mdigits m; nd := nd m; dp := dp m; sawdot := sawdot m;
             sawdigits := sawdigits m; underscores := true |}
      else if Ascii.eqb c "." then
        if sawdot m then (m, s)
        else readMantissa base r
          {| mdigits := mdigits m; nd := nd m; dp := nd m; sawdot := true;
             sawdigits := sawdigits m; underscores := underscores m |}
      else if isDigit c then
        if Ascii.eqb c "0" && (nd m =? 0) then
          readMantissa base r
            {| mdigits := mdigits m; nd := nd m; dp := dp m - 1;
               sawdot := sawdot m; sawdigits := true;
               underscores := underscores m |}
        else readMantissa base r (addDigit base (digitVal c) m)
      else if (base =? 16) && isHexLetter c then
        readMantissa base r
          (addDigit base (Z.of_N (N_of_ascii (lower c)) - 97 + 10) m)
      else (m, s)
  end.

(** The exponent digits; [e] stops growing at 10000. *)
Fixpoint readExpDigits (s : gostring) (e : Z) (us : bool)
  : Z * bool * gostring :=
  match s with
  | c :: r =>
      if isDigit c then
        readExpDigits r (if e <? 10000 then e * 10 + digitVal c else e) us
      else if Ascii.eqb c "_" then readExpDigits r e true
      else (e, us, s)
  | [] => (e, us, [])
  end.

(** [underscoreOK]: an underscore only between digits, or after the base
    prefix.  [saw] is the last byte's kind: 0 start, 1 digit or prefix,
    2 underscore, 3 anything else. *)
Fixpoint underscoreLoop (hex : bool) (s : gostring) (saw : nat) : bool :=
  match s with
  | [] => negb (saw =? 2)%nat
  | c :: r =>
      if isDigit c || (hex && isHexLetter c) then underscoreLoop hex r 1%nat
      else if Ascii.eqb c "_" then
        if (saw =? 1)%nat then underscoreLoop hex r 2%nat else false
      else if (saw =? 2)%nat then false
      else underscoreLoop hex r 3%nat
  end.

Definition underscoreOK (s : gostring) : bool :=
  let s := match s with
           | "-"%char :: r | "+"%char :: r => r
           | _ => s
           end in
  match s with
  | "0"%char :: c :: r =>
      let l := lower c in
      if Ascii.eqb l "b" || Ascii.eqb l "o" || Ascii.eqb l "x"
      then underscoreLoop (Ascii.eqb l "x") r 1%nat
      else underscoreLoop false s 0%nat
  | _ => underscoreLoop false s 0%nat
  end.

(** [num / den] (both positive) as the nearest binary64, ties to even; the
    low bit of the scaled quotient is the sticky bit.  [None] when the
    result is out of range ([ErrRange]). *)
Definition nearestFloat (neg : bool) (num den : Z) : option float :=
  let s := Z.max 0 (66 + Z.log2 den - Z.log2 num) in
  let n := num * 2 ^ s in
  let m := 2 * (n / den) + (if n mod den =? 0 then 0 else 1) in
  match binary_normalize 53 1024 (if neg then - m else m) (- s - 1) false with
  | S754_infinity _ => None
  | sf => Some (SF2Prim sf)
  end.

(** [digits * base^e], [base] being 10 or 2. *)
Definition scaledFloat (neg : bool) (digits base e : Z) : option float :=
  if digits =? 0 then Some (if neg then (-0)%float else 0%float)
  else if 0 <=? e then nearestFloat neg (digits * base ^ e) 1
  else nearestFloat neg digits (base ^ (- e)).

(** [readFloat] and the conversion of what it read; the whole of [s] has to
    be read. *)
Definition parseNumber (s : gostring) : option float :=
  let '(neg, t) :=
    match s with
    | "+"%char :: r => (false, r)
    | "-"%char :: r => (true, r)
    | _ => (false, s)
    end in
  let '(hex, t) :=
    match t with
    | "0"%char :: x :: (_ :: _) as r =>
        if Ascii.eqb (lower x) "x" then (true, r) else (false, t)
    | _ => (false, t)
    end in
  let base := if hex then 16 else 10 in
  let '(m, t) := readMantissa base t mantissa0 in
  if negb (sawdigits m) then None
  else
    let dp0 := if sawdot m then dp m else nd m in
    let dp1 := if hex then dp0 * 4 else dp0 in
    let ndm := if hex then nd m * 4 else nd m in
    let expChar := if hex then "p"%char else "e"%char in
    let finish (dp2 : Z) (us : bool) (rest : gostring) :=
      if us && negb (underscoreOK s) then None
      else match rest with
           | [] => scaledFloat neg (mdigits m) (if hex then 2 else 10)
                     (dp2 - ndm)
           | _ => None
           end in
    match t with
    | c :: r =>
        if Ascii.eqb (lower c) expChar then
          let '(esign, r) :=
            match r with
            | "+"%char :: r' => (1, r')
            | "-"%char :: r' => (-1, r')
            | _ => (1, r)
            end in
          match r with
          | d :: _ =>
              if isDigit d then
                let '(e, us, rest) := readExpDigits r 0 (underscores m) in
                finish (dp1 + e * esign) us rest
              else None
          | [] => None
          end
        else if hex then None
        else finish dp1 (underscores m) t
    | [] => if hex then None else finish dp1 (underscores m) []
    end.

(** [strconv.ParseFloat(s, 64)]; [None] is any error. *)
Definition ParseFloat (s : gostring) : option float :=
  match special s with
  | Some (f, n) => if (n =? length s)%nat then Some f else None
  | None => parseNumber s
  end.

End strconv.

Module fmt.

(** The verbs the package uses. *)
Definition d (n : Z) : gostring := strconv.Itoa n.

(** [%02d]. *)
Definition d02 (n : Z) : gostring :=
  if n <? 0 then "-"%char :: strconv.padZeros 1 (strconv.Itoa (- n))
  else strconv.padZeros 2 (strconv.Itoa n).

(** [%.2f] and [%.0f]. *)
Definition f2 (f : float) : gostring := strconv.FormatFloat f 2.
Definition f0 (f : float) : gostring := strconv.FormatFloat f 0.

(** [%v] of a [[]string]. *)
Definition v (l : list gostring) : gostring :=
  $"[" ++ strings.Join l $" " ++ $"]".

End fmt.

(** [encoding/csv]: [Reader.ReadAll] with the default settings and
    [FieldsPerRecord = -1], on one line that has no line break in it.  A
    field that starts with a quote runs to the closing quote, a doubled quote
    standing for one; a quote inside a bare field, text after the closing
    quote, or a missing closing quote is an error. *)
Module csv.

Inductive mode := FieldStart | Bare | Quoted.

(** Puts [c] in front of the field being read. *)
Definition push (c : ascii) (fields : list gostring) : list gostring :=
  match fields with
  | f :: fs => (c :: f) :: fs
  | [] => [[c]]
  end.

Fixpoint scan (line : gostring) (m : mode) : option (list gostring) :=
  match line with
  | [] =>
      match m with
      | Quoted => None
      | _ => Some [[]]
      end
  | c :: r =>
      match m with
      | Quoted =>
          if Ascii.eqb c dquote then
            match r with
            | [] => Some [[]]
            | c' :: r' =>
                if Ascii.eqb c' dquote then push dquote <$> scan r' Quoted
                else if Ascii.eqb c' "," then cons [] <$> scan r' FieldStart
                else None
            end
          else push c <$> scan r Quoted
      | FieldStart =>
          if Ascii.eqb c dquote then scan r Quoted
          else if Ascii.eqb c "," then cons [] <$> scan r FieldStart
          else push c <$> scan r Bare
      | Bare =>
          if Ascii.eqb c dquote then None
          else if Ascii.eqb c "," then cons [] <$> scan r FieldStart
          else push c <$> scan r Bare
      end
  end.

(** The record of a line that is not empty. *)
Definition readRecord (line : gostring) : option (list gostring) :=
  scan line FieldStart.

End csv.

(** ** The intermediate model (xfile.go) *)

(** What [time.Now()] gives and the package prints. *)
Record Time := {
  Year : Z; Month : Z; Day : Z; Hour : Z; Minute : Z; Second : Z
}.

Module POSRow.
Record t := mk {
  Ref : gostring;
  Val : gostring;
  Package : gostring;
  PosX : float;
  PosY : float;
  Rot : float;
  Side : gostring
}.
End POSRow.

Record XFileMetadata := { Created : Time; Modified : Time }.

Module GlobalOffset.
Record t := mk { X : float; Y : float }.
End GlobalOffset.

Module XComponent.
Record t := mk {
  No : Z;
  ID : Z;
  PHead : Z;
  STNo : Z;
  DeltX : float;
  DeltY : float;
  Angle : float;
  Height : float;
  Skip : Z;
  Speed : Z;
  Explain : gostring;
  Note : gostring;
  Delay : Z;
  Select : bool;
  DNP : bool
}.

Definition withSTNo (c : t) (id : Z) : t :=
  mk (No c) (ID c) (PHead c) id (DeltX c) (DeltY c) (Angle c) (Height c)
     (Skip c) (Speed c) (Explain c) (Note c) (Delay c) (Select c) (DNP c).
End XComponent.

Module XStation.
Record t := mk {
  No : Z;
  ID : Z;
  DeltX : float;
  DeltY : float;
  FeedRates : Z;
  Note : gostring;
  Height : float;
  Speed : Z;
  Status : Z;
  NPixSizeX : Z;
  NPixSizeY : Z;
  HeightTake : float;
  DelayTake : Z;
  NPullStripSpeed : Z;
  NThreshold : Z;
  NVisualRadio : Z;
  Select : bool;
  PHead : Z;
  DNP : bool
}.

Definition withID (s : t) (id : Z) : t :=
  mk (No s) id (DeltX s) (DeltY s) (FeedRates s) (Note s) (Height s)
     (Speed s) (Status s) (NPixSizeX s) (NPixSizeY s) (HeightTake s)
     (DelayTake s) (NPullStripSpeed s) (NThreshold s) (NVisualRadio s)
     (Select s) (PHead s) (DNP s).

Definition withNo (s : t) (no : Z) : t :=
  mk no (ID s) (DeltX s) (DeltY s) (FeedRates s) (Note s) (Height s)
     (Speed s) (Status s) (NPixSizeX s) (NPixSizeY s) (HeightTake s)
     (DelayTake s) (NPullStripSpeed s) (NThreshold s) (NVisualRadio s)
     (Select s) (PHead s) (DNP s).
End XStation.

Module PanelArrayRow.
Record t := mk {
  No : Z; ID : Z; IntervalX : float; IntervalY : float; NumX : Z; NumY : Z
}.
End PanelArrayRow.

Module PanelCoordRow.
Record t := mk { No : Z; ID : Z; DeltX : float; DeltY : float }.
End PanelCoordRow.

Record XFile := mkXFile {
  Metadata : XFileMetadata;
  GlobalOffset : GlobalOffset.t;
  POSRows : list POSRow.t;
  Components : list XComponent.t;
  Stations : list XStation.t;
  PanelArray : list PanelArrayRow.t;
  PanelCoord : list PanelCoordRow.t;
  OriginalPOS : gostring;
  StackFiles : list gostring
}.

Definition withStations (xf : XFile) (sts : list XStation.t) : XFile :=
  mkXFile (Metadata xf) (GlobalOffset xf) (POSRows xf) (Components xf) sts
          (PanelArray xf) (PanelCoord xf) (OriginalPOS xf) (StackFiles xf).

Definition withComponents (xf : XFile) (cs : list XComponent.t) : XFile :=
  mkXFile (Metadata xf) (GlobalOffset xf) (POSRows xf) cs (Stations xf)
          (PanelArray xf) (PanelCoord xf) (OriginalPOS xf) (StackFiles xf).

Definition withStackFiles (xf : XFile) (fs : list gostring) : XFile :=
  mkXFile (Metadata xf) (GlobalOffset xf) (POSRows xf) (Components xf) (Stations xf)
          (PanelArray xf) (PanelCoord xf) (OriginalPOS xf) fs.

(** [NewXFile]; [now] is the clock's reading. *)
Definition NewXFile (now : Time) : XFile :=
  {| Metadata := {| Created := now; Modified := now |};
     GlobalOffset := GlobalOffset.mk 0 0;
     POSRows := [];
     Components := [];
     Stations := [];
     PanelArray := [PanelArrayRow.mk 0 1 0 0 1 1];
     PanelCoord := [PanelCoordRow.mk 0 1 0 0];
     OriginalPOS := [];
     StackFiles := [] |}.

(** An error value is its message. *)
Inductive result (A : Type) :=
| Ok (a : A)
| Err (msg : gostring).
Arguments Ok {A} a.
Arguments Err {A} msg.

(** A function that gets [xf *XFile]: from the model it is called on to its
    result and the model it leaves behind; [None] is a run-time panic (an
    index out of range). *)
Definition St (A : Type) : Type := XFile -> option (A * XFile).

(** Go's [int] arithmetic wraps around at 64 bits. *)
Definition wrap64 (z : Z) : Z := (z + 2 ^ 63) mod 2 ^ 64 - 2 ^ 63.

(** ** stack.go *)

Definition defaultHeader : list gostring :=
  [$"Table"; $"No."; $"ID"; $"DeltX"; $"DeltY"; $"FeedRates"; $"Note";
   $"Height"; $"Speed"; $"Status"; $"nPixSizeX"; $"nPixSizeY"; $"HeightTake";
   $"DelayTake"; $"nPullStripSpeed"; $"nThreshold"; $"nVisualRadio"].

(** [colMap[strings.ToLower(strings.TrimSpace(h))] = i], for the cells from
    index [i] on. *)
Fixpoint headerCols (header : list gostring) (i : nat)
  (colMap : gmap gostring nat) : gmap gostring nat :=
  match header with
  | [] => colMap
  | h :: rest =>
      headerCols rest (S i)
        (<[strings.ToLower (strings.TrimSpace h) := i]> colMap)
  end.

Section parseStationRow.
Variables header row : list gostring.

Definition stationCols : gmap gostring nat := headerCols header 0 ∅.

Definition getValue (name : gostring) : gostring :=
  match stationCols !! name with
  | Some idx =>
      match row !! idx with
      | Some cell => strings.TrimSpace cell
      | None => []
      end
  | None => []
  end.

Definition getInt (name : gostring) (def : Z) : Z :=
  match getValue name with
  | [] => def
  | v => match strconv.Atoi v with
         | Some i => i
         | None => def
         end
  end.

Definition getFloat (name : gostring) (def : float) : float :=
  match getValue name with
  | [] => def
  | v => match strconv.ParseFloat v with
         | Some f => f
         | None => def
         end
  end.

(** [parseStationRow]: every field is read by column name. *)
Definition parseStationRow : XStation.t :=
  {| XStation.No := getInt $"no." 0;
     XStation.ID := getInt $"id" 1;
     XStation.DeltX := getFloat $"deltx" 0;
     XStation.DeltY := getFloat $"delty" 0;
     XStation.FeedRates := getInt $"feedrates" 4;
     XStation.Note := getValue $"note";
     XStation.Height := getFloat $"height" 0.5;
     XStation.Speed := getInt $"speed" 0;
     XStation.Status := getInt $"status" 4;
     XStation.NPixSizeX :=
       (let v := getInt $"npixsizex" (-1) in
        if 0 <=? v then v else getInt $"sizex" 0);
     XStation.NPixSizeY :=
       (let v := getInt $"npixsizey" (-1) in
        if 0 <=? v then v else getInt $"sizey" 0);
     XStation.HeightTake := getFloat $"heighttake" 0;
     XStation.DelayTake := getInt $"delaytake" 10;
     XStation.NPullStripSpeed := getInt $"npullstripspeed" 85;
     XStation.NThreshold := getInt $"nthreshold" 110;
     XStation.NVisualRadio := getInt $"nvisualradio" 200;
     XStation.Select := false;
     XStation.PHead := getInt $"phead" 1;
     XStation.DNP := false |}.
End parseStationRow.

(** The lines [ParseStack] skips before it reads a line as CSV. *)
Definition isFileHeaderLine (lower : gostring) : bool :=
  strings.HasPrefix lower $"separated" ||
  strings.HasPrefix lower $"file," ||
  strings.HasPrefix lower $"pcbfile," ||
  strings.HasPrefix lower $"date," ||
  strings.HasPrefix lower $"time," ||
  strings.HasPrefix lower $"panelype,".

(** One turn of the loop over the lines: the header in force and the
    stations read so far. *)
Definition stackLine (st : list gostring * list XStation.t) (line : gostring)
  : list gostring * list XStation.t :=
  let '(header, stations) := st in
  let line := strings.TrimSpace line in
  match line with
  | [] => st
  | _ =>
      if isFileHeaderLine (strings.ToLower line) then st
      else
        match csv.readRecord line with
        | None | Some [] => st
        | Some ((cell :: _) as row) =>
            let first := strings.TrimSpace cell in
            if decide (first = $"Table") then (row, stations)
            else if decide (first = $"Station") then
              let header :=
                match header with
                | [] => defaultHeader
                | _ => header
                end in
              (header, stations ++ [parseStationRow header row])
            else st
        end
  end.

(** [ParseStack], on the text the reader delivers. *)
Definition ParseStack (text : gostring) : result (list XStation.t) :=
  let lines := strings.Split (strings.ReplaceAll text CR []) LF in
  let isDPV :=
    strings.Contains (strings.ToLower text) $"separated" ||
    strings.Contains (strings.ToLower text) $"station" in
  if negb isDPV then
    Err $"not a valid STACK file (missing 'separated' or 'Station' markers)"
  else
    match snd (fold_left stackLine lines ([], [])) with
    | [] => Err $"no Station data found in stack file"
    | stations => Ok stations
    end.

(** [noteToIdx[s.Note] = i], for the stations from index [i] on; a station
    without a note gets no key. *)
Fixpoint noteIndex (sts : list XStation.t) (i : nat)
  (noteToIdx : gmap gostring nat) : gmap gostring nat :=
  match sts with
  | [] => noteToIdx
  | s :: rest =>
      noteIndex rest (S i)
        (match XStation.Note s with
         | [] => noteToIdx
         | note => <[note := i]> noteToIdx
         end)
  end.

(** The [maxID] loop. *)
Definition maxStationID (sts : list XStation.t) : Z :=
  fold_left (fun maxID s => if maxID <? XStation.ID s then XStation.ID s else maxID)
            sts 0.

(** The station [MergeStationsIntoXFile] and [MergeStacksFile] append. *)
Definition appended (sts : list XStation.t) (incoming : XStation.t) : XStation.t :=
  XStation.withNo (XStation.withID incoming (wrap64 (maxStationID sts + 1)))
                  (Z.of_nat (length sts)).

(** One turn of the loop of [MergeStationsIntoXFile] over the incoming
    stations: the model's stations and the count of merged ones. *)
Definition mergeStation (noteToIdx : gmap gostring nat)
  (st : option (list XStation.t * Z)) (incoming : XStation.t)
  : option (list XStation.t * Z) :=
  match st with
  | None => None
  | Some (sts, merged) =>
      match noteToIdx !! XStation.Note incoming with
      | Some idx =>
          match sts !! idx with
          | Some existing =>
              Some (<[idx := XStation.withID incoming (XStation.ID existing)]> sts,
                    merged + 1)
          | None => None
          end
      | None => Some (sts ++ [appended sts incoming], merged)
      end
  end.

(** [noteToID[s.Note] = s.ID] over the stations. *)
Definition noteIDs (sts : list XStation.t) : gmap gostring Z :=
  fold_left (fun noteToID s =>
               match XStation.Note s with
               | [] => noteToID
               | note => <[note := XStation.ID s]> noteToID
               end) sts ∅.

(** [rederiveComponentSTNo]. *)
Definition rederiveComponentSTNo (xf : XFile) : XFile :=
  let noteToID := noteIDs (Stations xf) in
  withComponents xf
    (map (fun c => match noteToID !! XComponent.Explain c with
                   | Some id => XComponent.withSTNo c id
                   | None => c
                   end) (Components xf)).

Definition addStackFile (xf : XFile) (filename : gostring) : XFile :=
  match filename with
  | [] => xf
  | _ =>
      if existsb (fun f => bool_decide (f = filename)) (StackFiles xf) then xf
      else withStackFiles xf (StackFiles xf ++ [filename])
  end.

(** The loop of [MergeStationsIntoXFile] over the incoming stations, with the
    map built from the model's stations before it. *)
Definition mergeLoop (xf : XFile) (stations : list XStation.t)
  : option (list XStation.t * Z) :=
  let noteToIdx := noteIndex (Stations xf) 0 ∅ in
  fold_left (mergeStation noteToIdx) stations (Some (Stations xf, 0)).

(** [MergeStationsIntoXFile]: the count of merged stations. *)
Definition MergeStationsIntoXFile (stations : list XStation.t)
  (filename : gostring) : St Z :=
  fun xf =>
    match mergeLoop xf stations with
    | None => None
    | Some (sts, merged) =>
        Some (merged,
              rederiveComponentSTNo (addStackFile (withStations xf sts) filename))
    end.

(** [stackCsvEscape]. *)
Definition stackCsvEscape (s : gostring) : gostring :=
  if strings.ContainsAny s [","%char; dquote; CR; LF]
  then [dquote] ++ strings.ReplaceAll s dquote [dquote; dquote] ++ [dquote]
  else s.

Definition stackPreamble (file : gostring) : gostring :=
  $"separated" ++ CRLF ++ $"FILE," ++ file ++ CRLF ++ $"PANELYPE,1" ++ CRLF ++
  CRLF ++
  $"Table,No.,ID,PHead,DeltX,DeltY,FeedRates,Note,Height,Speed,Status,nPixSizeX,nPixSizeY,HeightTake,DelayTake,nPullStripSpeed,nThreshold,nVisualRadio"
  ++ CRLF.

(** The [Sprintf] of a station row, numbered [i]. *)
Definition stackRow (i : Z) (s : XStation.t) : gostring :=
  $"Station," ++ fmt.d i ++ $"," ++ fmt.d (XStation.ID s) ++ $"," ++
  fmt.d (XStation.PHead s) ++ $"," ++ fmt.f2 (XStation.DeltX s) ++ $"," ++
  fmt.f2 (XStation.DeltY s) ++ $"," ++ fmt.d (XStation.FeedRates s) ++ $"," ++
  stackCsvEscape (XStation.Note s) ++ $"," ++ fmt.f2 (XStation.Height s) ++ $"," ++
  fmt.d (XStation.Speed s) ++ $"," ++ fmt.d (XStation.Status s) ++ $"," ++
  fmt.d (XStation.NPixSizeX s) ++ $"," ++ fmt.d (XStation.NPixSizeY s) ++ $"," ++
  fmt.f2 (XStation.HeightTake s) ++ $"," ++ fmt.d (XStation.DelayTake s) ++ $"," ++
  fmt.d (XStation.NPullStripSpeed s) ++ $"," ++ fmt.d (XStation.NThreshold s) ++
  $"," ++ fmt.d (XStation.NVisualRadio s) ++ CRLF.

(** The rows [GenerateStack] writes for the stations from index [i] on: the
    row number is the index in [xf.Stations]. *)
Fixpoint stackRows (sts : list XStation.t) (i : nat) : gostring :=
  match sts with
  | [] => []
  | s :: rest =>
      (if XStation.DNP s then [] else stackRow (Z.of_nat i) s) ++
      stackRows rest (S i)
  end.

(** [GenerateStack]. *)
Definition GenerateStack (xf : XFile) : gostring :=
  stackPreamble $"MaterialStack.stack" ++ stackRows (Stations xf) 0.

(** The rows [GenerateStacksFile] writes, [idx] counting the rows written. *)
Fixpoint stacksFileRows (sts : list XStation.t) (idx : nat) : gostring :=
  match sts with
  | [] => []
  | s :: rest =>
      if XStation.DNP s then stacksFileRows rest idx
      else stackRow (Z.of_nat idx) s ++ stacksFileRows rest (S idx)
  end.

(** [GenerateStacksFile]. *)
Definition GenerateStacksFile (xf : XFile) : gostring :=
  stackPreamble $"material.stacks" ++ stacksFileRows (Stations xf) 0.

(** One turn of the loop of [MergeStacksFile]: the stations, the merged and
    the added counts. *)
Definition mergeStacksStation (noteToIdx : gmap gostring nat)
  (st : option (list XStation.t * Z * Z)) (incoming : XStation.t)
  : option (list XStation.t * Z * Z) :=
  match st with
  | None => None
  | Some (sts, merged, added) =>
      match noteToIdx !! XStation.Note incoming with
      | Some idx =>
          match sts !! idx with
          | Some existing =>
              Some (<[idx := XStation.withNo
                                (XStation.withID incoming (XStation.ID existing))
                                (XStation.No existing)]> sts,
                    merged + 1, added)
          | None => None
          end
      | None => Some (sts ++ [appended sts incoming], merged, added + 1)
      end
  end.

(** The loop of [MergeStacksFile] over the parsed stations. *)
Definition stacksLoop (xf : XFile) (stations : list XStation.t)
  : option (list XStation.t * Z * Z) :=
  let noteToIdx := noteIndex (Stations xf) 0 ∅ in
  fold_left (mergeStacksStation noteToIdx) stations (Some (Stations xf, 0, 0)).

(** [MergeStacksFile]: the merged and the added counts, or the parse error. *)
Definition MergeStacksFile (content : gostring) : St (result (Z * Z)) :=
  fun xf =>
    match ParseStack content with
    | Err e => Some (Err e, xf)
    | Ok stations =>
        match stacksLoop xf stations with
        | None => None
        | Some (sts, merged, added) =>
            Some (Ok (merged, added),
                  rederiveComponentSTNo (withStations xf sts))
        end
    end.

(** ** dpv.go: validation *)

Module DPVValidationError.
Record t := mk {
  Type_ : gostring;
  Field : gostring;
  Row : Z;
  Message : gostring
}.
End DPVValidationError.

Record DPVValidationResult := {
  Valid : bool;
  Errors : list DPVValidationError.t;
  Warnings : list DPVValidationError.t
}.

(** [result.Errors = append(result.Errors, e); result.Valid = false]. *)
Definition addError (r : DPVValidationResult) (e : DPVValidationError.t)
  : DPVValidationResult :=
  {| Valid := false; Errors := Errors r ++ [e]; Warnings := Warnings r |}.

(** [result.Warnings = append(result.Warnings, w)]. *)
Definition addWarning (r : DPVValidationResult) (w : DPVValidationError.t)
  : DPVValidationResult :=
  {| Valid := Valid r; Errors := Errors r; Warnings := Warnings r ++ [w] |}.

(** [for i, x := range l { body }] over a state [R], from index [i] on. *)
Fixpoint rangeFrom {A R : Type} (body : R -> Z -> A -> R) (l : list A)
  (i : nat) (r : R) : R :=
  match l with
  | [] => r
  | x :: rest => rangeFrom body rest (S i) (body r (Z.of_nat i) x)
  end.

Definition range {A R : Type} (body : R -> Z -> A -> R) (l : list A) (r : R) : R :=
  rangeFrom body l 0 r.

(** A check of one row that may add one error, or one warning. *)
Definition errorIf {A : Type} (cond : Z -> A -> bool)
  (mkErr : Z -> A -> DPVValidationError.t) (l : list A)
  (r : DPVValidationResult) : DPVValidationResult :=
  range (fun r i x => if cond i x then addError r (mkErr i x) else r) l r.

Definition warnIf {A : Type} (cond : Z -> A -> bool)
  (mkWarn : Z -> A -> DPVValidationError.t) (l : list A)
  (r : DPVValidationResult) : DPVValidationResult :=
  range (fun r i x => if cond i x then addWarning r (mkWarn i x) else r) l r.

Definition fneq (a b : float) : bool := negb (PrimFloat.eqb a b).

Definition activeComponentsOf (xf : XFile) : list XComponent.t :=
  List.filter (fun c => negb (XComponent.DNP c)) (Components xf).

Definition activeStationsOf (xf : XFile) : list XStation.t :=
  List.filter (fun s => negb (XStation.DNP s)) (Stations xf).

(** [stationIDs[id]] of a [map[int]bool]. *)
Definition hasID (stationIDs : gmap Z bool) (id : Z) : bool :=
  default false (stationIDs !! id).

(** The first loop over the active stations: duplicate, reserved and
    undefined ids, with the set of ids seen. *)
Definition checkStationID (st : DPVValidationResult * gmap Z bool) (i : Z)
  (s : XStation.t) : DPVValidationResult * gmap Z bool :=
  let '(r, stationIDs) := st in
  let id := XStation.ID s in
  let r :=
    if hasID stationIDs id then
      addError r
        (DPVValidationError.mk $"duplicate_station_id" $"Station.ID" i
           ($"Duplicate Station ID " ++ fmt.d id ++ $" at row " ++ fmt.d i))
    else r in
  let stationIDs := <[id := true]> stationIDs in
  let r :=
    if 100 <=? id then
      addError r
        (DPVValidationError.mk $"reserved_station_id" $"Station.ID" i
           ($"Station ID " ++ fmt.d id ++
            $" is reserved (IDs >= 100 are machine-reserved and will cause head crashes)"))
    else r in
  let r :=
    if ((30 <=? id) && (id <=? 35)) || ((65 <=? id) && (id <=? 70)) then
      addWarning r
        (DPVValidationError.mk $"undefined_station_id" $"Station.ID" i
           ($"Station ID " ++ fmt.d id ++
            $" is in an undefined range (valid: 1-29 left reels, 36-64 right reels, 71-84 front tray, 85-90 vibratory, 91-99 IC trays)"))
    else r in
  (r, stationIDs).

(** [stationStatusMap[s.ID] = s.Status]. *)
Definition statusMap (sts : list XStation.t) : gmap Z Z :=
  fold_left (fun m s => <[XStation.ID s := XStation.Status s]> m) sts ∅.

(** The inner loop of the height check: the first active station with the
    component's [STNo] and another height. *)
Definition heightMismatch (sts : list XStation.t) (c : XComponent.t)
  : option XStation.t :=
  List.find (fun s => (XStation.ID s =? XComponent.STNo c) &&
                      fneq (XComponent.Height c) (XStation.Height s)) sts.

Definition maxPCBX : float := 345.
Definition maxPCBY : float := 355.

(** [maxX] and [maxY] of the positions with the global offset added. *)
Definition maxPosition (xf : XFile) (cs : list XComponent.t) : float * float :=
  fold_left
    (fun '(maxX, maxY) c =>
       let x := (XComponent.DeltX c + GlobalOffset.X (GlobalOffset xf))%float in
       let y := (XComponent.DeltY c + GlobalOffset.Y (GlobalOffset xf))%float in
       (if PrimFloat.ltb maxX x then x else maxX,
        if PrimFloat.ltb maxY y then y else maxY))
    cs (0%float, 0%float).

(** The checks of the Station table, in the order of the source. *)
Definition stationChecks (activeStations : list XStation.t)
  (r : DPVValidationResult) : DPVValidationResult * gmap Z bool :=
  let '(r, stationIDs) := range checkStationID activeStations (r, ∅) in
  let r :=
    warnIf (fun i s => negb (XStation.No s =? i))
      (fun i s =>
         DPVValidationError.mk $"station_no_sequence" $"Station.No." i
           ($"Station No. " ++ fmt.d (XStation.No s) ++ $" should be " ++
            fmt.d i ++ $" (will be renumbered on export)"))
      activeStations r in
  let r :=
    errorIf (fun _ s => (XStation.Status s <? 0) || (15 <? XStation.Status s))
      (fun i s =>
         DPVValidationError.mk $"invalid_station_status" $"Station.Status" i
           ($"Station Status " ++ fmt.d (XStation.Status s) ++
            $" is invalid (must be 0-15)"))
      activeStations r in
  let r :=
    warnIf (fun _ s => negb (XStation.FeedRates s =? 2) &&
                       negb (XStation.FeedRates s =? 4) &&
                       negb (XStation.FeedRates s =? 8))
      (fun i s =>
         DPVValidationError.mk $"unusual_feedrate" $"Station.FeedRates" i
           ($"Station FeedRates " ++ fmt.d (XStation.FeedRates s) ++
            $" is unusual (typically 2, 4, or 8)"))
      activeStations r in
  let r :=
    errorIf (fun _ s => negb (XStation.Speed s =? 0) && (XStation.Speed s <? 50))
      (fun i s =>
         DPVValidationError.mk $"invalid_station_speed" $"Station.Speed" i
           ($"Station Speed " ++ fmt.d (XStation.Speed s) ++
            $" is invalid (must be 0 for 100%, or 50-100)"))
      activeStations r in
  let r :=
    errorIf (fun _ s => negb (XStation.PHead s =? 1) && negb (XStation.PHead s =? 2))
      (fun i s =>
         DPVValidationError.mk $"invalid_station_phead" $"Station.PHead" i
           ($"Station PHead " ++ fmt.d (XStation.PHead s) ++
            $" must be 1 (left nozzle) or 2 (right nozzle)"))
      activeStations r in
  let r :=
    errorIf (fun _ s => negb (XStation.NThreshold s =? 0) &&
                        ((XStation.NThreshold s <? 1) || (256 <? XStation.NThreshold s)))
      (fun i s =>
         DPVValidationError.mk $"invalid_threshold" $"Station.nThreshold" i
           ($"Station nThreshold " ++ fmt.d (XStation.NThreshold s) ++
            $" is invalid (must be 0 for default, or 1-256)"))
      activeStations r in
  let r :=
    range (fun r i s =>
             let r :=
               if PrimFloat.ltb 5 (XStation.Height s) then
                 addError r
                   (DPVValidationError.mk $"station_height_exceeded"
                      $"Station.Height" i
                      ($"Station Height " ++ fmt.f2 (XStation.Height s) ++
                       $" exceeds maximum 5mm"))
               else r in
             if PrimFloat.ltb (XStation.Height s) 0 then
               addError r
                 (DPVValidationError.mk $"station_height_negative"
                    $"Station.Height" i
                    ($"Station Height " ++ fmt.f2 (XStation.Height s) ++
                     $" cannot be negative"))
             else r)
      activeStations r in
  let allStationCoordsZero :=
    forallb (fun s => negb (fneq (XStation.DeltX s) 0 || fneq (XStation.DeltY s) 0))
            activeStations in
  let r :=
    if allStationCoordsZero && (0 <? length activeStations)%nat then
      addWarning r
        (DPVValidationError.mk $"stations_need_calibration"
           $"Station.DeltX/DeltY" 0
           $"All Material Stack coordinates are zero. You will need to calibrate feeder positions on the machine before running.")
    else r in
  (r, stationIDs).

(** The checks of the EComponent table. *)
Definition componentChecks (xf : XFile) (activeComponents : list XComponent.t)
  (activeStations : list XStation.t) (stationIDs : gmap Z bool)
  (r : DPVValidationResult) : DPVValidationResult :=
  let r :=
    warnIf (fun i c => negb (XComponent.No c =? i))
      (fun i c =>
         DPVValidationError.mk $"component_no_sequence" $"EComponent.No." i
           ($"Component No. " ++ fmt.d (XComponent.No c) ++ $" should be " ++
            fmt.d i ++ $" (will be renumbered on export)"))
      activeComponents r in
  let r :=
    errorIf (fun _ c => negb (XComponent.PHead c =? 1) && negb (XComponent.PHead c =? 2))
      (fun i c =>
         DPVValidationError.mk $"invalid_phead" $"EComponent.PHead" i
           ($"Component PHead " ++ fmt.d (XComponent.PHead c) ++ $" must be 1 or 2"))
      activeComponents r in
  let r :=
    errorIf (fun _ c => negb (hasID stationIDs (XComponent.STNo c)))
      (fun i c =>
         DPVValidationError.mk $"orphan_component" $"EComponent.STNo." i
           ($"Component STNo. " ++ fmt.d (XComponent.STNo c) ++
            $" references non-existent Station ID"))
      activeComponents r in
  let stationStatusMap := statusMap activeStations in
  let r :=
    range (fun r i c =>
             match stationStatusMap !! XComponent.STNo c with
             | None => r
             | Some stationStatus =>
                 let compHasVision := negb (Z.land (XComponent.Skip c) 4 =? 0) in
                 let stationHasVision := negb (Z.land stationStatus 4 =? 0) in
                 if stationHasVision && negb compHasVision then
                   addWarning r
                     (DPVValidationError.mk $"skip_status_mismatch"
                        $"EComponent.Skip" i
                        ($"Component Skip=" ++ fmt.d (XComponent.Skip c) ++
                         $" will be updated to include vision flag from Station "
                         ++ fmt.d (XComponent.STNo c) ++ $" (Status=" ++
                         fmt.d stationStatus ++ $")"))
                 else r
             end)
      activeComponents r in
  let r :=
    warnIf (fun _ c => PrimFloat.ltb (XComponent.DeltX c) 0 ||
                       PrimFloat.ltb (XComponent.DeltY c) 0)
      (fun i c =>
         DPVValidationError.mk $"negative_coordinates" $"EComponent.DeltX/DeltY" i
           ($"Component has negative coordinates (" ++ fmt.f2 (XComponent.DeltX c)
            ++ $", " ++ fmt.f2 (XComponent.DeltY c) ++
            $") - all positions should be positive"))
      activeComponents r in
  let r :=
    warnIf (fun _ c => PrimFloat.ltb (XComponent.Angle c) (-180) ||
                       PrimFloat.ltb 180 (XComponent.Angle c))
      (fun i c =>
         DPVValidationError.mk $"angle_out_of_range" $"EComponent.Angle" i
           ($"Component Angle " ++ fmt.f2 (XComponent.Angle c) ++
            $" should be between -180 and 180"))
      activeComponents r in
  let r :=
    errorIf (fun _ c => negb (XComponent.Speed c =? 0) && (XComponent.Speed c <? 50))
      (fun i c =>
         DPVValidationError.mk $"invalid_component_speed" $"EComponent.Speed" i
           ($"Component Speed " ++ fmt.d (XComponent.Speed c) ++
            $" is invalid (must be 0 for 100%, or 50-100)"))
      activeComponents r in
  let r :=
    if (length activeComponents =? 1)%nat then
      addWarning r
        (DPVValidationError.mk $"single_component" $"EComponent" 0
           $"Only 1 component defined - machine requires at least 2 components for LR fiducial calibration to work (known bug)")
    else r in
  let r :=
    range (fun r i c =>
             match heightMismatch activeStations c with
             | Some s =>
                 addWarning r
                   (DPVValidationError.mk $"height_mismatch" $"EComponent.Height" i
                      ($"Component Height " ++ fmt.f2 (XComponent.Height c) ++
                       $" differs from Station " ++ fmt.d (XStation.ID s) ++
                       $" Height " ++ fmt.f2 (XStation.Height s)))
             | None => r
             end)
      activeComponents r in
  let '(maxX, maxY) := maxPosition xf activeComponents in
  let r :=
    if PrimFloat.ltb maxPCBX maxX then
      addWarning r
        (DPVValidationError.mk $"pcb_size_x" $"EComponent.DeltX" 0
           ($"Component X position " ++ fmt.f2 maxX ++
            $"mm exceeds PCB max width of " ++ fmt.f0 maxPCBX ++
            $"mm (CHM-T48VB limit)"))
    else r in
  if PrimFloat.ltb maxPCBY maxY then
    addWarning r
      (DPVValidationError.mk $"pcb_size_y" $"EComponent.DeltY" 0
         ($"Component Y position " ++ fmt.f2 maxY ++
          $"mm exceeds PCB max length of " ++ fmt.f0 maxPCBY ++
          $"mm (CHM-T48VB limit)"))
  else r.

(** The Panel_Array and file-header checks. *)
Definition panelAndFileChecks (xf : XFile) (filename : gostring)
  (r : DPVValidationResult) : DPVValidationResult :=
  let r :=
    match PanelArray xf with
    | [] =>
        addError r
          (DPVValidationError.mk $"missing_panel_array" $"Panel_Array" 0
             $"Panel_Array table is required - machine won't allow PCB calibration without it")
    | pa :: _ =>
        if (PanelArrayRow.NumX pa <? 1) || (PanelArrayRow.NumY pa <? 1) then
          addError r
            (DPVValidationError.mk $"invalid_panel_array" $"Panel_Array.NumX/NumY" 0
               ($"Panel_Array NumX (" ++ fmt.d (PanelArrayRow.NumX pa) ++
                $") and NumY (" ++ fmt.d (PanelArrayRow.NumY pa) ++
                $") must be at least 1"))
        else r
    end in
  match filename with
  | [] =>
      addError r
        (DPVValidationError.mk $"missing_filename" $"FILE" 0
           $"Output filename is required")
  | _ =>
      if negb (strings.HasSuffix (strings.ToLower filename) $".dpv") then
        addWarning r
          (DPVValidationError.mk $"filename_extension" $"FILE" 0
             ($"Filename '" ++ filename ++ $"' should have .dpv extension"))
      else r
  end.

(** What [ValidateDPV] computes from the model it reads. *)
Definition validation (xf : XFile) (filename : gostring) : DPVValidationResult :=
  let r := {| Valid := true; Errors := []; Warnings := [] |} in
  let activeComponents := activeComponentsOf xf in
  let activeStations := activeStationsOf xf in
  let '(r, stationIDs) := stationChecks activeStations r in
  let r := componentChecks xf activeComponents activeStations stationIDs r in
  panelAndFileChecks xf filename r.

(** [ValidateDPV]: it reads through [xf] and writes nothing. *)
Definition ValidateDPV (filename : gostring) : St DPVValidationResult :=
  fun xf => Some (validation xf filename, xf).

(** ** dpv.go: generation *)

(** [csvEscape]. *)
Definition csvEscape (s : gostring) : gostring :=
  if strings.ContainsAny s [","%char; dquote; CR; LF]
  then [dquote] ++ strings.ReplaceAll s dquote [dquote; dquote] ++ [dquote]
  else s.

(** [usedStationIDs[c.STNo] = true] over the active components. *)
Definition usedIDs (activeComponents : list XComponent.t) : gmap Z bool :=
  fold_left (fun m c => <[XComponent.STNo c := true]> m) activeComponents ∅.

(** The active stations of the job file: not DNP and used by an active
    component. *)
Definition usedStationsOf (xf : XFile) : list XStation.t :=
  let used := usedIDs (activeComponentsOf xf) in
  List.filter (fun s => negb (XStation.DNP s) && hasID used (XStation.ID s))
              (Stations xf).

(** The [Skip] that is written: the stored flags with the station's vision
    (4) and vacuum (2) flags put in. *)
Definition autoFixSkip (stationStatusMap : gmap Z Z) (c : XComponent.t) : Z :=
  let skip := XComponent.Skip c in
  match stationStatusMap !! XComponent.STNo c with
  | Some stationStatus =>
      let skip :=
        if negb (Z.land stationStatus 4 =? 0) && (Z.land skip 4 =? 0)
        then Z.lor skip 4 else skip in
      if negb (Z.land stationStatus 2 =? 0) && (Z.land skip 2 =? 0)
      then Z.lor skip 2 else skip
  | None => skip
  end.

(** The [Sprintf] of an EComponent row from its values. *)
Definition componentText (i : Z) (c : XComponent.t) (deltX deltY : float)
  (skip : Z) : gostring :=
  $"EComponent," ++ fmt.d i ++ $"," ++ fmt.d (XComponent.ID c) ++ $"," ++
  fmt.d (XComponent.PHead c) ++ $"," ++ fmt.d (XComponent.STNo c) ++ $"," ++
  fmt.f2 deltX ++ $"," ++ fmt.f2 deltY ++ $"," ++
  fmt.f2 (XComponent.Angle c) ++ $"," ++ fmt.f2 (XComponent.Height c) ++ $"," ++
  fmt.d skip ++ $"," ++ fmt.d (XComponent.Speed c) ++ $"," ++
  csvEscape (XComponent.Explain c) ++ $"," ++ csvEscape (XComponent.Note c) ++
  $"," ++ fmt.d (XComponent.Delay c) ++ CRLF.

(** One turn of the EComponent loop. *)
Definition componentRow (xf : XFile) (stationStatusMap : gmap Z Z) (i : Z)
  (c : XComponent.t) : gostring :=
  let deltX := (XComponent.DeltX c + GlobalOffset.X (GlobalOffset xf))%float in
  let deltY := (XComponent.DeltY c + GlobalOffset.Y (GlobalOffset xf))%float in
  componentText i c deltX deltY (autoFixSkip stationStatusMap c).

Definition stationRow (i : Z) (s : XStation.t) : gostring :=
  $"Station," ++ fmt.d i ++ $"," ++ fmt.d (XStation.ID s) ++ $"," ++
  fmt.f2 (XStation.DeltX s) ++ $"," ++
  fmt.f2 (XStation.DeltY s) ++ $"," ++ fmt.d (XStation.FeedRates s) ++ $"," ++
  csvEscape (XStation.Note s) ++ $"," ++ fmt.f2 (XStation.Height s) ++ $"," ++
  fmt.d (XStation.Speed s) ++ $"," ++ fmt.d (XStation.Status s) ++ $"," ++
  fmt.d (XStation.NPixSizeX s) ++ $"," ++ fmt.d (XStation.NPixSizeY s) ++ $"," ++
  fmt.f2 (XStation.HeightTake s) ++ $"," ++ fmt.d (XStation.DelayTake s) ++ $"," ++
  fmt.d (XStation.NPullStripSpeed s) ++ $"," ++ fmt.d (XStation.NThreshold s) ++
  $"," ++ fmt.d (XStation.NVisualRadio s) ++ CRLF.

Definition panelArrayRowText (i : Z) (pa : PanelArrayRow.t) : gostring :=
  $"Panel_Array," ++ fmt.d i ++ $"," ++ fmt.d (PanelArrayRow.ID pa) ++ $"," ++
  fmt.f2 (PanelArrayRow.IntervalX pa) ++ $"," ++
  fmt.f2 (PanelArrayRow.IntervalY pa) ++ $"," ++
  fmt.d (PanelArrayRow.NumX pa) ++ $"," ++ fmt.d (PanelArrayRow.NumY pa) ++ CRLF.

Definition panelCoordRowText (i : Z) (pc : PanelCoordRow.t) : gostring :=
  $"Panel_Coord," ++ fmt.d i ++ $"," ++ fmt.d (PanelCoordRow.ID pc) ++ $"," ++
  fmt.f2 (PanelCoordRow.DeltX pc) ++ $"," ++ fmt.f2 (PanelCoordRow.DeltY pc) ++
  CRLF.

(** The rows of a table: [sb.WriteString] in a [for i, x := range]. *)
Definition rows {A : Type} (row : Z -> A -> gostring) (l : list A) : gostring :=
  range (fun sb i x => sb ++ row i x) l [].

(** The sections of the job file, in the order they are written. *)
Definition headerSection (xf : XFile) (filename : gostring) (now : Time)
  : gostring :=
  $"separated" ++ CRLF ++
  $"FILE," ++ filename ++ CRLF ++
  $"PCBFILE," ++ OriginalPOS xf ++ CRLF ++
  $"DATE," ++ fmt.d (Year now) ++ $"/" ++ fmt.d02 (Month now) ++ $"/" ++
  fmt.d02 (Day now) ++ CRLF ++
  $"TIME," ++ fmt.d02 (Hour now) ++ $":" ++ fmt.d02 (Minute now) ++ $":" ++
  fmt.d02 (Second now) ++ CRLF ++
  $"PANELYPE,1" ++ CRLF.

Definition stationSection (xf : XFile) : gostring :=
  CRLF ++
  $"Table,No.,ID,DeltX,DeltY,FeedRates,Note,Height,Speed,Status,nPixSizeX,nPixSizeY,HeightTake,DelayTake,nPullStripSpeed,nThreshold,nVisualRadio"
  ++ CRLF ++ rows stationRow (usedStationsOf xf).

Definition panelArraySection (xf : XFile) : gostring :=
  CRLF ++ $"Table,No.,ID,IntervalX,IntervalY,NumX,NumY" ++ CRLF ++
  rows panelArrayRowText (PanelArray xf).

Definition panelCoordSection (xf : XFile) : gostring :=
  CRLF ++ $"Table,No.,ID,DeltX,DeltY" ++ CRLF ++
  rows panelCoordRowText (PanelCoord xf).

Definition componentSection (xf : XFile) : gostring :=
  CRLF ++
  $"Table,No.,ID,PHead,STNo.,DeltX,DeltY,Angle,Height,Skip,Speed,Explain,Note,Delay"
  ++ CRLF ++
  rows (componentRow xf (statusMap (usedStationsOf xf))) (activeComponentsOf xf).

Definition icTraySection : gostring :=
  CRLF ++ $"Table,No.,ID,CenterX,CenterY,IntervalX,IntervalY,NumX,NumY,Start" ++
  CRLF.

Definition pcbCalibSection : gostring :=
  CRLF ++ $"Table,No.,nType,nAlg,nFinished" ++ CRLF ++
  $"PcbCalib,0,0,0,0" ++ CRLF.

Definition calibPointSection : gostring :=
  CRLF ++ $"Table,No.,ID,offsetX,offsetY,Note,Model,Type,DevX,DevY" ++ CRLF ++
  $"CalibPoint,0,1,0,0,,0,0,0,0" ++ CRLF ++
  $"CalibPoint,1,2,0,0,,0,0,0,0" ++ CRLF ++
  $"CalibPoint,2,3,0,0,,0,0,0,0" ++ CRLF.

Definition calibFatorSection : gostring :=
  CRLF ++
  $"Table,No.,PCBX1,PCBY1,PCBX2,PCBY2,PCBX3,PCBY3,SMTX1,SMTY1,SMTX2,SMTY2,SMTX3,SMTY3,DeltaAngle"
  ++ CRLF ++ $"CalibFator,0,0,0,0,0,0,0,0,0,0,0,0,0,0" ++ CRLF.

(** The text of the job file, once validation has passed. *)
Definition jobText (xf : XFile) (filename : gostring) (now : Time) : gostring :=
  headerSection xf filename now ++ stationSection xf ++ panelArraySection xf ++
  panelCoordSection xf ++ componentSection xf ++ icTraySection ++
  pcbCalibSection ++ calibPointSection ++ calibFatorSection.

(** The error [GenerateDPV] returns for a failed validation. *)
Definition validationFailure (v : DPVValidationResult) : gostring :=
  $"DPV validation failed:" ++ [LF] ++
  strings.Join (map DPVValidationError.Message (Errors v)) [LF].

(** [GenerateDPV]; [now] is what [time.Now()] reads.  The text and the
    error: [None] for [nil]. *)
Definition GenerateDPV (filename : gostring) (now : Time)
  : St (gostring * option gostring) :=
  fun xf =>
    match ValidateDPV filename xf with
    | None => None
    | Some (v, xf) =>
        if negb (Valid v) then Some (([], Some (validationFailure v)), xf)
        else Some ((jobText xf filename now, None), xf)
    end.

(** ** dpv.go: the README of the export package *)

(** [appendInt] of package [time]: after the sign, the digits with zeros in
    front of them up to the width. *)
Definition appendInt (x : Z) (width : nat) : gostring :=
  if x <? 0 then "-"%char :: strconv.padZeros width (strconv.Itoa (- x))
  else strconv.padZeros width (strconv.Itoa x).

(** [Format] with the layout 2006-01-02 15:04:05. *)
Definition formatStamp (t : Time) : gostring :=
  appendInt (Year t) 4 ++ $"-" ++ appendInt (Month t) 2 ++ $"-" ++
  appendInt (Day t) 2 ++ $" " ++ appendInt (Hour t) 2 ++ $":" ++
  appendInt (Minute t) 2 ++ $":" ++ appendInt (Second t) 2.

(** [sb.WriteString] of lines that end in CR LF. *)
Definition written (lines : list gostring) : gostring :=
  concat (map (fun l => l ++ CRLF) lines).

(** The [allCoordsZero] loop of [GenerateReadme], over all the stations. *)
Definition allCoordsZero (sts : list XStation.t) : bool :=
  forallb (fun s => negb (negb (XStation.DNP s) &&
                          (fneq (XStation.DeltX s) 0 || fneq (XStation.DeltY s) 0)))
          sts.

(** [baseName]: the file name without a [.dpv] at its end, when something is
    left in front of it. *)
Definition readmeBaseName (filename : gostring) : gostring :=
  let idx := Z.of_nat (length filename) - 4 in
  if (0 <? idx) && bool_decide (drop (Z.to_nat idx) filename = $".dpv")
  then take (Z.to_nat idx) filename
  else filename.

(** The counting loops. *)
Definition countComponents (cs : list XComponent.t) : Z :=
  fold_left (fun n c => if XComponent.DNP c then n else n + 1) cs 0.

Definition countStations (sts : list XStation.t) : Z :=
  fold_left (fun n s => if XStation.DNP s then n else n + 1) sts 0.

Definition readmeIntro (filename : gostring) (now : Time) : gostring :=
  written
    [$"CharmTool Export Package - Setup Checklist";
     $"==========================================";
     $"File: " ++ filename;
     $"Generated: " ++ formatStamp now;
     [];
     $"BEFORE RUNNING THIS JOB ON THE MACHINE:";
     $"---------------------------------------";
     [];
     $"1. IMPORT THE DPV FILE";
     $"   File > Open > Select the .dpv file";
     [];
     $"2. SET PCB COORDINATES";
     $"   Run > Edit > PCB Calibrate";
     $"   - Set the board origin (0,0) position";
     [];
     $"3. SET THREE CALIBRATION POINTS";
     $"   Run > Edit > PCB Calibrate";
     $"   - Calibrate UL (Upper Left), LR (Lower Right), LL (Lower Left)";
     $"   - Use component positions for better accuracy";
     []].

Definition readmeStacks (needCalibration : bool) : gostring :=
  if needCalibration then
    written
      [$"4. *** MATERIAL STACKS NEED CALIBRATION ***";
       $"   Run > Edit > MStack > Edit > Coordinate Set";
       $"   - All feeder pocket positions are currently at 0,0";
       $"   - Calibrate each Station's DeltX/DeltY for accurate pickup";
       $"   - Or import a previously calibrated .stack file";
       []]
  else
    written
      [$"4. VERIFY MATERIAL STACK POSITIONS";
       $"   Run > Edit > MStack";
       $"   - Material Stack coordinates are set";
       $"   - Verify positions if feeders have been moved";
       []].

Definition readmeChecks : gostring :=
  written
    [$"5. VERIFY COMPONENT ASSIGNMENTS";
     $"   Run > Edit > Batch Edit";
     $"   - Check that components are assigned to correct feeders";
     $"   - Remove any invalid entries";
     [];
     $"6. RUN A DRY TEST";
     $"   - Run without vacuum to verify positions";
     $"   - Check nozzle movements over feeders and board";
     []].

Definition readmeContents (baseName : gostring) : gostring :=
  written
    [$"PACKAGE CONTENTS:";
     $"-----------------";
     $"- " ++ baseName ++ $".dpv      : DPV file for the machine";
     $"- " ++ baseName ++ $".stack    : Material Stack backup (with PHead)";
     $"- " ++ baseName ++ $".pos      : Original POS file";
     $"- " ++ baseName ++ $".log      : Session log";
     $"- material.stacks : Calibrated feeder positions (reusable)";
     $"- README.txt      : This file";
     [];
     $"TIP: Import material.stacks into future projects to reuse";
     $"     your calibrated feeder positions.";
     []].

Definition readmeSummary (activeComps activeStations : Z) : gostring :=
  written
    [$"SUMMARY:";
     $"--------";
     $"Components to place: " ++ fmt.d activeComps;
     $"Material Stacks: " ++ fmt.d activeStations;
     [];
     $"Generated by CharmTool - https://github.com/rickmcneely/CharmTools"].

(** [GenerateReadme]; [now] is what [time.Now()] reads. *)
Definition GenerateReadme (xf : XFile) (filename : gostring) (now : Time)
  : gostring :=
  readmeIntro filename now ++
  readmeStacks (allCoordsZero (Stations xf)) ++
  readmeChecks ++
  readmeContents (readmeBaseName filename) ++
  readmeSummary (countComponents (Components xf)) (countStations (Stations xf)).

(** ** pos.go *)

Record POSData := { Headers : list gostring; Rows : list POSRow.t }.

(** [splitByWhitespace]. *)
Definition splitByWhitespace (line : gostring) : list gostring :=
  List.filter (fun p => negb (bool_decide (p = [])))
              (regexp.SplitSpaces (strings.TrimSpace line)).

(** The loop of [parseCSVLine] before the fields are trimmed. *)
Fixpoint csvLineFields (line : gostring) (inQuotes : bool) : list gostring :=
  match line with
  | [] => [[]]
  | c :: r =>
      if Ascii.eqb c dquote then
        if inQuotes then
          match r with
          | c' :: r' =>
              if Ascii.eqb c' dquote then csv.push dquote (csvLineFields r' true)
              else csvLineFields r false
          | [] => csvLineFields r false
          end
        else csvLineFields r true
      else if Ascii.eqb c "," && negb inQuotes then [] :: csvLineFields r false
      else csv.push c (csvLineFields r inQuotes)
  end.

(** [parseCSVLine]. *)
Definition parseCSVLine (line : gostring) : list gostring :=
  map strings.TrimSpace (csvLineFields line false).

(** The canonical column a header cell names, if any. *)
Definition columnKey (cell : gostring) : option gostring :=
  let lower := strings.ToLower (strings.TrimSpace cell) in
  if decide (lower = $"ref") then Some $"ref"
  else if decide (lower = $"designator") then Some $"ref"
  else if decide (lower = $"val") then Some $"val"
  else if decide (lower = $"value") then Some $"val"
  else if decide (lower = $"package") then Some $"package"
  else if decide (lower = $"footprint") then Some $"package"
  else if decide (lower = $"posx") then Some $"posx"
  else if decide (lower = $"mid x") then Some $"posx"
  else if decide (lower = $"center-x(mm)") then Some $"posx"
  else if decide (lower = $"posy") then Some $"posy"
  else if decide (lower = $"mid y") then Some $"posy"
  else if decide (lower = $"center-y(mm)") then Some $"posy"
  else if decide (lower = $"rot") then Some $"rot"
  else if decide (lower = $"rotation") then Some $"rot"
  else if decide (lower = $"side") then Some $"side"
  else if decide (lower = $"layer") then Some $"side"
  else if decide (lower = $"tb") then Some $"side"
  else None.

Fixpoint columnsFrom (headers : list gostring) (j : nat)
  (colMap : gmap gostring nat) : gmap gostring nat :=
  match headers with
  | [] => colMap
  | cell :: rest =>
      columnsFrom rest (S j)
        (match columnKey cell with
         | Some key => <[key := j]> colMap
         | None => colMap
         end)
  end.

(** [buildColumnMap]. *)
Definition buildColumnMap (headers : list gostring) : gmap gostring nat :=
  columnsFrom headers 0 ∅.

(** [parseFloat]: a trailing mm is dropped. *)
Definition parseFloat (s : gostring) : option float :=
  let s := strings.TrimSpace s in
  let s := strings.TrimSuffix s $"mm" in
  let s := strings.TrimSpace s in
  strconv.ParseFloat s.

Section parseRowFields.
Variable fields : list gostring.
Variable colMap : gmap gostring nat.

(** [fields[idx]] when the column is known and the row is long enough. *)
Definition field (name : gostring) : option gostring :=
  match colMap !! name with
  | Some idx => fields !! idx
  | None => None
  end.

Definition textField (name : gostring) : gostring :=
  match field name with
  | Some v => strings.TrimSpace v
  | None => []
  end.

Definition floatField (name : gostring) : float :=
  match field name with
  | Some v => match parseFloat v with
              | Some f => f
              | None => 0%float
              end
  | None => 0%float
  end.

(** [parseRowFields]. *)
Definition parseRowFields : POSRow.t :=
  {| POSRow.Ref := textField $"ref";
     POSRow.Val := textField $"val";
     POSRow.Package := textField $"package";
     POSRow.PosX := floatField $"posx";
     POSRow.PosY := floatField $"posy";
     POSRow.Rot := floatField $"rot";
     POSRow.Side := textField $"side" |}.
End parseRowFields.

Definition isComment (trimmed : gostring) : bool := strings.HasPrefix trimmed $"#".

Definition commentText (trimmed : gostring) : gostring :=
  strings.TrimSpace (strings.TrimPrefix trimmed $"#").

(** The first pass of [parseKiCadFormat] over the lines from index [i] on:
    the first comment line with "ref" in it, and its index. *)
Fixpoint findRefHeader (lines : list gostring) (i : nat) : option (gostring * Z) :=
  match lines with
  | [] => None
  | line :: rest =>
      let trimmed := strings.TrimSpace line in
      if isComment trimmed &&
         strings.Contains (strings.ToLower (commentText trimmed)) $"ref"
      then Some (commentText trimmed, Z.of_nat i)
      else findRefHeader rest (S i)
  end.

(** The second pass: the first comment line at all. *)
Fixpoint findFirstComment (lines : list gostring) (i : nat) : option (gostring * Z) :=
  match lines with
  | [] => None
  | line :: rest =>
      let trimmed := strings.TrimSpace line in
      if isComment trimmed then Some (commentText trimmed, Z.of_nat i)
      else findFirstComment rest (S i)
  end.

(** [headerLine] and [headerLineIdx] after the two passes. *)
Definition findHeaderLine (lines : list gostring) : gostring * Z :=
  let '(headerLine, headerLineIdx) := default ([], -1) (findRefHeader lines 0) in
  match headerLine with
  | [] => default (headerLine, headerLineIdx) (findFirstComment lines 0)
  | _ => (headerLine, headerLineIdx)
  end.

(** The data lines: trimmed, after the header, neither blank nor comment. *)
Definition dataLinesOf (lines : list gostring) (headerLineIdx : Z) : list gostring :=
  range (fun dataLines i line =>
           if i <=? headerLineIdx then dataLines
           else
             let trimmed := strings.TrimSpace line in
             match trimmed with
             | [] => dataLines
             | _ => if isComment trimmed then dataLines
                    else dataLines ++ [trimmed]
             end)
        lines [].

(** The rows of the data lines; [split] cuts a line into fields. *)
Definition rowsOf (split : gostring -> list gostring)
  (colMap : gmap gostring nat) (dataLines : list gostring) : list POSRow.t :=
  fold_left
    (fun rows line =>
       match split line with
       | [] => rows
       | fields =>
           let posRow := parseRowFields fields colMap in
           match POSRow.Ref posRow with
           | [] => rows
           | _ => rows ++ [posRow]
           end
       end)
    dataLines [].

Definition BOM : gostring := ["239"%char; "187"%char; "191"%char].

(** [parseKiCadFormat]. *)
Definition parseKiCadFormat (text : gostring) : result POSData :=
  let text := strings.TrimPrefix text BOM in
  let lines := strings.Split (strings.ReplaceAll text CR []) LF in
  let '(headerLine, headerLineIdx) := findHeaderLine lines in
  match headerLine with
  | [] => Err $"could not find KiCad POS header row (need # Ref Val ... line)"
  | _ =>
      let dataLines := dataLinesOf lines headerLineIdx in
      let headers := splitByWhitespace headerLine in
      match headers with
      | [] => Err $"empty header row"
      | _ =>
          let colMap := buildColumnMap headers in
          match colMap !! $"ref" with
          | None =>
              Err ($"header missing Ref column (found headers: " ++ fmt.v headers
                   ++ $")")
          | Some _ =>
              match colMap !! $"val" with
              | None =>
                  Err ($"header missing Val column (found headers: " ++
                       fmt.v headers ++ $")")
              | Some _ =>
                  Ok {| Headers := headers;
                        Rows := rowsOf splitByWhitespace colMap dataLines |}
              end
          end
      end
  end.

(** The header search of [parseCSVFormat]: the first line, not blank and not
    a comment, whose cells name a Ref and a Val column, with its index. *)
Fixpoint findCSVHeader (lines : list gostring) (i : nat)
  : option (nat * gostring) :=
  match lines with
  | [] => None
  | line :: rest =>
      let trimmed := strings.TrimSpace line in
      match trimmed with
      | [] => findCSVHeader rest (S i)
      | _ =>
          if isComment trimmed then findCSVHeader rest (S i)
          else
            let colMap := buildColumnMap (parseCSVLine trimmed) in
            match colMap !! $"ref", colMap !! $"val" with
            | Some _, Some _ => Some (i, line)
            | _, _ => findCSVHeader rest (S i)
            end
      end
  end.

(** The data lines of the CSV format: the lines after the header, trimmed,
    neither blank nor comment. *)
Definition csvDataLines (lines : list gostring) (headerIdx : nat) : list gostring :=
  List.filter (fun trimmed => negb (bool_decide (trimmed = [])) &&
                              negb (isComment trimmed))
              (map strings.TrimSpace (drop (S headerIdx) lines)).

(** [parseCSVFormat]. *)
Definition parseCSVFormat (text : gostring) : result POSData :=
  let lines := strings.Split (strings.ReplaceAll text CR []) LF in
  match findCSVHeader lines 0 with
  | None => Err $"could not find KiCad POS header row (need Ref, Val columns)"
  | Some (headerIdx, headerText) =>
      let headers := parseCSVLine (strings.TrimSpace headerText) in
      let colMap := buildColumnMap headers in
      Ok {| Headers := headers;
            Rows := rowsOf parseCSVLine colMap (csvDataLines lines headerIdx) |}
  end.

(** [ParsePOS], on the text the reader delivers. *)
Definition ParsePOS (text : gostring) : result POSData :=
  if strings.Contains text $"," &&
     negb (strings.HasPrefix (strings.TrimSpace text) $"#")
  then parseCSVFormat text
  else parseKiCadFormat text.

(** The first loop of [ConvertPOSToXFile]: the station id of every value
    and the values in the order they were first seen. *)
Definition collectVals (rows : list POSRow.t) : gmap gostring Z * list gostring :=
  fold_left
    (fun '(valToStationID, uniqueVals) row =>
       match POSRow.Val row with
       | [] => (valToStationID, uniqueVals)
       | val =>
           match valToStationID !! val with
           | Some _ => (valToStationID, uniqueVals)
           | None =>
               (<[val := Z.of_nat (length uniqueVals) + 1]> valToStationID,
                uniqueVals ++ [val])
           end
       end)
    rows (∅, []).

Definition stationOfVal (idx : Z) (val : gostring) : XStation.t :=
  {| XStation.No := idx;
     XStation.ID := idx + 1;
     XStation.DeltX := 0;
     XStation.DeltY := 0;
     XStation.FeedRates := 4;
     XStation.Note := val;
     XStation.Height := 0.5;
     XStation.Speed := 0;
     XStation.Status := 4;
     XStation.NPixSizeX := 0;
     XStation.NPixSizeY := 0;
     XStation.HeightTake := 0;
     XStation.DelayTake := 10;
     XStation.NPullStripSpeed := 85;
     XStation.NThreshold := 110;
     XStation.NVisualRadio := 200;
     XStation.Select := false;
     XStation.PHead := 1;
     XStation.DNP := false |}.

Definition componentOfRow (valToStationID : gmap gostring Z) (idx : Z)
  (row : POSRow.t) : XComponent.t :=
  let stNo :=
    match valToStationID !! POSRow.Val row with
    | Some id => id
    | None => 1
    end in
  let note :=
    match POSRow.Ref row, POSRow.Package row with
    | _ :: _, _ :: _ => POSRow.Ref row ++ $" - " ++ POSRow.Package row
    | _ :: _, [] => POSRow.Ref row
    | [], _ :: _ => POSRow.Package row
    | [], [] => []
    end in
  {| XComponent.No := idx;
     XComponent.ID := idx + 1;
     XComponent.PHead := 1;
     XComponent.STNo := stNo;
     XComponent.DeltX := POSRow.PosX row;
     XComponent.DeltY := POSRow.PosY row;
     XComponent.Angle := POSRow.Rot row;
     XComponent.Height := 0.5;
     XComponent.Skip := 4;
     XComponent.Speed := 0;
     XComponent.Explain := POSRow.Val row;
     XComponent.Note := note;
     XComponent.Delay := 0;
     XComponent.Select := false;
     XComponent.DNP := false |}.

(** [ConvertPOSToXFile]; [now] is the clock read by [NewXFile]. *)
Definition ConvertPOSToXFile (pos : POSData) (filename : gostring) (now : Time)
  : XFile :=
  let xf := NewXFile now in
  let '(valToStationID, uniqueVals) := collectVals (Rows pos) in
  {| Metadata := Metadata xf;
     GlobalOffset := GlobalOffset xf;
     POSRows := Rows pos;
     Components :=
       range (fun cs idx row => cs ++ [componentOfRow valToStationID idx row])
             (Rows pos) (Components xf);
     Stations :=
       range (fun sts idx val => sts ++ [stationOfVal idx val]) uniqueVals
             (Stations xf);
     PanelArray := PanelArray xf;
     PanelCoord := PanelCoord xf;
     OriginalPOS := filename;
     StackFiles := StackFiles xf |}.

(** * Vocabulary of the statements *)

(** What the first loop keeps true of the map and the list of values. *)
Definition valsInv (rows : list POSRow.t) (st : gmap gostring Z * list gostring)
  : Prop :=
  st.1 !! [] = None /\
  Forall (fun val => val <> [] /\ exists row, row ∈ rows /\ POSRow.Val row = val) st.2.

(** [Valid] is true exactly while no error has been added. *)
Definition consistent (r : DPVValidationResult) : Prop :=
  Valid r = true <-> Errors r = [].

(** A clock reading and a feeder to build concrete models from. *)
Definition clock0 : Time :=
  {| Year := 2026; Month := 1; Day := 2; Hour := 3; Minute := 4; Second := 5 |}.

Definition feeder (no id : Z) (note : gostring) (status : Z) (dnp : bool)
  : XStation.t :=
  {| XStation.No := no; XStation.ID := id; XStation.DeltX := 0;
     XStation.DeltY := 0; XStation.FeedRates := 4; XStation.Note := note;
     XStation.Height := 0.5; XStation.Speed := 0; XStation.Status := status;
     XStation.NPixSizeX := 0; XStation.NPixSizeY := 0; XStation.HeightTake := 0;
     XStation.DelayTake := 10; XStation.NPullStripSpeed := 85;
     XStation.NThreshold := 110; XStation.NVisualRadio := 200;
     XStation.Select := false; XStation.PHead := 1; XStation.DNP := dnp |}.

(** A model whose first feeder is not to be placed. *)
Definition xfSkippedFeeder : XFile :=
  withStations (NewXFile clock0)
    [feeder 0 1 $"1k" 4 true; feeder 1 2 $"10k" 4 false].

(** The lines [parseKiCadFormat] reads. *)
Definition posLines (text : gostring) : list gostring :=
  strings.Split (strings.ReplaceAll (strings.TrimPrefix text BOM) CR []) LF.

(** A comment-prefixed line, and one with "ref" in it, whatever the case. *)
Definition commentLine (line : gostring) : bool :=
  isComment (strings.TrimSpace line).

Definition refCommentLine (line : gostring) : bool :=
  commentLine line &&
  strings.Contains (strings.ToLower (commentText (strings.TrimSpace line))) $"ref".

(** The resolved header: what follows the comment marker on the first
    comment line with "ref" in it, or else on the first comment line. *)
Definition resolvedHeader (text : gostring) : option gostring :=
  match List.find refCommentLine (posLines text) with
  | Some line => Some (commentText (strings.TrimSpace line))
  | None =>
      match List.find commentLine (posLines text) with
      | Some line => Some (commentText (strings.TrimSpace line))
      | None => None
      end
  end.

(** A header has a column when one of its cells is, in lower case, one of
    the synonyms. *)
Definition hasColumn (synonyms : list gostring) (header : gostring) : Prop :=
  exists cell, cell ∈ splitByWhitespace header /\
               strings.ToLower (strings.TrimSpace cell) ∈ synonyms.

Definition refSynonyms : list gostring := [$"ref"; $"designator"].
Definition valSynonyms : list gostring := [$"val"; $"value"].

(** [idx] is the place of the last station of [sts] whose note is [note]. *)
Definition lastWithNote (note : gostring) (sts : list XStation.t) (idx : nat)
  : Prop :=
  (exists e, sts !! idx = Some e /\ XStation.Note e = note) /\
  forall (k : nat) e, (idx < k)%nat -> sts !! k = Some e -> XStation.Note e <> note.

(** No station of [sts] has the note [note]. *)
Definition noNote (note : gostring) (sts : list XStation.t) : Prop :=
  forall e, e ∈ sts -> XStation.Note e <> note.

(** The largest id, or 0 when no id is above 0. *)
Definition largestID (sts : list XStation.t) : Z :=
  fold_right Z.max 0 (map XStation.ID sts).


Definition unnamedIncoming : XStation.t := feeder 0 9 [] 6 false.

(** The stations at the places of [orig] are still there in [sts], with the
    note and the id they had. *)
Definition keepsOriginals (orig sts : list XStation.t) : Prop :=
  forall (i : nat) e, orig !! i = Some e ->
    exists e', sts !! i = Some e' /\ XStation.Note e' = XStation.Note e /\
               XStation.ID e' = XStation.ID e.

(** The entry an incoming station leaves where it replaces [e]; [keepNo] is
    what [MergeStacksFile] does. *)
Definition replacement (keepNo : bool) (incoming e : XStation.t) : XStation.t :=
  if keepNo
  then XStation.withNo (XStation.withID incoming (XStation.ID e)) (XStation.No e)
  else XStation.withID incoming (XStation.ID e).

(** The merge of one incoming station into [sts], the model having had the
    stations [orig] when the merge began: with a note that is not empty and
    is the note of a station of [orig], it replaces the entry at the place of
    the last such station; otherwise it is appended. *)
Definition mergesAs (keepNo : bool) (orig sts : list XStation.t)
  (incoming : XStation.t) (sts' : list XStation.t) (matched : bool) : Prop :=
  (XStation.Note incoming <> [] /\
   exists idx e,
     lastWithNote (XStation.Note incoming) orig idx /\ sts !! idx = Some e /\
     matched = true /\ sts' = <[idx := replacement keepNo incoming e]> sts) \/
  ((XStation.Note incoming = [] \/ noNote (XStation.Note incoming) orig) /\
   matched = false /\
   sts' = sts ++ [XStation.withNo
                    (XStation.withID incoming (wrap64 (largestID sts + 1)))
                    (Z.of_nat (length sts))]).


(** A byte that shows: ASCII, neither blank nor control. *)
Definition visible (c : ascii) : bool :=
  let n := N_of_ascii c in (33 <=? n)%N && (n <? 127)%N.

(** A byte of a number's text: it shows and is neither comma nor quote. *)
Definition numberByte (c : ascii) : bool :=
  visible c && negb (Ascii.eqb c ",") && negb (Ascii.eqb c dquote).

(** A note that [ParseStack] reads back as it is: no line break in it and
    no white space around it. *)
Definition plainNote (note : gostring) : Prop :=
  strings.TrimSpace note = note /\ (CR ∉ note) /\ (LF ∉ note).

(** A value of Go's [int]. *)
Definition inInt (n : Z) : Prop := strconv.minInt <= n <= strconv.maxInt.

(** The float that the two-decimal text of [x] is read as. *)
Definition asText (x : float) : float :=
  default 0%float (strconv.ParseFloat (fmt.f2 x)).

(** What [ParseStack] gives for an exported station [s]. *)
Definition reimported (s p : XStation.t) : Prop :=
  XStation.Note p = XStation.Note s /\
  XStation.ID p = XStation.ID s /\
  XStation.Status p = XStation.Status s /\
  XStation.DeltX p = asText (XStation.DeltX s) /\
  XStation.DeltY p = asText (XStation.DeltY s) /\
  (strconv.ParseFloat (fmt.f2 (XStation.DeltX s)) = Some (XStation.DeltX s) ->
   XStation.DeltX p = XStation.DeltX s) /\
  (strconv.ParseFloat (fmt.f2 (XStation.DeltY s)) = Some (XStation.DeltY s) ->
   XStation.DeltY p = XStation.DeltY s) /\
  XStation.DNP p = false.

(** The header row [GenerateStack] writes, cut into cells. *)
Definition tableHeader : list gostring :=
  [$"Table"; $"No."; $"ID"; $"PHead"; $"DeltX"; $"DeltY"; $"FeedRates"; $"Note";
   $"Height"; $"Speed"; $"Status"; $"nPixSizeX"; $"nPixSizeY"; $"HeightTake";
   $"DelayTake"; $"nPullStripSpeed"; $"nThreshold"; $"nVisualRadio"].

(** The cells of the row of a station. *)
Definition rowFields (i : Z) (s : XStation.t) : list gostring :=
  [$"Station"; fmt.d i; fmt.d (XStation.ID s); fmt.d (XStation.PHead s);
   fmt.f2 (XStation.DeltX s); fmt.f2 (XStation.DeltY s);
   fmt.d (XStation.FeedRates s); XStation.Note s; fmt.f2 (XStation.Height s);
   fmt.d (XStation.Speed s); fmt.d (XStation.Status s);
   fmt.d (XStation.NPixSizeX s); fmt.d (XStation.NPixSizeY s);
   fmt.f2 (XStation.HeightTake s); fmt.d (XStation.DelayTake s);
   fmt.d (XStation.NPullStripSpeed s); fmt.d (XStation.NThreshold s);
   fmt.d (XStation.NVisualRadio s)].

(** The text of the row of a station, up to its line end. *)
Definition rowBody (i : Z) (s : XStation.t) : gostring :=
  $"Station" ++ ","%char :: fmt.d i ++ ","%char :: fmt.d (XStation.ID s) ++ ","%char ::
  fmt.d (XStation.PHead s) ++ ","%char :: fmt.f2 (XStation.DeltX s) ++ ","%char ::
  fmt.f2 (XStation.DeltY s) ++ ","%char :: fmt.d (XStation.FeedRates s) ++
  ","%char :: stackCsvEscape (XStation.Note s) ++ ","%char ::
  fmt.f2 (XStation.Height s) ++ ","%char :: fmt.d (XStation.Speed s) ++ ","%char ::
  fmt.d (XStation.Status s) ++ ","%char :: fmt.d (XStation.NPixSizeX s) ++
  ","%char :: fmt.d (XStation.NPixSizeY s) ++ ","%char ::
  fmt.f2 (XStation.HeightTake s) ++ ","%char :: fmt.d (XStation.DelayTake s) ++
  ","%char :: fmt.d (XStation.NPullStripSpeed s) ++ ","%char ::
  fmt.d (XStation.NThreshold s) ++ ","%char :: fmt.d (XStation.NVisualRadio s).

(** The rows [GenerateStack] writes for the stations from index [i] on, line
    by line. *)
Fixpoint rowBodies (sts : list XStation.t) (i : nat) : list gostring :=
  match sts with
  | [] => []
  | s :: rest =>
      if XStation.DNP s then rowBodies rest (S i)
      else rowBody (Z.of_nat i) s :: rowBodies rest (S i)
  end.

(** What [ParseStack] reads from those rows. *)
Fixpoint rowStations (sts : list XStation.t) (i : nat) : list XStation.t :=
  match sts with
  | [] => []
  | s :: rest =>
      if XStation.DNP s then rowStations rest (S i)
      else parseStationRow tableHeader (rowFields (Z.of_nat i) s) ::
           rowStations rest (S i)
  end.

(** The lines before the rows. *)
Definition preambleLines : list gostring :=
  [$"separated"; $"FILE,MaterialStack.stack"; $"PANELYPE,1"; [];
   $"Table,No.,ID,PHead,DeltX,DeltY,FeedRates,Note,Height,Speed,Status,nPixSizeX,nPixSizeY,HeightTake,DelayTake,nPullStripSpeed,nThreshold,nVisualRadio"].

(** Models that do not come back from their export as they are. *)
Definition feederAt (x : float) (note : gostring) (dnp : bool) : XStation.t :=
  {| XStation.No := 0; XStation.ID := 1; XStation.DeltX := x;
     XStation.DeltY := 0; XStation.FeedRates := 4; XStation.Note := note;
     XStation.Height := 0.5; XStation.Speed := 0; XStation.Status := 4;
     XStation.NPixSizeX := 0; XStation.NPixSizeY := 0; XStation.HeightTake := 0;
     XStation.DelayTake := 10; XStation.NPullStripSpeed := 85;
     XStation.NThreshold := 110; XStation.NVisualRadio := 200;
     XStation.Select := false; XStation.PHead := 1; XStation.DNP := dnp |}.

(** A byte that is no line break, and one that is neither comma nor quote. *)
Definition lineByte (c : ascii) : bool :=
  negb (Ascii.eqb c CR) && negb (Ascii.eqb c LF).

Definition bareByte (c : ascii) : bool :=
  negb (Ascii.eqb c ",") && negb (Ascii.eqb c dquote).

(** A job to generate: one feeder with the vision and vacuum flags, two
    placements that draw from it, and an offset. *)
Definition placement (no id stno : Z) (x y : float) (skip : Z)
  (explain note : gostring) : XComponent.t :=
  {| XComponent.No := no; XComponent.ID := id; XComponent.PHead := 1;
     XComponent.STNo := stno; XComponent.DeltX := x; XComponent.DeltY := y;
     XComponent.Angle := 0; XComponent.Height := 0.5; XComponent.Skip := skip;
     XComponent.Speed := 0; XComponent.Explain := explain;
     XComponent.Note := note; XComponent.Delay := 0;
     XComponent.Select := false; XComponent.DNP := false |}.

Definition placement0 : XComponent.t := placement 0 1 1 1 2 1 $"10k" $"R1".
Definition placement1 : XComponent.t := placement 1 2 1 3 4 0 $"10k" $"R2".

Definition xfJob : XFile :=
  {| Metadata := {| Created := clock0; Modified := clock0 |};
     GlobalOffset := GlobalOffset.mk 10 20;
     POSRows := [];
     Components := [placement0; placement1];
     Stations := [feeder 0 1 $"10k" 6 false];
     PanelArray := [PanelArrayRow.mk 0 1 0 0 1 1];
     PanelCoord := [PanelCoordRow.mk 0 1 0 0];
     OriginalPOS := $"board.pos";
     StackFiles := [] |}.

(** A model with a feeder in the reserved range. *)
Definition xfReserved : XFile :=
  withStations (NewXFile clock0) [feeder 0 150 $"ic" 4 false].

(** A source file in the whitespace-delimited format, and rows without a
    value label. *)
Definition posText : gostring :=
  $"# Ref Val PosX PosY Rot" ++ [LF] ++ $"R1 10k 1.00 2.00 0" ++ [LF] ++
  $"R2 10k 3.00 4.00 90" ++ [LF].

Definition unlabelled : POSData :=
  {| Headers := [$"Ref"; $"Val"];
     Rows := [POSRow.mk $"R1" [] [] 1 2 0 []; POSRow.mk $"R2" [] [] 3 4 90 []] |}.

(** What the validation asks of an active station, of an active component
    and of the model, for the result to be valid. *)
Definition stationOK (s : XStation.t) : Prop :=
  XStation.ID s < 100 /\
  0 <= XStation.Status s <= 15 /\
  (XStation.Speed s = 0 \/ 50 <= XStation.Speed s) /\
  (XStation.PHead s = 1 \/ XStation.PHead s = 2) /\
  0 <= XStation.NThreshold s <= 256 /\
  PrimFloat.ltb 5 (XStation.Height s) = false /\
  PrimFloat.ltb (XStation.Height s) 0 = false.

Definition componentOK (sts : list XStation.t) (c : XComponent.t) : Prop :=
  (XComponent.PHead c = 1 \/ XComponent.PHead c = 2) /\
  XComponent.STNo c ∈ map XStation.ID sts /\
  (XComponent.Speed c = 0 \/ 50 <= XComponent.Speed c).

Definition panelOK (xf : XFile) : Prop :=
  match PanelArray xf with
  | [] => False
  | pa :: _ => 1 <= PanelArrayRow.NumX pa /\ 1 <= PanelArrayRow.NumY pa
  end.

Definition exportable (xf : XFile) (filename : gostring) : Prop :=
  NoDup (map XStation.ID (activeStationsOf xf)) /\
  Forall stationOK (activeStationsOf xf) /\
  Forall (componentOK (activeStationsOf xf)) (activeComponentsOf xf) /\
  panelOK xf /\
  filename <> [].
(** The feeders that get a row in the job file: to be placed, and referred
    to by a placement that is to be placed. *)
Definition referenced (xf : XFile) (s : XStation.t) : bool :=
  negb (XStation.DNP s) &&
  bool_decide (XStation.ID s ∈ map XComponent.STNo (activeComponentsOf xf)).
(** What a merge leaves of a placement: all but the feeder it refers to. *)
Definition sameButSTNo (c c' : XComponent.t) : Prop :=
  c' = XComponent.withSTNo c (XComponent.STNo c').

(** What a merge leaves of the model: all but the feeders, the feeder of
    the placements and the list of stack files. *)
Definition sameButFeeders (xf xf' : XFile) : Prop :=
  Metadata xf' = Metadata xf /\ GlobalOffset xf' = GlobalOffset xf /\
  POSRows xf' = POSRows xf /\ PanelArray xf' = PanelArray xf /\
  PanelCoord xf' = PanelCoord xf /\ OriginalPOS xf' = OriginalPOS xf /\
  Forall2 sameButSTNo (Components xf) (Components xf').

(** A model whose largest feeder id is 99. *)
Definition xfFull : XFile :=
  withStations (NewXFile clock0) [feeder 0 99 $"ic" 4 false].
(** The lines [parseCSVFormat] reads, and a line it takes for the header:
    neither blank nor a comment, with a cell that names the reference
    designator and one that names the value. *)
Definition csvLines (text : gostring) : list gostring :=
  strings.Split (strings.ReplaceAll text CR []) LF.

Definition namesColumn (synonyms cells : list gostring) : Prop :=
  exists cell, cell ∈ cells /\
               strings.ToLower (strings.TrimSpace cell) ∈ synonyms.

Definition csvHeaderLine (line : gostring) : Prop :=
  strings.TrimSpace line <> [] /\
  isComment (strings.TrimSpace line) = false /\
  namesColumn refSynonyms (parseCSVLine (strings.TrimSpace line)) /\
  namesColumn valSynonyms (parseCSVLine (strings.TrimSpace line)).

(** A source file in the comma-separated format. *)
Definition csvText : gostring :=
  $"Designator,Value,Mid X,Mid Y,Rotation" ++ [LF] ++
  $"R1,10k,1.00mm,2.00mm,0" ++ [LF] ++ $",1k,3.00,4.00,90" ++ [LF].
(** Puts the text [f] in front of the field being read. *)
Definition prepend (f : gostring) (fields : list gostring) : list gostring :=
  match fields with
  | x :: xs => (f ++ x) :: xs
  | [] => [f]
  end.
(** [idx] is the place of the last cell of [header] that, trimmed and in
    lower case, is [name]. *)
Definition lastColumn (name : gostring) (header : list gostring) (idx : nat)
  : Prop :=
  (exists h, header !! idx = Some h /\
             strings.ToLower (strings.TrimSpace h) = name) /\
  forall (k : nat) h, (idx < k)%nat -> header !! k = Some h ->
                      strings.ToLower (strings.TrimSpace h) <> name.

(** No cell of [header] is [name]. *)
Definition noColumn (name : gostring) (header : list gostring) : Prop :=
  forall h, h ∈ header -> strings.ToLower (strings.TrimSpace h) <> name.

(** Fields with a comma, a quote and blanks in them. *)
Definition awkwardFields : list gostring :=
  [$"R1, R2"; $"say " ++ [dquote] ++ $"hi" ++ [dquote]; $" 10k "; []].
(** The float that the two-decimal text of [x] is read as, [def] if it is
    not read. *)
Definition reread (def x : float) : float :=
  default def (strconv.ParseFloat (fmt.f2 x)).

(** The feeder [ParseStack] reads from the row numbered [i] of the feeder
    [s]: the whole numbers as they are, but for a negative pixel size, which
    comes back as 0; the other numbers through their two-decimal text; the
    selection and do-not-place marks cleared. *)
Definition reimport (i : Z) (s : XStation.t) : XStation.t :=
  {| XStation.No := i;
     XStation.ID := XStation.ID s;
     XStation.DeltX := reread 0 (XStation.DeltX s);
     XStation.DeltY := reread 0 (XStation.DeltY s);
     XStation.FeedRates := XStation.FeedRates s;
     XStation.Note := XStation.Note s;
     XStation.Height := reread 0.5 (XStation.Height s);
     XStation.Speed := XStation.Speed s;
     XStation.Status := XStation.Status s;
     XStation.NPixSizeX :=
       (if 0 <=? XStation.NPixSizeX s then XStation.NPixSizeX s else 0);
     XStation.NPixSizeY :=
       (if 0 <=? XStation.NPixSizeY s then XStation.NPixSizeY s else 0);
     XStation.HeightTake := reread 0 (XStation.HeightTake s);
     XStation.DelayTake := XStation.DelayTake s;
     XStation.NPullStripSpeed := XStation.NPullStripSpeed s;
     XStation.NThreshold := XStation.NThreshold s;
     XStation.NVisualRadio := XStation.NVisualRadio s;
     XStation.Select := false;
     XStation.PHead := XStation.PHead s;
     XStation.DNP := false |}.

(** The whole numbers of a feeder are values of Go's [int]. *)
Definition intFields (s : XStation.t) : Prop :=
  inInt (XStation.ID s) /\ inInt (XStation.PHead s) /\
  inInt (XStation.FeedRates s) /\ inInt (XStation.Speed s) /\
  inInt (XStation.Status s) /\ inInt (XStation.NPixSizeX s) /\
  inInt (XStation.NPixSizeY s) /\ inInt (XStation.DelayTake s) /\
  inInt (XStation.NPullStripSpeed s) /\ inInt (XStation.NThreshold s) /\
  inInt (XStation.NVisualRadio s).

(** The lines [GenerateStacksFile] writes before the rows. *)
Definition stacksPreambleLines : list gostring :=
  [$"separated"; $"FILE,material.stacks"; $"PANELYPE,1"; [];
   $"Table,No.,ID,PHead,DeltX,DeltY,FeedRates,Note,Height,Speed,Status,nPixSizeX,nPixSizeY,HeightTake,DelayTake,nPullStripSpeed,nThreshold,nVisualRadio"].
(** The feeder number [k] of a model that had none before the merge. *)
Definition renumbered (k : nat) (s : XStation.t) : XStation.t :=
  XStation.withNo (XStation.withID s (Z.of_nat k + 1)) (Z.of_nat k).
(** The warnings of a result that have the type [type]. *)
Definition warningsOf (type : gostring) (r : DPVValidationResult)
  : list DPVValidationError.t :=
  List.filter (fun w => bool_decide (DPVValidationError.Type_ w = type))
              (Warnings r).

(** Both offsets of a feeder are zero. *)
Definition atZero (s : XStation.t) : bool :=
  PrimFloat.eqb (XStation.DeltX s) 0 && PrimFloat.eqb (XStation.DeltY s) 0.
(** The model without the rows that are not to be placed. *)
Definition onlyActive (xf : XFile) : XFile :=
  withComponents (withStations xf (activeStationsOf xf)) (activeComponentsOf xf).
(** A token: bytes that show, at least one. *)
Definition token (t : gostring) : Prop :=
  t <> [] /\ Forall (fun c => visible c = true) t.

(** A run of blanks and tabs, at least one. *)
Definition gap (sep : gostring) : Prop :=
  sep <> [] /\ Forall (fun c => c = " "%char \/ c = "009"%char) sep.

(** The cells of a data line of a placement file, and the row they are read
    as: a number that is not read counts as 0. *)
Record posLine := {
  lineRef : gostring; lineVal : gostring; linePackage : gostring;
  linePosX : gostring; linePosY : gostring; lineRot : gostring;
  lineSide : gostring
}.

Definition cellsOf (l : posLine) : list gostring :=
  [lineRef l; lineVal l; linePackage l; linePosX l; linePosY l; lineRot l;
   lineSide l].

Definition numberOf (t : gostring) : float := default 0%float (parseFloat t).

Definition rowOf (l : posLine) : POSRow.t :=
  {| POSRow.Ref := lineRef l; POSRow.Val := lineVal l;
     POSRow.Package := linePackage l; POSRow.PosX := numberOf (linePosX l);
     POSRow.PosY := numberOf (linePosY l); POSRow.Rot := numberOf (lineRot l);
     POSRow.Side := lineSide l |}.

(** The cells are tokens, and the first does not make the line a comment. *)
Definition dataLine (l : posLine) : Prop :=
  Forall token (cellsOf l) /\ strings.HasPrefix (lineRef l) $"#" = false.

Definition kicadColumns : list gostring :=
  [$"Ref"; $"Val"; $"Package"; $"PosX"; $"PosY"; $"Rot"; $"Side"].

(** The header line: the comment marker, a blank, the column names. *)
Definition kicadHeader (sep : gostring) : gostring :=
  $"# " ++ strings.Join kicadColumns sep.

(** A placement file: the header line and the data lines, the cells [sep]
    apart in all of them, every line ended by [eol]. *)
Definition kicadText (sep eol : gostring) (ls : list posLine) : gostring :=
  concat (map (fun line => line ++ eol)
              (kicadHeader sep :: map (fun l => strings.Join (cellsOf l) sep) ls)).

(** Two data lines, the second with a unit and a comma. *)
Definition twoLines : list posLine :=
  [Build_posLine $"R1" $"10k" $"R_0603" $"1.50" $"2.25" $"90" $"top";
   Build_posLine $"C1" $"0,1uF" $"C_0603" $"3.00mm" $"4.00mm" $"0" $"top"].

(** [j] is the place of the last header cell that names the column [key]. *)
Definition lastNamed (key : gostring) (headers : list gostring) (j : nat)
  : Prop :=
  (exists cell, headers !! j = Some cell /\ columnKey cell = Some key) /\
  forall (k : nat) cell, (j < k)%nat -> headers !! k = Some cell ->
                         columnKey cell <> Some key.

(** * Properties *)

Opaque stackRow stationRow componentText stackPreamble.

(** ** The range loop *)

Lemma rangeFrom_snoc {A B : Type} (f : Z -> A -> B) (l : list A) (i : nat)
  (acc : list B) :
  rangeFrom (fun acc i x => acc ++ [f i x]) l i acc =
  acc ++ imap (fun k x => f (Z.of_nat (i + k)) x) l.
Proof.
  revert i acc. induction l as [|x l IH]; intros i acc; simpl.
  - by rewrite app_nil_r.
  - rewrite IH, <- app_assoc. simpl. rewrite Nat.add_0_r.
    do 2 f_equal. apply imap_ext. intros k y _. simpl.
    by rewrite Nat.add_succ_r.
Qed.

Lemma rangeFrom_concat {A : Type} (f : Z -> A -> gostring) (l : list A)
  (i : nat) (sb : gostring) :
  rangeFrom (fun sb i x => sb ++ f i x) l i sb =
  sb ++ concat (imap (fun k x => f (Z.of_nat (i + k)) x) l).
Proof.
  revert i sb. induction l as [|x l IH]; intros i sb; simpl.
  - by rewrite app_nil_r.
  - rewrite IH, <- app_assoc. rewrite Nat.add_0_r.
    do 3 f_equal. apply imap_ext. intros k y _. simpl.
    by rewrite Nat.add_succ_r.
Qed.

Lemma rows_imap {A : Type} (row : Z -> A -> gostring) (l : list A) :
  rows row l = concat (imap (fun k x => row (Z.of_nat k) x) l).
Proof. unfold rows, range. by rewrite rangeFrom_concat. Qed.

(** ** ConvertPOSToXFile *)

Lemma collectVals_step_inv (rows : list POSRow.t) (l : list POSRow.t)
  (st : gmap gostring Z * list gostring) :
  (forall row, row ∈ l -> row ∈ rows) ->
  valsInv rows st ->
  valsInv rows
    (fold_left
       (fun '(valToStationID, uniqueVals) row =>
          match POSRow.Val row with
          | [] => (valToStationID, uniqueVals)
          | val =>
              match valToStationID !! val with
              | Some _ => (valToStationID, uniqueVals)
              | None =>
                  (<[val := Z.of_nat (length uniqueVals) + 1]> valToStationID,
                   uniqueVals ++ [val])
              end
          end) l st).
Proof.
  revert st. induction l as [|row l IH]; intros [m u] Hin Hinv; simpl; [done|].
  apply IH; [intros r Hr; apply Hin; by right|].
  destruct Hinv as [Hnil Hall]; simpl in *.
  destruct (POSRow.Val row) as [|a v] eqn:Hval; [by split|].
  destruct (m !! (a :: v)); [by split|].
  split; simpl.
  - by rewrite lookup_insert_ne.
  - apply Forall_app; split; [done|].
    apply Forall_singleton. split; [done|].
    exists row. split; [apply Hin; by left | done].
Qed.

Lemma collectVals_inv (rows : list POSRow.t) : valsInv rows (collectVals rows).
Proof.
  apply collectVals_step_inv; [done|].
  split; simpl; [apply lookup_empty | constructor].
Qed.

(** C10: a source row with an empty value label gets no synthesized feeder
    (every feeder carries the non-empty value label of some row), yet its
    placement has [STNo] 1; when every row has an empty value label there is
    no feeder at all and every placement has [STNo] 1. *)
Theorem ConvertPOSToXFile_empty_value (pos : POSData) (filename : gostring)
  (now : Time) :
  let xf := ConvertPOSToXFile pos filename now in
  (forall s, s ∈ Stations xf ->
     XStation.Note s <> [] /\
     exists row, row ∈ Rows pos /\ POSRow.Val row = XStation.Note s) /\
  (forall (i : nat) row, Rows pos !! i = Some row -> POSRow.Val row = [] ->
     exists c, Components xf !! i = Some c /\ XComponent.STNo c = 1 /\
               XComponent.Explain c = []) /\
  ((forall row, row ∈ Rows pos -> POSRow.Val row = []) ->
     Stations xf = [] /\ length (Components xf) = length (Rows pos) /\
     forall c, c ∈ Components xf -> XComponent.STNo c = 1).
Proof.
  unfold ConvertPOSToXFile.
  pose proof (collectVals_inv (Rows pos)) as Hinv.
  destruct (collectVals (Rows pos)) as [m u]. destruct Hinv as [Hnil Hall].
  simpl in Hnil, Hall. simpl. unfold range. rewrite !rangeFrom_snoc. simpl.
  assert (Hstations : forall s,
    s ∈ imap (fun k val => stationOfVal (Z.of_nat k) val) u ->
    XStation.Note s <> [] /\
    exists row, row ∈ Rows pos /\ POSRow.Val row = XStation.Note s).
  { intros s Hs. apply elem_of_lookup_imap in Hs as (k & val & -> & Hk).
    simpl. rewrite Forall_forall in Hall.
    apply Hall. eapply list_elem_of_lookup_2, Hk. }
  split; [exact Hstations|]. split.
  - intros i row Hi Hval.
    eexists. rewrite list_lookup_imap, Hi. simpl. split; [reflexivity|].
    simpl. by rewrite Hval, Hnil.
  - intros Hempty.
    assert (u = []) as ->.
    { destruct u as [|val u]; [done|]. exfalso.
      apply Forall_cons in Hall as [[Hne (row & Hrow & Heq)] _].
      apply Hne. rewrite <- Heq. by apply Hempty. }
    split; [done|]. split; [by rewrite length_imap|].
    intros c Hc. apply elem_of_lookup_imap in Hc as (k & row & -> & Hk).
    simpl. rewrite (Hempty row); [by rewrite Hnil|].
    eapply list_elem_of_lookup_2, Hk.
Qed.

(** ** GenerateStack and GenerateStacksFile *)

Lemma stackRows_index (sts : list XStation.t) (i : nat) :
  stackRows sts i =
  concat (imap (fun k s => if XStation.DNP s then []
                           else stackRow (Z.of_nat (i + k)) s) sts).
Proof.
  revert i. induction sts as [|s sts IH]; intros i; simpl; [done|].
  rewrite IH, Nat.add_0_r. do 2 f_equal. apply imap_ext. intros k y _. simpl.
  by rewrite Nat.add_succ_r.
Qed.

Lemma stacksFileRows_contiguous (sts : list XStation.t) (idx : nat) :
  stacksFileRows sts idx =
  concat (imap (fun k s => stackRow (Z.of_nat (idx + k)) s)
               (List.filter (fun s => negb (XStation.DNP s)) sts)).
Proof.
  revert idx. induction sts as [|s sts IH]; intros idx; simpl; [done|].
  destruct (XStation.DNP s); simpl; [apply IH|].
  rewrite IH, Nat.add_0_r. do 2 f_equal. apply imap_ext. intros k y _. simpl.
  by rewrite Nat.add_succ_r.
Qed.

(** C7: on a model whose first feeder is not to be placed, [GenerateStack]
    numbers the one row it writes 1, the feeder's index in the stored list,
    where [GenerateStacksFile] numbers it 0. *)
Theorem GenerateStack_numbers_by_stored_index :
  GenerateStack xfSkippedFeeder =
    stackPreamble $"MaterialStack.stack" ++
    $"Station,1,2,1,0.00,0.00,4,10k,0.50,0,4,0,0,0.00,10,85,110,200" ++ CRLF /\
  GenerateStacksFile xfSkippedFeeder =
    stackPreamble $"material.stacks" ++
    $"Station,0,2,1,0.00,0.00,4,10k,0.50,0,4,0,0,0.00,10,85,110,200" ++ CRLF.
Proof. split; vm_compute; reflexivity. Qed.

(** ** Validation: [Valid] and [Errors] *)

Lemma consistent_addError r e : consistent (addError r e).
Proof.
  unfold consistent; simpl. split; [done|].
  intros H. by apply app_eq_nil in H as [_ ?].
Qed.

Lemma consistent_addWarning r w : consistent r -> consistent (addWarning r w).
Proof. done. Qed.

Lemma consistent_rangeFrom {A : Type} (body : DPVValidationResult -> Z -> A -> DPVValidationResult)
  (l : list A) (i : nat) (r : DPVValidationResult) :
  (forall r i x, consistent r -> consistent (body r i x)) ->
  consistent r -> consistent (rangeFrom body l i r).
Proof.
  intros Hbody. revert i r. induction l as [|x l IH]; intros i r Hr; simpl; [done|].
  apply IH, Hbody, Hr.
Qed.

Lemma consistent_errorIf {A : Type} cond mk (l : list A) r :
  consistent r -> consistent (errorIf cond mk l r).
Proof.
  apply consistent_rangeFrom. intros r' i x Hr'.
  destruct (cond i x); [apply consistent_addError | done].
Qed.

Lemma consistent_warnIf {A : Type} cond mk (l : list A) r :
  consistent r -> consistent (warnIf cond mk l r).
Proof.
  apply consistent_rangeFrom. intros r' i x Hr'.
  destruct (cond i x); [by apply consistent_addWarning | done].
Qed.

Lemma consistent_checkStationID (l : list XStation.t) (i : nat) st :
  consistent st.1 -> consistent (rangeFrom checkStationID l i st).1.
Proof.
  revert i st. induction l as [|s l IH]; intros i [r ids] Hr; simpl; [done|].
  apply IH. simpl in *.
  repeat match goal with
         | |- context [if ?b then _ else _] => destruct b
         end;
    auto using consistent_addError, consistent_addWarning.
Qed.

Ltac consistent_step :=
  first
    [ apply consistent_errorIf
    | apply consistent_warnIf
    | apply consistent_addError
    | apply consistent_addWarning
    | apply consistent_rangeFrom; [intros ? ? ? ? |]
    | match goal with
      | |- consistent (if ?b then _ else _) => destruct b
      | |- consistent (match ?x with _ => _ end) => destruct x
      end ].

Lemma consistent_stationChecks (l : list XStation.t) r :
  consistent r -> consistent (stationChecks l r).1.
Proof.
  intros Hr. unfold stationChecks, range.
  pose proof (consistent_checkStationID l 0 (r, ∅) Hr) as H.
  destruct (rangeFrom checkStationID l 0 (r, ∅)) as [r1 ids]. simpl in *.
  repeat consistent_step; assumption.
Qed.

Lemma consistent_componentChecks xf cs sts ids r :
  consistent r -> consistent (componentChecks xf cs sts ids r).
Proof.
  intros Hr. unfold componentChecks, range.
  destruct (maxPosition xf cs) as [maxX maxY].
  repeat consistent_step; assumption.
Qed.

Lemma consistent_panelAndFileChecks xf filename r :
  consistent r -> consistent (panelAndFileChecks xf filename r).
Proof.
  intros Hr. unfold panelAndFileChecks. repeat consistent_step; assumption.
Qed.

Lemma consistent_validation xf filename : consistent (validation xf filename).
Proof.
  unfold validation.
  pose proof (consistent_stationChecks (activeStationsOf xf)
                {| Valid := true; Errors := []; Warnings := [] |}) as H.
  destruct (stationChecks _ _) as [r ids]. simpl in H.
  apply consistent_panelAndFileChecks, consistent_componentChecks, H.
  by split.
Qed.

(** ** GenerateDPV *)

(** C2: [GenerateDPV] first runs the validation of the model and the file
    name.  When the result is not valid it returns the empty text and one
    error, whose message joins the messages of the errors found, of which
    there is at least one; when it is valid it returns no error and the text
    of all nine sections.  Nothing in between is ever returned. *)
Theorem GenerateDPV_all_or_nothing (filename : gostring) (now : Time) (xf : XFile) :
  let v := validation xf filename in
  ValidateDPV filename xf = Some (v, xf) /\
  GenerateDPV filename now xf =
    Some (if Valid v
          then (headerSection xf filename now ++ stationSection xf ++
                panelArraySection xf ++ panelCoordSection xf ++
                componentSection xf ++ icTraySection ++ pcbCalibSection ++
                calibPointSection ++ calibFatorSection, None)
          else ([], Some ($"DPV validation failed:" ++ [LF] ++
                          strings.Join (map DPVValidationError.Message (Errors v))
                                       [LF])),
          xf) /\
  (Valid v = false -> Errors v <> []).
Proof.
  intros v. split; [done|]. split.
  - unfold GenerateDPV, ValidateDPV. fold v. by destruct (Valid v).
  - intros Hv He. apply (consistent_validation xf filename) in He.
    fold v in He. congruence.
Qed.

(** ** Validation: what a valid result tells *)

Lemma Valid_ifWarning (b : bool) r w :
  Valid (if b then addWarning r w else r) = Valid r.
Proof. by destruct b. Qed.

Lemma Valid_rangeFrom_warnings {A : Type}
  (body : DPVValidationResult -> Z -> A -> DPVValidationResult) (l : list A)
  (i : nat) (r : DPVValidationResult) :
  (forall r i x, Valid (body r i x) = Valid r) ->
  Valid (rangeFrom body l i r) = Valid r.
Proof.
  intros Hbody. revert i r. induction l as [|x l IH]; intros i r; simpl; [done|].
  by rewrite IH, Hbody.
Qed.

Lemma Valid_warnIf {A : Type} cond mk (l : list A) r :
  Valid (warnIf cond mk l r) = Valid r.
Proof.
  apply Valid_rangeFrom_warnings. intros r' i x. by destruct (cond i x).
Qed.

Lemma Valid_rangeFrom_mono {A : Type}
  (body : DPVValidationResult -> Z -> A -> DPVValidationResult) (l : list A)
  (i : nat) (r : DPVValidationResult) :
  (forall r i x, Valid (body r i x) = true -> Valid r = true) ->
  Valid (rangeFrom body l i r) = true -> Valid r = true.
Proof.
  intros Hbody. revert i r. induction l as [|x l IH]; intros i r; simpl; [done|].
  intros H. eapply Hbody, IH, H.
Qed.

Lemma Valid_errorIf_from {A : Type} (cond : Z -> A -> bool) mk (l : list A)
  (i : nat) r :
  Valid (rangeFrom (fun r i x => if cond i x then addError r (mk i x) else r)
                   l i r) = true ->
  Valid r = true /\
  forall (k : nat) x, l !! k = Some x -> cond (Z.of_nat (i + k)) x = false.
Proof.
  revert i r. induction l as [|x l IH]; intros i r; simpl.
  - intros H. split; [done|]. intros k y Hk. by rewrite lookup_nil in Hk.
  - intros H. apply IH in H as [H Hl].
    destruct (cond (Z.of_nat i) x) eqn:Hc; [done|].
    split; [done|]. intros [|k] y Hk; simpl in Hk.
    + injection Hk as <-. by rewrite Nat.add_0_r.
    + rewrite Nat.add_succ_r. by apply Hl.
Qed.

Lemma Valid_errorIf {A : Type} (cond : A -> bool) mk (l : list A) r :
  Valid (errorIf (fun _ x => cond x) mk l r) = true ->
  Valid r = true /\ forall x, x ∈ l -> cond x = false.
Proof.
  unfold errorIf, range. intros H. apply Valid_errorIf_from in H as [H Hl].
  split; [done|]. intros x Hx.
  apply list_elem_of_lookup in Hx as [k Hk]. apply (Hl k x Hk).
Qed.

Lemma hasID_insert (ids : gmap Z bool) (id k : Z) :
  hasID (<[id := true]> ids) k = bool_decide (k = id) || hasID ids k.
Proof.
  unfold hasID. destruct (decide (k = id)) as [->|Hne].
  - by rewrite lookup_insert_eq, bool_decide_eq_true_2.
  - by rewrite lookup_insert_ne, bool_decide_eq_false_2.
Qed.

Lemma checkStationID_ids (l : list XStation.t) (i : nat) st (k : Z) :
  hasID (rangeFrom checkStationID l i st).2 k =
  hasID st.2 k || bool_decide (k ∈ map XStation.ID l).
Proof.
  revert i st. induction l as [|s l IH]; intros i [r ids]; simpl.
  - by rewrite orb_false_r.
  - rewrite IH. simpl. rewrite hasID_insert.
    destruct (decide (k = XStation.ID s)) as [->|Hne].
    + rewrite bool_decide_eq_true_2 by done. simpl.
      rewrite (bool_decide_eq_true_2 (_ ∈ _ :: _)) by constructor.
      by rewrite orb_true_r.
    + rewrite bool_decide_eq_false_2 by done. simpl. f_equal.
      apply bool_decide_ext. rewrite elem_of_cons.
      split; [by right | by intros [?|?]].
Qed.

Lemma checkStationID_valid (l : list XStation.t) (i : nat) st :
  Valid (rangeFrom checkStationID l i st).1 = true ->
  Valid st.1 = true /\ NoDup (map XStation.ID l) /\
  forall s, s ∈ l -> hasID st.2 (XStation.ID s) = false /\ XStation.ID s < 100.
Proof.
  revert i st. induction l as [|s l IH]; intros i [r ids]; simpl.
  - intros H. split; [done|]. split; [constructor|]. intros s Hs. inversion Hs.
  - intros H. apply IH in H as (H & Hnd & Hl). simpl in H, Hl.
    rewrite Valid_ifWarning in H.
    destruct (100 <=? XStation.ID s) eqn:Hres; [done|].
    destruct (hasID ids (XStation.ID s)) eqn:Hdup; [done|].
    split; [done|]. split.
    + constructor; [|done]. intros Hin.
      apply list_elem_of_fmap in Hin as (s' & Heq & Hs').
      destruct (Hl s' Hs') as [Hs'id _]. rewrite hasID_insert in Hs'id.
      rewrite Heq in Hs'id. by rewrite bool_decide_eq_true_2 in Hs'id.
    + intros s' Hs'. apply elem_of_cons in Hs' as [->|Hs'].
      * split; [done|]. lia.
      * destruct (Hl s' Hs') as [Hid Hlt]. rewrite hasID_insert in Hid.
        apply orb_false_iff in Hid as [_ Hid]. done.
Qed.

(** A valid result: the active stations have distinct ids below 100, and
    [stationIDs] holds exactly their ids. *)
Lemma stationChecks_valid (l : list XStation.t) r :
  Valid (stationChecks l r).1 = true ->
  Valid r = true /\ NoDup (map XStation.ID l) /\
  (forall s, s ∈ l -> XStation.ID s < 100) /\
  forall k, hasID (stationChecks l r).2 k = bool_decide (k ∈ map XStation.ID l).
Proof.
  unfold stationChecks, range.
  pose proof (checkStationID_valid l 0 (r, ∅)) as Hv.
  pose proof (checkStationID_ids l 0 (r, ∅)) as Hids.
  destruct (rangeFrom checkStationID l 0 (r, ∅)) as [r1 ids]. simpl in *.
  intros H. rewrite Valid_ifWarning in H.
  apply Valid_rangeFrom_mono in H;
    [|intros r' j x Hx; repeat match type of Hx with
                               | context [if ?b then _ else _] => destruct b
                               end; done].
  do 3 apply Valid_errorIf, proj1 in H.
  rewrite Valid_warnIf in H. apply Valid_errorIf, proj1 in H.
  rewrite Valid_warnIf in H.
  destruct (Hv H) as (Hr & Hnd & Hl).
  split; [done|]. split; [done|]. split; [intros s Hs; by apply Hl|].
  intros k. by rewrite Hids.
Qed.

(** A valid result: every active component refers to a known id. *)
Lemma componentChecks_valid xf (cs : list XComponent.t) sts ids r :
  Valid (componentChecks xf cs sts ids r) = true ->
  Valid r = true /\
  forall c, c ∈ cs -> hasID ids (XComponent.STNo c) = true.
Proof.
  unfold componentChecks, range. destruct (maxPosition xf cs) as [maxX maxY].
  intros H. rewrite !Valid_ifWarning in H.
  rewrite Valid_rangeFrom_warnings in H
    by (intros r' j x; by destruct (heightMismatch sts x)).
  rewrite Valid_ifWarning in H.
  apply Valid_errorIf, proj1 in H. rewrite !Valid_warnIf in H.
  rewrite Valid_rangeFrom_warnings in H
    by (intros r' j x; destruct (statusMap sts !! XComponent.STNo x); [|done];
        apply Valid_ifWarning).
  apply Valid_errorIf in H as [H Horphan].
  apply Valid_errorIf, proj1 in H. rewrite Valid_warnIf in H.
  split; [done|]. intros c Hc. specialize (Horphan c Hc).
  by apply negb_false_iff in Horphan.
Qed.

Lemma panelAndFileChecks_valid xf filename r :
  Valid (panelAndFileChecks xf filename r) = true -> Valid r = true.
Proof.
  unfold panelAndFileChecks. intros H.
  destruct filename; [done|]. rewrite Valid_ifWarning in H.
  destruct (PanelArray xf) as [|pa ?]; [done|].
  by destruct (_ || _).
Qed.

(** When the validation passes, the active stations have distinct ids and
    every active component refers to one of them. *)
Lemma validation_valid xf filename :
  Valid (validation xf filename) = true ->
  NoDup (map XStation.ID (activeStationsOf xf)) /\
  forall c, c ∈ activeComponentsOf xf ->
    XComponent.STNo c ∈ map XStation.ID (activeStationsOf xf).
Proof.
  unfold validation.
  pose proof (stationChecks_valid (activeStationsOf xf)
                {| Valid := true; Errors := []; Warnings := [] |}) as Hst.
  destruct (stationChecks _ _) as [r ids]. simpl in Hst.
  intros H. apply panelAndFileChecks_valid, componentChecks_valid in H as [H Hc].
  destruct (Hst H) as (_ & Hnd & _ & Hids).
  split; [done|]. intros c Hin. specialize (Hc c Hin). rewrite Hids in Hc.
  by apply bool_decide_eq_true in Hc.
Qed.

(** ** The status map and the used stations *)

Lemma elem_of_filter_bool {A : Type} (p : A -> bool) (l : list A) (x : A) :
  x ∈ List.filter p l <-> x ∈ l /\ p x = true.
Proof. rewrite !list_elem_of_In. apply filter_In. Qed.

Lemma NoDup_map_filter {A B : Type} (f : A -> B) (p : A -> bool) (l : list A) :
  NoDup (map f l) -> NoDup (map f (List.filter p l)).
Proof.
  induction l as [|x l IH]; simpl; [done|].
  intros Hnd. apply NoDup_cons in Hnd as [Hx Hnd].
  destruct (p x); simpl; [|by apply IH].
  apply NoDup_cons. split; [|by apply IH].
  intros Hin. apply Hx. apply list_elem_of_fmap in Hin as (y & -> & Hy).
  apply list_elem_of_fmap. exists y. split; [done|].
  by apply elem_of_filter_bool in Hy as [Hy _].
Qed.

Lemma NoDup_map_unique {A B : Type} (f : A -> B) (l : list A) (x y : A) :
  NoDup (map f l) -> x ∈ l -> y ∈ l -> f x = f y -> x = y.
Proof.
  induction l as [|z l IH]; simpl; intros Hnd Hx Hy Hf; [inversion Hx|].
  apply NoDup_cons in Hnd as [Hz Hnd].
  apply elem_of_cons in Hx as [->|Hx]; apply elem_of_cons in Hy as [->|Hy].
  - done.
  - exfalso. apply Hz. rewrite Hf. apply list_elem_of_fmap. by exists y.
  - exfalso. apply Hz. rewrite <- Hf. apply list_elem_of_fmap. by exists x.
  - by apply IH.
Qed.

Lemma statusMap_from_lookup_notin (l : list XStation.t) (m : gmap Z Z) (k : Z) :
  k ∉ map XStation.ID l ->
  fold_left (fun m s => <[XStation.ID s := XStation.Status s]> m) l m !! k = m !! k.
Proof.
  revert m. induction l as [|s l IH]; intros m Hk; simpl; [done|].
  simpl in Hk. apply not_elem_of_cons in Hk as [Hne Hk].
  rewrite IH by done. by rewrite lookup_insert_ne.
Qed.

Lemma statusMap_from_lookup (l : list XStation.t) (m : gmap Z Z) (s : XStation.t) :
  NoDup (map XStation.ID l) -> s ∈ l ->
  fold_left (fun m s => <[XStation.ID s := XStation.Status s]> m) l m
    !! XStation.ID s = Some (XStation.Status s).
Proof.
  revert m. induction l as [|x l IH]; intros m Hnd Hs; simpl; [inversion Hs|].
  simpl in Hnd. apply NoDup_cons in Hnd as [Hx Hnd].
  apply elem_of_cons in Hs as [->|Hs].
  - rewrite statusMap_from_lookup_notin by done. apply lookup_insert_eq.
  - by apply IH.
Qed.

Lemma statusMap_lookup (l : list XStation.t) (s : XStation.t) :
  NoDup (map XStation.ID l) -> s ∈ l ->
  statusMap l !! XStation.ID s = Some (XStation.Status s).
Proof. apply statusMap_from_lookup. Qed.

Lemma usedIDs_from (cs : list XComponent.t) (m : gmap Z bool) (k : Z) :
  hasID (fold_left (fun m c => <[XComponent.STNo c := true]> m) cs m) k =
  hasID m k || bool_decide (k ∈ map XComponent.STNo cs).
Proof.
  revert m. induction cs as [|c cs IH]; intros m; simpl.
  - by rewrite orb_false_r.
  - rewrite IH, hasID_insert.
    destruct (decide (k = XComponent.STNo c)) as [->|Hne].
    + rewrite bool_decide_eq_true_2 by done.
      rewrite (bool_decide_eq_true_2 (_ ∈ _ :: _)) by constructor.
      by rewrite orb_true_r.
    + rewrite bool_decide_eq_false_2 by done. simpl. f_equal.
      apply bool_decide_ext. rewrite elem_of_cons.
      split; [by right | by intros [?|?]].
Qed.

Lemma usedStationsOf_filter xf :
  usedStationsOf xf =
  List.filter (fun s => hasID (usedIDs (activeComponentsOf xf)) (XStation.ID s))
              (activeStationsOf xf).
Proof.
  unfold usedStationsOf, activeStationsOf.
  induction (Stations xf) as [|s l IH]; simpl; [done|].
  destruct (XStation.DNP s); simpl; [done|].
  destruct (hasID _ _); by rewrite IH.
Qed.

(** The station an active component refers to, in a model that passes the
    validation: there is one, only one, and the status map of [GenerateDPV]
    has its status. *)
Lemma referenced_station xf filename (c : XComponent.t) :
  Valid (validation xf filename) = true ->
  c ∈ activeComponentsOf xf ->
  exists s, s ∈ activeStationsOf xf /\
            XStation.ID s = XComponent.STNo c /\
            (forall s', s' ∈ activeStationsOf xf ->
                        XStation.ID s' = XComponent.STNo c -> s' = s) /\
            statusMap (usedStationsOf xf) !! XComponent.STNo c =
              Some (XStation.Status s).
Proof.
  intros Hv Hc. apply validation_valid in Hv as [Hnd Hrefs].
  specialize (Hrefs c Hc). apply list_elem_of_fmap in Hrefs as (s & Hid & Hs).
  exists s. split; [done|]. split; [done|]. split.
  - intros s' Hs' Hid'. eapply NoDup_map_unique; eauto. congruence.
  - rewrite Hid. apply statusMap_lookup.
    + rewrite usedStationsOf_filter. by apply NoDup_map_filter.
    + rewrite usedStationsOf_filter. apply elem_of_filter_bool. split; [done|].
      unfold usedIDs. rewrite usedIDs_from, <- Hid.
      rewrite (bool_decide_eq_true_2 (_ ∈ _)); [by rewrite orb_true_r|].
      apply list_elem_of_fmap. by exists c.
Qed.

(** ** The skip flags that are written *)

Lemma land_pow2 (a k : Z) :
  0 <= k -> Z.land a (2 ^ k) = if Z.testbit a k then 2 ^ k else 0.
Proof.
  intros Hk. apply Z.bits_inj'. intros n Hn.
  rewrite Z.land_spec, Z.pow2_bits_eqb by done.
  destruct (Z.eqb_spec k n) as [->|Hne].
  - destruct (Z.testbit a n); simpl.
    + by rewrite Z.pow2_bits_true.
    + by rewrite Z.bits_0.
  - rewrite andb_false_r. destruct (Z.testbit a k).
    + by rewrite Z.pow2_bits_false.
    + by rewrite Z.bits_0.
Qed.

Lemma lor_pow2_set (a k : Z) :
  0 <= k -> Z.testbit a k = true -> Z.lor a (2 ^ k) = a.
Proof.
  intros Hk Ha. apply Z.bits_inj'. intros n Hn.
  rewrite Z.lor_spec, Z.pow2_bits_eqb by done.
  destruct (Z.eqb_spec k n) as [->|Hne].
  - by rewrite Ha.
  - by rewrite orb_false_r.
Qed.

(** One of the two corrections: the flag of the station is put in. *)
Lemma autofix_flag (skip status k : Z) :
  0 <= k ->
  (if negb (Z.land status (2 ^ k) =? 0) && (Z.land skip (2 ^ k) =? 0)
   then Z.lor skip (2 ^ k) else skip) =
  Z.lor skip (Z.land status (2 ^ k)).
Proof.
  intros Hk. rewrite !land_pow2 by done.
  assert (2 ^ k <> 0) as Hpow by (apply Z.pow_nonzero; lia).
  destruct (Z.testbit status k); simpl.
  - destruct (Z.eqb_spec (2 ^ k) 0) as [|_]; [done|]. simpl.
    destruct (Z.testbit skip k) eqn:Hs; simpl.
    + destruct (Z.eqb_spec (2 ^ k) 0) as [|_]; [done|].
      by rewrite lor_pow2_set.
    + done.
  - by rewrite Z.lor_0_r.
Qed.

Lemma autofix_vision (skip status : Z) :
  (if negb (Z.land status 4 =? 0) && (Z.land skip 4 =? 0)
   then Z.lor skip 4 else skip) = Z.lor skip (Z.land status 4).
Proof. exact (autofix_flag skip status 2 ltac:(lia)). Qed.

Lemma autofix_vacuum (skip status : Z) :
  (if negb (Z.land status 2 =? 0) && (Z.land skip 2 =? 0)
   then Z.lor skip 2 else skip) = Z.lor skip (Z.land status 2).
Proof. exact (autofix_flag skip status 1 ltac:(lia)). Qed.

Lemma autoFixSkip_spec (m : gmap Z Z) (c : XComponent.t) (status : Z) :
  m !! XComponent.STNo c = Some status ->
  autoFixSkip m c =
  Z.lor (Z.lor (XComponent.Skip c) (Z.land status 4)) (Z.land status 2).
Proof.
  intros Hm. unfold autoFixSkip. rewrite Hm.
  by rewrite autofix_vision, autofix_vacuum.
Qed.





(** ** The reserved ids *)

Lemma Errors_ifWarning (b : bool) r w :
  Errors (if b then addWarning r w else r) = Errors r.
Proof. by destruct b. Qed.

Lemma Errors_rangeFrom_warnings {A : Type}
  (body : DPVValidationResult -> Z -> A -> DPVValidationResult) (l : list A)
  (i : nat) (r : DPVValidationResult) :
  (forall r i x, Errors (body r i x) = Errors r) ->
  Errors (rangeFrom body l i r) = Errors r.
Proof.
  intros Hbody. revert i r. induction l as [|x l IH]; intros i r; simpl; [done|].
  by rewrite IH, Hbody.
Qed.

Lemma Errors_warnIf {A : Type} cond mk (l : list A) r :
  Errors (warnIf cond mk l r) = Errors r.
Proof.
  apply Errors_rangeFrom_warnings. intros r' i x. by destruct (cond i x).
Qed.

Lemma errorIf_single {A : Type} (cond : Z -> A -> bool) mk (x : A) r :
  errorIf cond mk [x] r = if cond 0 x then addError r (mk 0 x) else r.
Proof. reflexivity. Qed.

Lemma componentChecks_nil xf sts ids r : componentChecks xf [] sts ids r = r.
Proof. reflexivity. Qed.

Lemma hasID_empty (k : Z) : hasID ∅ k = false.
Proof. unfold hasID. by rewrite lookup_empty. Qed.

Lemma panelAndFileChecks_default xf (filename : gostring) r :
  PanelArray xf = [PanelArrayRow.mk 0 1 0 0 1 1] -> filename <> [] ->
  Errors (panelAndFileChecks xf filename r) = Errors r.
Proof.
  intros Hpa Hfn. unfold panelAndFileChecks. rewrite Hpa.
  destruct filename; [done|]. cbn [PanelArrayRow.NumX PanelArrayRow.NumY].
  change ((1 <? 1) || (1 <? 1)) with false. cbv iota.
  apply Errors_ifWarning.
Qed.

Lemma Errors_errorIf_none {A : Type} (cond : A -> bool) mk (l : list A) r :
  (forall x, x ∈ l -> cond x = false) ->
  Errors (errorIf (fun _ x => cond x) mk l r) = Errors r.
Proof.
  unfold errorIf, range. generalize 0%nat. revert r.
  induction l as [|x l IH]; intros r i Hl; simpl; [done|].
  rewrite IH by (intros y Hy; apply Hl; by right).
  rewrite (Hl x) by (by left). done.
Qed.

Lemma stationChecks_reserved (s : XStation.t) r :
  XStation.ID s = 150 ->
  0 <= XStation.Status s <= 15 ->
  XStation.Speed s = 0 \/ 50 <= XStation.Speed s ->
  XStation.PHead s = 1 \/ XStation.PHead s = 2 ->
  0 <= XStation.NThreshold s <= 256 ->
  PrimFloat.ltb 5 (XStation.Height s) = false ->
  PrimFloat.ltb (XStation.Height s) 0 = false ->
  Errors (stationChecks [s] r).1 =
  Errors r ++
  [DPVValidationError.mk $"reserved_station_id" $"Station.ID" 0
     $"Station ID 150 is reserved (IDs >= 100 are machine-reserved and will cause head crashes)"].
Proof.
  intros Hid Hstatus Hspeed Hphead Hthr Hmax Hmin.
  unfold stationChecks.
  change (range checkStationID [s] (r, ∅)) with (checkStationID (r, ∅) 0 s).
  unfold checkStationID. rewrite Hid, hasID_empty.
  change (100 <=? 150) with true.
  change ((30 <=? 150) && (150 <=? 35) || (65 <=? 150) && (150 <=? 70))
    with false.
  cbv beta iota zeta. cbn [fst].
  rewrite Errors_ifWarning.
  unfold range at 1. cbn [rangeFrom]. rewrite Hmax, Hmin.
  rewrite Errors_errorIf_none.
  2: { intros x Hx. apply list_elem_of_singleton in Hx as ->.
       destruct (Z.eqb_spec (XStation.NThreshold s) 0); [done|].
       apply orb_false_iff; split; apply Z.ltb_ge; lia. }
  rewrite Errors_errorIf_none.
  2: { intros x Hx. apply list_elem_of_singleton in Hx as ->.
       by destruct Hphead as [->| ->]. }
  rewrite Errors_errorIf_none.
  2: { intros x Hx. apply list_elem_of_singleton in Hx as ->.
       destruct Hspeed as [->|?]; [done|].
       apply andb_false_iff; right; apply Z.ltb_ge; lia. }
  rewrite Errors_warnIf, Errors_errorIf_none.
  2: { intros x Hx. apply list_elem_of_singleton in Hx as ->.
       apply orb_false_iff; split; apply Z.ltb_ge; lia. }
  rewrite Errors_warnIf. reflexivity.
Qed.

(** C8: a model with one active feeder, whose id is 150 and which breaks no
    other rule that is an error, with no active placement, the default panel
    array and a file name: the validation finds one error, the reserved id,
    and the result is not valid. *)
Theorem validation_reserved_id (xf : XFile) (filename : gostring)
  (s : XStation.t) :
  activeStationsOf xf = [s] ->
  XStation.ID s = 150 ->
  0 <= XStation.Status s <= 15 ->
  XStation.Speed s = 0 \/ 50 <= XStation.Speed s ->
  XStation.PHead s = 1 \/ XStation.PHead s = 2 ->
  0 <= XStation.NThreshold s <= 256 ->
  PrimFloat.ltb 5 (XStation.Height s) = false ->
  PrimFloat.ltb (XStation.Height s) 0 = false ->
  activeComponentsOf xf = [] ->
  PanelArray xf = [PanelArrayRow.mk 0 1 0 0 1 1] ->
  filename <> [] ->
  Errors (validation xf filename) =
    [DPVValidationError.mk $"reserved_station_id" $"Station.ID" 0
       $"Station ID 150 is reserved (IDs >= 100 are machine-reserved and will cause head crashes)"] /\
  Valid (validation xf filename) = false.
Proof.
  intros Hst Hid Hstatus Hspeed Hphead Hthr Hmax Hmin Hcs Hpa Hfn.
  assert (Errors (validation xf filename) =
    [DPVValidationError.mk $"reserved_station_id" $"Station.ID" 0
       $"Station ID 150 is reserved (IDs >= 100 are machine-reserved and will cause head crashes)"])
    as He.
  { unfold validation. rewrite Hst, Hcs.
    pose proof (stationChecks_reserved s
                  {| Valid := true; Errors := []; Warnings := [] |}
                  Hid Hstatus Hspeed Hphead Hthr Hmax Hmin) as H.
    destruct (stationChecks [s] _) as [r ids]. simpl in H.
    by rewrite componentChecks_nil, panelAndFileChecks_default. }
  split; [done|].
  destruct (Valid (validation xf filename)) eqn:Hv; [|done].
  apply (consistent_validation xf filename) in Hv. congruence.
Qed.

(** ** The header of the whitespace-delimited format *)

Lemma findRefHeader_find (lines : list gostring) (i : nat) :
  fst <$> findRefHeader lines i =
  (fun line => commentText (strings.TrimSpace line)) <$>
    List.find refCommentLine lines.
Proof.
  revert i. induction lines as [|line lines IH]; intros i; simpl; [done|].
  unfold refCommentLine at 1, commentLine.
  destruct (isComment _ && _); [done | apply IH].
Qed.

Lemma findFirstComment_find (lines : list gostring) (i : nat) :
  fst <$> findFirstComment lines i =
  (fun line => commentText (strings.TrimSpace line)) <$>
    List.find commentLine lines.
Proof.
  revert i. induction lines as [|line lines IH]; intros i; simpl; [done|].
  unfold commentLine at 1.
  destruct (isComment _); [done | apply IH].
Qed.

Lemma Contains_nil_ref : strings.Contains [] $"ref" = false.
Proof. reflexivity. Qed.

(** [headerLine] after the two passes is the resolved header, or empty. *)
Lemma findHeaderLine_resolved (text : gostring) :
  (findHeaderLine (posLines text)).1 = default [] (resolvedHeader text).
Proof.
  unfold findHeaderLine, resolvedHeader.
  pose proof (findRefHeader_find (posLines text) 0) as H1.
  pose proof (findFirstComment_find (posLines text) 0) as H2.
  destruct (List.find refCommentLine (posLines text)) as [line|] eqn:Hfind.
  - destruct (findRefHeader (posLines text) 0) as [[h idx]|]; [|done].
    simpl in H1. injection H1 as ->. simpl.
    apply find_some in Hfind as [_ Href].
    unfold refCommentLine in Href. apply andb_true_iff in Href as [_ Href].
    destruct (commentText (strings.TrimSpace line)); [|done].
    simpl in Href. discriminate Href.
  - destruct (findRefHeader (posLines text) 0) as [[h idx]|]; [done|]. simpl.
    destruct (List.find commentLine (posLines text)) as [line|].
    + destruct (findFirstComment (posLines text) 0) as [[h idx]|]; [|done].
      simpl in H2. by injection H2 as ->.
    + by destruct (findFirstComment (posLines text) 0) as [[h idx]|].
Qed.

Lemma columnsFrom_lookup (key : gostring) (headers : list gostring) (j : nat)
  (colMap : gmap gostring nat) :
  is_Some (columnsFrom headers j colMap !! key) <->
  is_Some (colMap !! key) \/ exists cell, cell ∈ headers /\ columnKey cell = Some key.
Proof.
  revert j colMap. induction headers as [|cell headers IH]; intros j colMap; simpl.
  - split; [by left|]. intros [H|(cell & Hin & _)]; [done | inversion Hin].
  - rewrite IH. split.
    + intros [H|(c & Hin & Hc)].
      * destruct (columnKey cell) as [k|] eqn:Hk; [|by left].
        destruct (decide (k = key)) as [->|Hne].
        -- right. exists cell. split; [by left | done].
        -- rewrite lookup_insert_ne in H by done. by left.
      * right. exists c. split; [by right | done].
    + intros [H|(c & Hin & Hc)].
      * left. destruct (columnKey cell) as [k|]; [|done].
        destruct (decide (k = key)) as [->|Hne].
        -- rewrite lookup_insert_eq. by eexists.
        -- by rewrite lookup_insert_ne.
      * apply elem_of_cons in Hin as [->|Hin].
        -- left. rewrite Hc, lookup_insert_eq. by eexists.
        -- right. by exists c.
Qed.

Lemma buildColumnMap_lookup (key : gostring) (headers : list gostring) :
  is_Some (buildColumnMap headers !! key) <->
  exists cell, cell ∈ headers /\ columnKey cell = Some key.
Proof.
  unfold buildColumnMap. rewrite columnsFrom_lookup, lookup_empty.
  split; [intros [[? ?]|?]; done | by right].
Qed.

Lemma columnKey_ref (cell : gostring) :
  columnKey cell = Some $"ref" <->
  strings.ToLower (strings.TrimSpace cell) ∈ refSynonyms.
Proof.
  unfold columnKey, refSynonyms.
  rewrite !elem_of_cons, elem_of_nil.
  repeat case_decide; split; intros Hk;
    first [ by left | by right; left | discriminate Hk
          | destruct Hk as [Hk|[Hk|[]]]; congruence ].
Qed.

Lemma columnKey_val (cell : gostring) :
  columnKey cell = Some $"val" <->
  strings.ToLower (strings.TrimSpace cell) ∈ valSynonyms.
Proof.
  unfold columnKey, valSynonyms.
  rewrite !elem_of_cons, elem_of_nil.
  repeat case_decide; split; intros Hk;
    first [ by left | by right; left | discriminate Hk
          | destruct Hk as [Hk|[Hk|[]]]; congruence ].
Qed.

Lemma colMap_ref (header : gostring) :
  is_Some (buildColumnMap (splitByWhitespace header) !! $"ref") <->
  hasColumn refSynonyms header.
Proof.
  rewrite buildColumnMap_lookup. unfold hasColumn.
  split; intros (cell & Hin & H); exists cell; split; try done;
    by apply columnKey_ref.
Qed.

Lemma colMap_val (header : gostring) :
  is_Some (buildColumnMap (splitByWhitespace header) !! $"val") <->
  hasColumn valSynonyms header.
Proof.
  rewrite buildColumnMap_lookup. unfold hasColumn.
  split; intros (cell & Hin & H); exists cell; split; try done;
    by apply columnKey_val.
Qed.

Lemma resolvedHeader_None (text : gostring) :
  resolvedHeader text = None <->
  forall line, line ∈ posLines text -> commentLine line = false.
Proof.
  unfold resolvedHeader. split.
  - destruct (List.find refCommentLine _); [done|].
    destruct (List.find commentLine (posLines text)) eqn:Hfind; [done|].
    intros _ line Hin. apply list_elem_of_In in Hin.
    apply (find_none _ _ Hfind _ Hin).
  - intros Hnone.
    destruct (List.find refCommentLine _) as [line|] eqn:H1.
    + apply find_some in H1 as [Hin Href]. apply list_elem_of_In in Hin.
      unfold refCommentLine in Href. rewrite (Hnone _ Hin) in Href. done.
    + destruct (List.find commentLine _) as [line|] eqn:H2; [|done].
      apply find_some in H2 as [Hin Hc]. apply list_elem_of_In in Hin.
      rewrite (Hnone _ Hin) in Hc. done.
Qed.

Lemma parseKiCadFormat_result (text : gostring) :
  match parseKiCadFormat text with
  | Err _ =>
      resolvedHeader text = None \/
      exists header, resolvedHeader text = Some header /\
                     (~ hasColumn refSynonyms header \/
                      ~ hasColumn valSynonyms header)
  | Ok data =>
      exists header, resolvedHeader text = Some header /\
                     hasColumn refSynonyms header /\
                     hasColumn valSynonyms header /\
                     Headers data = splitByWhitespace header
  end.
Proof.
  unfold parseKiCadFormat. fold (posLines text).
  pose proof (findHeaderLine_resolved text) as Hres.
  destruct (findHeaderLine (posLines text)) as [headerLine idx]. simpl in Hres.
  destruct (resolvedHeader text) as [header|]; simpl in Hres; subst headerLine;
    [|by left].
  pose proof (colMap_ref header) as Href. pose proof (colMap_val header) as Hval.
  destruct header as [|c header].
  { right. eexists. split; [done|]. left. intros (cell & Hin & _).
    inversion Hin. }
  destruct (splitByWhitespace (c :: header)) as [|h hs] eqn:Hsplit.
  { right. eexists. split; [done|]. left. intros (cell & Hin & _).
    rewrite Hsplit in Hin. inversion Hin. }
  destruct (buildColumnMap (h :: hs) !! $"ref") as [iref|].
  2: { right. eexists. split; [done|]. left. rewrite <- Href.
       by intros [? ?]. }
  destruct (buildColumnMap (h :: hs) !! $"val") as [ival|].
  2: { right. eexists. split; [done|]. right. rewrite <- Hval.
       by intros [? ?]. }
  eexists. split; [done|]. split; [apply Href; by eexists|].
  split; [apply Hval; by eexists|]. by rewrite Hsplit.
Qed.

(** C9: a text that [ParsePOS] takes for the whitespace-delimited format
    (it has no comma, or starts with a comment marker after its leading white
    space) fails to parse exactly when no line is comment-prefixed, or the
    resolved header has no cell that is a synonym of the reference designator
    or none that is a synonym of the value, compared in lower case; otherwise
    it parses, and the headers returned are the cells of the resolved
    header. *)
Theorem ParsePOS_whitespace_format (text : gostring) :
  strings.Contains text $"," &&
    negb (strings.HasPrefix (strings.TrimSpace text) $"#") = false ->
  ((exists msg, ParsePOS text = Err msg) <->
   (forall line, line ∈ posLines text -> commentLine line = false) \/
   exists header, resolvedHeader text = Some header /\
                  (~ hasColumn refSynonyms header \/
                   ~ hasColumn valSynonyms header)) /\
  ((exists data, ParsePOS text = Ok data) <->
   exists header, resolvedHeader text = Some header /\
                  hasColumn refSynonyms header /\
                  hasColumn valSynonyms header) /\
  (forall data, ParsePOS text = Ok data ->
     exists header, resolvedHeader text = Some header /\
                    Headers data = splitByWhitespace header).
Proof.
  intros Hfmt. unfold ParsePOS. rewrite Hfmt.
  pose proof (parseKiCadFormat_result text) as H.
  rewrite <- resolvedHeader_None.
  destruct (parseKiCadFormat text) as [data|msg].
  - destruct H as (header & Hh & Href & Hval & Hdata).
    split; [|split].
    + split; [by intros [? ?]|].
      intros [Hnone|(h & Hh' & Hno)]; [congruence|].
      assert (h = header) as -> by congruence. by destruct Hno.
    + split; [|by eexists]. intros _. by exists header.
    + intros d Hd. injection Hd as <-. by exists header.
  - split; [|split].
    + split; [done | by eexists].
    + split; [by intros [? ?]|].
      intros (h & Hh & Href & Hval).
      destruct H as [Hnone|(h' & Hh' & Hno)]; [congruence|].
      assert (h' = h) as -> by congruence. by destruct Hno.
    + done.
Qed.

(** ** The reconciliation engine *)

Lemma noteIndex_noNote (sts : list XStation.t) (i : nat)
  (m : gmap gostring nat) (note : gostring) :
  note = [] \/ noNote note sts -> noteIndex sts i m !! note = m !! note.
Proof.
  revert i m. induction sts as [|x sts IH]; intros i m Hno; simpl; [done|].
  rewrite IH.
  - destruct (XStation.Note x) as [|a v] eqn:Hx; [done|].
    apply lookup_insert_ne. destruct Hno as [->|Hno]; [done|].
    rewrite <- Hx. apply Hno. by left.
  - destruct Hno as [?|Hno]; [by left|]. right.
    intros e He. apply Hno. by right.
Qed.

Lemma lastWithNote_head (note : gostring) x (sts : list XStation.t) :
  lastWithNote note (x :: sts) 0 -> XStation.Note x = note /\ noNote note sts.
Proof.
  intros [(e & He & Hnote) Hlast]. simpl in He. injection He as <-.
  split; [done|]. intros e' He'. apply list_elem_of_lookup in He' as [k Hk].
  apply (Hlast (S k) e'); [lia | done].
Qed.

Lemma lastWithNote_tail (note : gostring) x (sts : list XStation.t) (j : nat) :
  lastWithNote note (x :: sts) (S j) <-> lastWithNote note sts j.
Proof.
  unfold lastWithNote. simpl. split; intros [He Hlast]; (split; [done|]).
  - intros k e Hk. apply (Hlast (S k) e). lia.
  - intros [|k] e Hk; [lia|]. simpl. apply Hlast. lia.
Qed.

Lemma noteIndex_last (sts : list XStation.t) (i : nat)
  (m : gmap gostring nat) (note : gostring) (j : nat) :
  note <> [] -> lastWithNote note sts j ->
  noteIndex sts i m !! note = Some (i + j)%nat.
Proof.
  intros Hne. revert i m j. induction sts as [|x sts IH]; intros i m j Hlast.
  - destruct Hlast as [(e & He & _) _]. by rewrite lookup_nil in He.
  - simpl. destruct j as [|j].
    + apply lastWithNote_head in Hlast as [Hx Hno].
      rewrite noteIndex_noNote by (by right). rewrite Hx.
      destruct note; [done|]. by rewrite lookup_insert_eq, Nat.add_0_r.
    + apply lastWithNote_tail in Hlast. rewrite (IH _ _ j) by done.
      f_equal. lia.
Qed.

Lemma last_or_none (note : gostring) (sts : list XStation.t) :
  noNote note sts \/ exists j, lastWithNote note sts j.
Proof.
  induction sts as [|x sts IH]; [left; intros e He; inversion He|].
  destruct IH as [Hno|[j Hj]].
  - destruct (decide (XStation.Note x = note)) as [Hx|Hx].
    + right. exists 0%nat. split; [by exists x|].
      intros [|k] e Hk He; [lia|]. simpl in He. apply Hno.
      by eapply list_elem_of_lookup_2.
    + left. intros e He. apply elem_of_cons in He as [->|He]; [done|].
      by apply Hno.
  - right. exists (S j). by apply lastWithNote_tail.
Qed.

(** The map of notes: the key of a note that is not empty is the place of
    the last station with that note. *)
Lemma noteIndex_Some (sts : list XStation.t) (note : gostring) (idx : nat) :
  noteIndex sts 0 ∅ !! note = Some idx <->
  note <> [] /\ lastWithNote note sts idx.
Proof.
  split.
  - intros H. destruct (decide (note = [])) as [->|Hne].
    { rewrite noteIndex_noNote in H by (by left). done. }
    split; [done|]. destruct (last_or_none note sts) as [Hno|[j Hj]].
    + rewrite noteIndex_noNote in H by (by right). done.
    + rewrite (noteIndex_last _ _ _ _ j) in H by done.
      injection H as <-. done.
  - intros [Hne Hlast]. by rewrite (noteIndex_last _ _ _ _ idx).
Qed.

Lemma noteIndex_None (sts : list XStation.t) (note : gostring) :
  noteIndex sts 0 ∅ !! note = None <-> note = [] \/ noNote note sts.
Proof.
  split.
  - intros H. destruct (decide (note = [])) as [->|Hne]; [by left|]. right.
    destruct (last_or_none note sts) as [Hno|[j Hj]]; [done|].
    by rewrite (noteIndex_last _ _ _ _ j) in H.
  - intros H. by rewrite noteIndex_noNote.
Qed.

Lemma maxStationID_from (sts : list XStation.t) (a : Z) :
  0 <= a ->
  fold_left (fun maxID s => if maxID <? XStation.ID s then XStation.ID s else maxID)
            sts a = Z.max a (largestID sts).
Proof.
  unfold largestID. revert a.
  induction sts as [|s sts IH]; intros a Ha; cbn [fold_left map fold_right].
  - lia.
  - destruct (Z.ltb_spec a (XStation.ID s)); rewrite IH by lia; lia.
Qed.

Lemma maxStationID_largest (sts : list XStation.t) :
  maxStationID sts = largestID sts.
Proof.
  unfold maxStationID. rewrite maxStationID_from by lia.
  assert (0 <= largestID sts); [|lia].
  unfold largestID. induction sts; simpl; lia.
Qed.

Lemma keepsOriginals_refl (sts : list XStation.t) : keepsOriginals sts sts.
Proof. intros i e He. by exists e. Qed.

Lemma keepsOriginals_app orig sts x :
  keepsOriginals orig sts -> keepsOriginals orig (sts ++ [x]).
Proof.
  intros H i e He. destruct (H i e He) as (e' & He' & Hn & Hi).
  exists e'. split; [|done]. by apply lookup_app_l_Some.
Qed.

Lemma keepsOriginals_insert orig sts (idx : nat) x e :
  keepsOriginals orig sts -> sts !! idx = Some e ->
  XStation.Note x = XStation.Note e -> XStation.ID x = XStation.ID e ->
  keepsOriginals orig (<[idx := x]> sts).
Proof.
  intros H Hidx Hn Hi i o Ho. destruct (H i o Ho) as (e' & He' & Hn' & Hi').
  destruct (decide (i = idx)) as [->|Hne].
  - exists x. rewrite list_lookup_insert_eq by (by eapply lookup_lt_Some).
    split; [done|]. assert (e' = e) as -> by congruence. split; congruence.
  - exists e'. by rewrite list_lookup_insert_ne.
Qed.

(** One turn of either loop is a merge as [mergesAs] words it, and it never
    indexes out of range. *)
Lemma mergeStation_mergesAs (orig sts : list XStation.t) (merged : Z)
  (incoming : XStation.t) :
  keepsOriginals orig sts ->
  exists sts' (matched : bool),
    mergeStation (noteIndex orig 0 ∅) (Some (sts, merged)) incoming =
      Some (sts', if matched then merged + 1 else merged) /\
    mergesAs false orig sts incoming sts' matched /\
    keepsOriginals orig sts'.
Proof.
  intros Hkeep. unfold mergeStation.
  destruct (noteIndex orig 0 ∅ !! XStation.Note incoming) as [idx|] eqn:Hlook.
  - apply noteIndex_Some in Hlook as [Hne Hlast].
    destruct Hlast as [(o & Ho & Hnote) Hlater].
    destruct (Hkeep idx o Ho) as (e & He & Hn & Hi). rewrite He.
    exists (<[idx := XStation.withID incoming (XStation.ID e)]> sts), true.
    split; [done|]. split.
    + left. split; [done|]. exists idx, e.
      split; [by split; [exists o|]|]. done.
    + eapply keepsOriginals_insert; eauto. simpl. congruence.
  - apply noteIndex_None in Hlook.
    exists (sts ++ [appended sts incoming]), false. split; [done|]. split.
    + right. split; [done|]. split; [done|].
      unfold appended. by rewrite maxStationID_largest.
    + by apply keepsOriginals_app.
Qed.

Lemma mergeStacksStation_mergesAs (orig sts : list XStation.t) (merged added : Z)
  (incoming : XStation.t) :
  keepsOriginals orig sts ->
  exists sts' (matched : bool),
    mergeStacksStation (noteIndex orig 0 ∅) (Some (sts, merged, added)) incoming =
      Some (sts', if matched then merged + 1 else merged,
            if matched then added else added + 1) /\
    mergesAs true orig sts incoming sts' matched /\
    keepsOriginals orig sts'.
Proof.
  intros Hkeep. unfold mergeStacksStation.
  destruct (noteIndex orig 0 ∅ !! XStation.Note incoming) as [idx|] eqn:Hlook.
  - apply noteIndex_Some in Hlook as [Hne Hlast].
    destruct Hlast as [(o & Ho & Hnote) Hlater].
    destruct (Hkeep idx o Ho) as (e & He & Hn & Hi). rewrite He.
    exists (<[idx := replacement true incoming e]> sts), true.
    split; [done|]. split.
    + left. split; [done|]. exists idx, e.
      split; [by split; [exists o|]|]. done.
    + eapply keepsOriginals_insert; eauto. simpl. congruence.
  - apply noteIndex_None in Hlook.
    exists (sts ++ [appended sts incoming]), false. split; [done|]. split.
    + right. split; [done|]. split; [done|].
      unfold appended. by rewrite maxStationID_largest.
    + by apply keepsOriginals_app.
Qed.

(** Either loop runs to its end, whatever the incoming stations. *)
Lemma mergeLoop_total xf (stations : list XStation.t) :
  exists sts merged, mergeLoop xf stations = Some (sts, merged) /\
                     keepsOriginals (Stations xf) sts.
Proof.
  unfold mergeLoop. induction stations as [|x l IH] using rev_ind.
  - exists (Stations xf), 0. split; [done | apply keepsOriginals_refl].
  - destruct IH as (sts & merged & Hloop & Hkeep).
    rewrite fold_left_app, Hloop. simpl.
    destruct (mergeStation_mergesAs _ _ merged x Hkeep)
      as (sts' & matched & Hstep & _ & Hkeep').
    eauto.
Qed.







Lemma mergeLoop_snoc xf (pre : list XStation.t) (incoming : XStation.t) :
  mergeLoop xf (pre ++ [incoming]) =
  mergeStation (noteIndex (Stations xf) 0 ∅) (mergeLoop xf pre) incoming.
Proof. unfold mergeLoop. by rewrite fold_left_app. Qed.

Lemma stacksLoop_snoc xf (pre : list XStation.t) (incoming : XStation.t) :
  stacksLoop xf (pre ++ [incoming]) =
  mergeStacksStation (noteIndex (Stations xf) 0 ∅) (stacksLoop xf pre) incoming.
Proof. unfold stacksLoop. by rewrite fold_left_app. Qed.



(** ** Merging the same list again *)

Lemma MergeStationsIntoXFile_loop xf (stations : list XStation.t)
  (filename : gostring) sts merged :
  mergeLoop xf stations = Some (sts, merged) ->
  exists xf', MergeStationsIntoXFile stations filename xf = Some (merged, xf') /\
              Stations xf' = sts.
Proof.
  intros Hloop. unfold MergeStationsIntoXFile. rewrite Hloop.
  eexists. split; [done|]. simpl.
  unfold addStackFile. destruct filename; [done|]. by destruct (existsb _ _).
Qed.

(** A merge keeps the notes there are and brings the incoming note in. *)
Lemma mergesAs_notes keepNo orig sts incoming sts' matched :
  keepsOriginals orig sts ->
  mergesAs keepNo orig sts incoming sts' matched ->
  XStation.Note incoming ∈ map XStation.Note sts' /\
  forall note, note ∈ map XStation.Note sts -> note ∈ map XStation.Note sts'.
Proof.
  intros Hkeep [(Hne & idx & e & Hlast & He & _ & ->)|(_ & _ & ->)].
  - destruct Hlast as [(o & Ho & Hnote) _].
    destruct (Hkeep idx o Ho) as (e' & He' & Hn & _).
    assert (e' = e) as -> by congruence.
    assert (XStation.Note (replacement keepNo incoming e) = XStation.Note e)
      as Hrep by (destruct keepNo; simpl; congruence).
    assert (map XStation.Note (<[idx := replacement keepNo incoming e]> sts) =
            map XStation.Note sts) as ->.
    { change (map XStation.Note) with (fmap (M:=list) XStation.Note).
      rewrite list_fmap_insert, Hrep. apply list_insert_id.
      by rewrite list_lookup_fmap, He. }
    split; [|done]. apply list_elem_of_fmap. exists e.
    split; [congruence|]. by eapply list_elem_of_lookup_2.
  - rewrite map_app. simpl. split.
    + apply elem_of_app. right. by left.
    + intros note Hn. apply elem_of_app. by left.
Qed.

Lemma mergeLoop_covers xf (stations : list XStation.t) sts merged :
  mergeLoop xf stations = Some (sts, merged) ->
  forall incoming, incoming ∈ stations ->
    XStation.Note incoming ∈ map XStation.Note sts.
Proof.
  revert sts merged. induction stations as [|x l IH] using rev_ind;
    intros sts merged Hloop incoming Hin; [inversion Hin|].
  destruct (mergeLoop_total xf l) as (sts0 & m0 & Hl & Hkeep).
  rewrite mergeLoop_snoc, Hl in Hloop.
  destruct (mergeStation_mergesAs _ _ m0 x Hkeep)
    as (sts' & matched & Hstep & Hm & _).
  rewrite Hstep in Hloop. injection Hloop as <- _.
  destruct (mergesAs_notes _ _ _ _ _ _ Hkeep Hm) as [Hx Hold].
  apply elem_of_app in Hin as [Hin|Hin].
  - apply Hold. by eapply IH.
  - apply list_elem_of_singleton in Hin as ->. done.
Qed.

(** When every incoming note is a note of the model and none is empty, the
    loop replaces and never appends: the notes and the ids stay as they
    are. *)
Lemma mergeLoop_all_matched xf (stations : list XStation.t) :
  (forall incoming, incoming ∈ stations ->
     XStation.Note incoming <> [] /\
     XStation.Note incoming ∈ map XStation.Note (Stations xf)) ->
  exists sts,
    mergeLoop xf stations = Some (sts, Z.of_nat (length stations)) /\
    map (fun s => (XStation.Note s, XStation.ID s)) sts =
    map (fun s => (XStation.Note s, XStation.ID s)) (Stations xf).
Proof.
  induction stations as [|x l IH] using rev_ind; intros Hall.
  - by exists (Stations xf).
  - destruct IH as (sts & Hloop & Hsame).
    { intros inc Hin. apply Hall, elem_of_app. by left. }
    destruct (mergeLoop_total xf l) as (sts0 & m0 & Hl & Hkeep).
    rewrite Hloop in Hl. injection Hl as <- <-.
    destruct (mergeStation_mergesAs _ _ (Z.of_nat (length l)) x Hkeep)
      as (sts' & matched & Hstep & Hm & _).
    destruct (Hall x) as [Hne Hin]; [apply elem_of_app; right; by left|].
    destruct Hm as [(_ & idx & e & Hlast & He & -> & ->)|([Hempty|Hno] & _ & _)].
    + eexists. rewrite mergeLoop_snoc, Hloop, Hstep. split.
      * do 2 f_equal. rewrite length_app. simpl. lia.
      * rewrite <- Hsame.
        change (map ?f) with (fmap (M:=list) f).
        rewrite list_fmap_insert. apply list_insert_id.
        rewrite list_lookup_fmap, He. simpl. do 2 f_equal.
        destruct Hlast as [(o & Ho & Hnote) _].
        assert ((fun s => (XStation.Note s, XStation.ID s)) <$> sts !! idx =
                (fun s => (XStation.Note s, XStation.ID s)) <$> Stations xf !! idx)
          as Hidx.
        { rewrite <- !list_lookup_fmap.
          change (fmap (M:=list) ?f) with (map f). by rewrite Hsame. }
        rewrite He, Ho in Hidx. simpl in Hidx. congruence.
    + done.
    + exfalso. apply list_elem_of_fmap in Hin as (e & Heq & He).
      by apply (Hno e He).
Qed.

(** C5, as amended: when no incoming feeder has an empty note, merging the
    list a second time appends nothing; it replaces as many entries as there
    are incoming feeders, and the notes and ids of the feeders, in order,
    are what the first merge left. *)
Theorem merge_twice_adds_nothing (xf : XFile) (stations : list XStation.t)
  (filename1 filename2 : gostring) :
  Forall (fun s => XStation.Note s <> []) stations ->
  exists merged xf1 xf2,
    MergeStationsIntoXFile stations filename1 xf = Some (merged, xf1) /\
    MergeStationsIntoXFile stations filename2 xf1 =
      Some (Z.of_nat (length stations), xf2) /\
    length (Stations xf2) = length (Stations xf1) /\
    map (fun s => (XStation.Note s, XStation.ID s)) (Stations xf2) =
    map (fun s => (XStation.Note s, XStation.ID s)) (Stations xf1).
Proof.
  intros Hnotes. rewrite Forall_forall in Hnotes.
  destruct (mergeLoop_total xf stations) as (sts1 & merged & Hloop1 & _).
  destruct (MergeStationsIntoXFile_loop xf stations filename1 _ _ Hloop1)
    as (xf1 & Hm1 & Hs1).
  destruct (mergeLoop_all_matched xf1 stations) as (sts2 & Hloop2 & Hsame).
  { intros inc Hin. split; [by apply Hnotes|].
    rewrite Hs1. by eapply mergeLoop_covers. }
  destruct (MergeStationsIntoXFile_loop xf1 stations filename2 _ _ Hloop2)
    as (xf2 & Hm2 & Hs2).
  exists merged, xf1, xf2. split; [done|]. split; [done|].
  rewrite Hs2. split; [|done].
  apply (f_equal length) in Hsame. by rewrite !length_map in Hsame.
Qed.

(** C5, as stated, fails on a feeder without a note: merged into the empty
    model it is appended, and merged again it is appended again. *)
Lemma merge_twice_unnamed_feeder :
  exists xf1 xf2,
    MergeStationsIntoXFile [unnamedIncoming] $"a.stack" (NewXFile clock0) =
      Some (0, xf1) /\
    MergeStationsIntoXFile [unnamedIncoming] $"a.stack" xf1 = Some (0, xf2) /\
    Stations xf1 = [feeder 0 1 [] 6 false] /\
    Stations xf2 = [feeder 0 1 [] 6 false; feeder 1 2 [] 6 false].
Proof.
  eexists. eexists. split; [vm_compute; reflexivity|].
  split; [vm_compute; reflexivity|]. split; reflexivity.
Qed.

(** ** The text of numbers *)

Lemma numberByte_visible c : numberByte c = true -> visible c = true.
Proof.
  unfold numberByte. intros H. by do 2 apply andb_true_iff, proj1 in H.
Qed.

Lemma uintText_numberBytes (d : Decimal.uint) :
  Forall (fun c => numberByte c = true) (strconv.uintText d).
Proof. induction d; simpl; constructor; done. Qed.

Lemma digitsOf_uintText (d : Decimal.uint) :
  strconv.digitsOf (strconv.uintText d) = Some d.
Proof. induction d; simpl; [done|by rewrite IHd..]. Qed.

Lemma Itoa_numberBytes (n : Z) :
  Forall (fun c => numberByte c = true) (strconv.Itoa n).
Proof.
  unfold strconv.Itoa. destruct (Z.to_int n).
  - apply uintText_numberBytes.
  - constructor; [done | apply uintText_numberBytes].
Qed.

Lemma to_int_nonnil (n : Z) :
  match Z.to_int n with
  | Decimal.Pos d | Decimal.Neg d => d <> Decimal.Nil
  end.
Proof.
  destruct n; simpl; [done | apply Unsigned.to_uint_nonnil..].
Qed.

Lemma Itoa_nonempty (n : Z) : strconv.Itoa n <> [].
Proof.
  unfold strconv.Itoa. pose proof (to_int_nonnil n) as H.
  destruct (Z.to_int n) as [d|d]; [|done]. by destruct d.
Qed.

(** [Atoi] reads back what [Itoa] writes of an [int]. *)
Lemma Atoi_Itoa (n : Z) : inInt n -> strconv.Atoi (strconv.Itoa n) = Some n.
Proof.
  intros [Hmin Hmax]. unfold strconv.Itoa, strconv.Atoi.
  pose proof (to_int_nonnil n) as Hnil. pose proof (DecimalZ.of_to n) as Hof.
  destruct (Z.to_int n) as [d|d]; simpl in Hof.
  - assert (match strconv.uintText d with
            | "-"%char :: r => (true, r)
            | "+"%char :: r => (false, r)
            | _ => (false, strconv.uintText d)
            end = (false, strconv.uintText d)) as -> by (by destruct d).
    destruct (strconv.uintText d) eqn:Htext; [by destruct d|].
    rewrite <- Htext, digitsOf_uintText, Hof.
    destruct (Z.leb_spec strconv.minInt n); [|lia].
    destruct (Z.leb_spec n strconv.maxInt); [done | lia].
  - destruct (strconv.uintText d) eqn:Htext; [by destruct d|].
    rewrite <- Htext, digitsOf_uintText, Hof.
    destruct (Z.leb_spec strconv.minInt n); [|lia].
    destruct (Z.leb_spec n strconv.maxInt); [done | lia].
Qed.

Lemma padZeros_numberBytes (w : nat) (s : gostring) :
  Forall (fun c => numberByte c = true) s ->
  Forall (fun c => numberByte c = true) (strconv.padZeros w s).
Proof.
  intros H. unfold strconv.padZeros. apply Forall_app. split; [|done].
  apply Forall_forall. intros c Hc. apply list_elem_of_In, repeat_spec in Hc.
  by subst.
Qed.

Lemma fixedText_numberBytes (n : Z) :
  Forall (fun c => numberByte c = true) (strconv.fixedText 2 n).
Proof.
  unfold strconv.fixedText. apply Forall_app. split; [apply Itoa_numberBytes|].
  constructor; [done|]. apply padZeros_numberBytes, Itoa_numberBytes.
Qed.

Lemma f2_numberBytes (x : float) :
  Forall (fun c => numberByte c = true) (fmt.f2 x).
Proof.
  unfold fmt.f2, strconv.FormatFloat.
  destruct (Prim2SF x) as [neg|neg| |neg m e].
  - apply Forall_app. split; [by destruct neg; repeat constructor|].
    apply fixedText_numberBytes.
  - destruct neg; by repeat constructor.
  - by repeat constructor.
  - apply Forall_app. split; [by destruct neg; repeat constructor|].
    apply fixedText_numberBytes.
Qed.

Lemma f2_nonempty (x : float) : fmt.f2 x <> [].
Proof.
  unfold fmt.f2, strconv.FormatFloat.
  assert (forall n, strconv.fixedText 2 n <> []) as Hfixed.
  { intros n. unfold strconv.fixedText. intros H.
    apply app_eq_nil in H as [H _]. by apply Itoa_nonempty in H. }
  destruct (Prim2SF x) as [neg|neg| |neg m e].
  - intros H. apply app_eq_nil in H as [_ H]. by apply Hfixed in H.
  - by destruct neg.
  - done.
  - intros H. apply app_eq_nil in H as [_ H]. by apply Hfixed in H.
Qed.

(** ** White space around a text *)

Lemma trimLeft_visible (c : ascii) (r : gostring) :
  visible c = true -> strings.trimLeft (c :: r) = c :: r.
Proof.
  destruct c as [[] [] [] [] [] [] [] []]; intros H; try discriminate H;
    reflexivity.
Qed.

Lemma trimLeftRev_visible (c : ascii) (r : gostring) :
  visible c = true -> strings.trimLeftRev (c :: r) = c :: r.
Proof.
  destruct c as [[] [] [] [] [] [] [] []]; intros H; try discriminate H;
    reflexivity.
Qed.

Lemma TrimSpace_ends (s : gostring) (a z : ascii) :
  head s = Some a -> last s = Some z -> visible a = true -> visible z = true ->
  strings.TrimSpace s = s.
Proof.
  intros Ha Hz Hva Hvz. unfold strings.TrimSpace, strings.trimRight.
  destruct s as [|a' s]; [done|]. simpl in Ha. injection Ha as ->.
  rewrite trimLeft_visible by done.
  apply last_Some in Hz as [l' Hl']. rewrite Hl', rev_app_distr.
  change (rev [z] ++ rev l') with (z :: rev l').
  rewrite trimLeftRev_visible by done.
  change (z :: rev l') with (rev [z] ++ rev l').
  by rewrite <- rev_app_distr, rev_involutive.
Qed.

Lemma TrimSpace_numberBytes (s : gostring) :
  Forall (fun c => numberByte c = true) s -> strings.TrimSpace s = s.
Proof.
  intros H. destruct s as [|a s]; [done|].
  destruct (last (a :: s)) as [z|] eqn:Hz; [|by apply last_None in Hz].
  apply (TrimSpace_ends _ a z); [done | done | |].
  - apply numberByte_visible. by apply Forall_cons in H as [H _].
  - apply numberByte_visible. rewrite Forall_forall in H. apply H.
    apply last_Some in Hz as [l' ->]. apply elem_of_app. right. by left.
Qed.

(** ** Lines *)

Lemma numberByte_lineByte c : numberByte c = true -> lineByte c = true.
Proof. destruct c as [[] [] [] [] [] [] [] []]; done. Qed.

Lemma numberByte_bareByte c : numberByte c = true -> bareByte c = true.
Proof.
  unfold numberByte, bareByte. intros H.
  apply andb_true_iff in H as [H Hq]. apply andb_true_iff in H as [_ Hc].
  by rewrite Hc, Hq.
Qed.

Lemma ReplaceAll_app (a b : gostring) (old : ascii) (new : gostring) :
  strings.ReplaceAll (a ++ b) old new =
  strings.ReplaceAll a old new ++ strings.ReplaceAll b old new.
Proof. apply flat_map_app. Qed.

Lemma ReplaceAll_CR_line (l : gostring) :
  Forall (fun c => lineByte c = true) l -> strings.ReplaceAll l CR [] = l.
Proof.
  induction 1 as [|c l Hc _ IH]; [done|].
  unfold strings.ReplaceAll in *. simpl. rewrite IH.
  unfold lineByte in Hc. apply andb_true_iff in Hc as [Hc _].
  apply negb_true_iff in Hc. by rewrite Hc.
Qed.

Lemma ReplaceAll_CR_lines (ls : list gostring) :
  Forall (Forall (fun c => lineByte c = true)) ls ->
  strings.ReplaceAll (concat (map (fun l => l ++ CRLF) ls)) CR [] =
  concat (map (fun l => l ++ [LF]) ls).
Proof.
  induction 1 as [|l ls Hl _ IH]; [done|].
  cbn [map concat]. rewrite !ReplaceAll_app, IH.
  rewrite (ReplaceAll_CR_line l) by done.
  change (strings.ReplaceAll CRLF CR []) with [LF].
  by rewrite <- app_assoc.
Qed.

Lemma Split_line (l rest : gostring) :
  Forall (fun c => lineByte c = true) l ->
  strings.Split (l ++ LF :: rest) LF = l :: strings.Split rest LF.
Proof.
  induction 1 as [|c l Hc _ IH]; [done|].
  simpl. rewrite IH.
  unfold lineByte in Hc. apply andb_true_iff in Hc as [_ Hc].
  apply negb_true_iff in Hc. by rewrite Hc.
Qed.

Lemma Split_lines (ls : list gostring) :
  Forall (Forall (fun c => lineByte c = true)) ls ->
  strings.Split (concat (map (fun l => l ++ [LF]) ls)) LF = ls ++ [[]].
Proof.
  induction 1 as [|l ls Hl _ IH]; [done|].
  cbn [map concat]. rewrite <- app_assoc. cbn [app].
  by rewrite Split_line, IH.
Qed.

(** ** Records of one line *)

Lemma scan_bare (f rest : gostring) :
  Forall (fun c => bareByte c = true) f ->
  csv.scan (f ++ ","%char :: rest) csv.Bare =
  cons f <$> csv.scan rest csv.FieldStart.
Proof.
  induction 1 as [|c f Hc _ IH]; [done|].
  simpl. unfold bareByte in Hc. apply andb_true_iff in Hc as [Hcomma Hquote].
  apply negb_true_iff in Hcomma, Hquote. rewrite Hcomma, Hquote, IH.
  by destruct (csv.scan rest csv.FieldStart).
Qed.

Lemma scan_field (f rest : gostring) :
  Forall (fun c => bareByte c = true) f ->
  csv.scan (f ++ ","%char :: rest) csv.FieldStart =
  cons f <$> csv.scan rest csv.FieldStart.
Proof.
  intros H. destruct H as [|c f Hc Hf]; [done|].
  simpl. unfold bareByte in Hc. apply andb_true_iff in Hc as [Hcomma Hquote].
  apply negb_true_iff in Hcomma, Hquote.
  rewrite Hcomma, Hquote, scan_bare by done.
  by destruct (csv.scan rest csv.FieldStart).
Qed.

Lemma scan_bare_last (f : gostring) :
  Forall (fun c => bareByte c = true) f -> csv.scan f csv.Bare = Some [f].
Proof.
  induction 1 as [|c f Hc _ IH]; [done|].
  simpl. unfold bareByte in Hc. apply andb_true_iff in Hc as [Hcomma Hquote].
  apply negb_true_iff in Hcomma, Hquote. by rewrite Hcomma, Hquote, IH.
Qed.

Lemma scan_last_field (f : gostring) :
  Forall (fun c => bareByte c = true) f -> csv.scan f csv.FieldStart = Some [f].
Proof.
  intros H. destruct H as [|c f Hc Hf]; [done|].
  simpl. unfold bareByte in Hc. apply andb_true_iff in Hc as [Hcomma Hquote].
  apply negb_true_iff in Hcomma, Hquote.
  by rewrite Hcomma, Hquote, scan_bare_last.
Qed.

Lemma scan_quoted (f rest : gostring) :
  csv.scan (strings.ReplaceAll f dquote [dquote; dquote] ++
            dquote :: ","%char :: rest) csv.Quoted =
  cons f <$> csv.scan rest csv.FieldStart.
Proof.
  induction f as [|c f IH]; [done|].
  unfold strings.ReplaceAll in *. simpl.
  destruct (Ascii.eqb c dquote) eqn:Hc.
  - apply Ascii.eqb_eq in Hc as ->. simpl. rewrite IH.
    by destruct (csv.scan rest csv.FieldStart).
  - simpl. rewrite Hc, IH. by destruct (csv.scan rest csv.FieldStart).
Qed.

Lemma ContainsAny_false_bare (f : gostring) :
  strings.ContainsAny f [","%char; dquote; CR; LF] = false ->
  Forall (fun c => bareByte c = true) f.
Proof.
  induction f as [|c f IH]; [constructor|].
  unfold strings.ContainsAny. simpl. intros H.
  apply orb_false_iff in H as [Hc Hf]. constructor; [|by apply IH].
  apply orb_false_iff in Hc as [Hcomma Hc].
  apply orb_false_iff in Hc as [Hquote _].
  unfold bareByte. by rewrite Hcomma, Hquote.
Qed.

(** An escaped cell is read back as the cell. *)
Lemma scan_escaped (f rest : gostring) :
  csv.scan (stackCsvEscape f ++ ","%char :: rest) csv.FieldStart =
  cons f <$> csv.scan rest csv.FieldStart.
Proof.
  unfold stackCsvEscape.
  destruct (strings.ContainsAny f _) eqn:Hany.
  - rewrite <- !app_assoc. cbn [app csv.scan]. apply scan_quoted.
  - by apply scan_field, ContainsAny_false_bare.
Qed.

(** ** The rows of GenerateStack read by ParseStack *)

Transparent stackRow stackPreamble.

Lemma stackRow_body (i : Z) (s : XStation.t) :
  stackRow i s = rowBody i s ++ CRLF.
Proof.
  unfold stackRow, rowBody.
  repeat (rewrite <- ?app_assoc; simpl; f_equal).
Qed.

Lemma stackPreamble_lines :
  stackPreamble $"MaterialStack.stack" =
  concat (map (fun l => l ++ CRLF) preambleLines).
Proof. reflexivity. Qed.

Opaque stackRow stackPreamble.

Lemma stackRows_bodies (sts : list XStation.t) (i : nat) :
  stackRows sts i = concat (map (fun l => l ++ CRLF) (rowBodies sts i)).
Proof.
  revert i. induction sts as [|s sts IH]; intros i; simpl; [done|].
  destruct (XStation.DNP s); simpl; [apply IH|].
  by rewrite IH, stackRow_body.
Qed.

Lemma escaped_lineBytes (note : gostring) :
  Forall (fun c => lineByte c = true) note ->
  Forall (fun c => lineByte c = true) (stackCsvEscape note).
Proof.
  intros H. unfold stackCsvEscape. destruct (strings.ContainsAny note _); [|done].
  apply Forall_app. split; [by repeat constructor|].
  apply Forall_app. split; [|by repeat constructor].
  unfold strings.ReplaceAll. induction H as [|c note Hc _ IH]; [constructor|].
  simpl. apply Forall_app. split; [|done].
  destruct (Ascii.eqb c dquote); by repeat constructor.
Qed.

Lemma plainNote_lineBytes (note : gostring) :
  plainNote note -> Forall (fun c => lineByte c = true) note.
Proof.
  intros (_ & Hcr & Hlf). apply Forall_forall. intros c Hc.
  unfold lineByte. apply andb_true_iff. split; apply negb_true_iff.
  - apply Ascii.eqb_neq. by intros ->.
  - apply Ascii.eqb_neq. by intros ->.
Qed.

Ltac number_bytes :=
  first [ apply Itoa_numberBytes | apply f2_numberBytes ].

Lemma rowBody_lineBytes (i : Z) (s : XStation.t) :
  plainNote (XStation.Note s) ->
  Forall (fun c => lineByte c = true) (rowBody i s).
Proof.
  intros Hnote. unfold rowBody.
  repeat first
    [ apply Forall_nil_2
    | apply Forall_cons; split; [reflexivity|]
    | apply Forall_app; split;
      [ first [ by apply escaped_lineBytes, plainNote_lineBytes
              | eapply Forall_impl;
                [number_bytes | intros ?; apply numberByte_lineByte]
              | by repeat constructor ] | ]
    | eapply Forall_impl; [number_bytes | intros ?; apply numberByte_lineByte] ].
Qed.

Lemma readRecord_rowBody (i : Z) (s : XStation.t) :
  csv.readRecord (rowBody i s) = Some (rowFields i s).
Proof.
  unfold csv.readRecord, rowBody, rowFields.
  assert (forall f, Forall (fun c => numberByte c = true) f ->
                    Forall (fun c => bareByte c = true) f) as Hbare.
  { intros f Hf. eapply Forall_impl; [exact Hf|].
    intros ?. apply numberByte_bareByte. }
  rewrite scan_field by (by repeat constructor).
  do 6 (rewrite scan_field by (apply Hbare; number_bytes)).
  rewrite scan_escaped.
  do 9 (rewrite scan_field by (apply Hbare; number_bytes)).
  rewrite scan_last_field by (apply Hbare; number_bytes).
  reflexivity.
Qed.

Lemma rowBody_head (i : Z) (s : XStation.t) :
  exists rest, rowBody i s = $"Station," ++ rest.
Proof. eexists. unfold rowBody. reflexivity. Qed.

Lemma last_snoc_app (a b : gostring) (z : ascii) :
  last b = Some z -> last (a ++ b) = Some z.
Proof.
  intros Hb. apply last_Some in Hb as [b' ->].
  rewrite app_assoc. apply last_snoc.
Qed.

Lemma rowBody_last (i : Z) (s : XStation.t) :
  exists z, last (rowBody i s) = Some z /\ visible z = true.
Proof.
  pose proof (Itoa_numberBytes (XStation.NVisualRadio s)) as Hbytes.
  pose proof (Itoa_nonempty (XStation.NVisualRadio s)) as Hne.
  destruct (last (strconv.Itoa (XStation.NVisualRadio s))) as [z|] eqn:Hz;
    [|by apply last_None in Hz].
  exists z. split.
  - unfold rowBody, fmt.d.
    repeat (first [ apply last_snoc_app
                  | rewrite last_cons;
                    match goal with
                    | |- match ?x with _ => _ end = _ =>
                        let H := fresh in
                        assert (x = Some z) as H; [|by rewrite H]
                    end ]).
    exact Hz.
  - apply numberByte_visible. rewrite Forall_forall in Hbytes. apply Hbytes.
    apply last_Some in Hz as [l' ->]. apply elem_of_app. right. by left.
Qed.

Lemma TrimSpace_rowBody (i : Z) (s : XStation.t) :
  strings.TrimSpace (rowBody i s) = rowBody i s.
Proof.
  destruct (rowBody_last i s) as (z & Hz & Hvz).
  apply (TrimSpace_ends _ "S"%char z); [|done|done|done].
  by destruct (rowBody_head i s) as [rest ->].
Qed.

Lemma rowBody_not_file_header (i : Z) (s : XStation.t) :
  isFileHeaderLine (strings.ToLower (rowBody i s)) = false.
Proof. destruct (rowBody_head i s) as [rest ->]. reflexivity. Qed.

Lemma tableHeader_cols :
  stationCols tableHeader !! $"id" = Some 2%nat /\
  stationCols tableHeader !! $"deltx" = Some 4%nat /\
  stationCols tableHeader !! $"delty" = Some 5%nat /\
  stationCols tableHeader !! $"note" = Some 7%nat /\
  stationCols tableHeader !! $"status" = Some 10%nat.
Proof. repeat split; vm_compute; reflexivity. Qed.

Lemma getInt_Itoa (header row : list gostring) (name : gostring) (idx : nat)
  (n def : Z) :
  stationCols header !! name = Some idx -> row !! idx = Some (fmt.d n) ->
  inInt n -> getInt header row name def = n.
Proof.
  intros Hcol Hrow Hn. unfold getInt, getValue. rewrite Hcol, Hrow.
  unfold fmt.d. rewrite TrimSpace_numberBytes by apply Itoa_numberBytes.
  pose proof (Itoa_nonempty n) as Hne.
  destruct (strconv.Itoa n) eqn:Htext; [done|].
  by rewrite <- Htext, Atoi_Itoa.
Qed.

Lemma getFloat_f2 (header row : list gostring) (name : gostring) (idx : nat)
  (x : float) :
  stationCols header !! name = Some idx -> row !! idx = Some (fmt.f2 x) ->
  getFloat header row name 0 = asText x.
Proof.
  intros Hcol Hrow. unfold getFloat, getValue, asText. rewrite Hcol, Hrow.
  rewrite TrimSpace_numberBytes by apply f2_numberBytes.
  pose proof (f2_nonempty x) as Hne.
  destruct (fmt.f2 x) eqn:Htext; [done|].
  by destruct (strconv.ParseFloat _).
Qed.

(** The station read from the row of a station. *)
Lemma parseStationRow_reimported (i : Z) (s : XStation.t) :
  plainNote (XStation.Note s) -> inInt (XStation.ID s) ->
  inInt (XStation.Status s) ->
  reimported s (parseStationRow tableHeader (rowFields i s)).
Proof.
  intros (Htrim & _) Hid Hstatus.
  destruct tableHeader_cols as (Cid & Cx & Cy & Cnote & Cstatus).
  assert (XStation.DeltX (parseStationRow tableHeader (rowFields i s)) =
          asText (XStation.DeltX s)) as Hx
    by (by apply (getFloat_f2 _ _ _ 4%nat)).
  assert (XStation.DeltY (parseStationRow tableHeader (rowFields i s)) =
          asText (XStation.DeltY s)) as Hy
    by (by apply (getFloat_f2 _ _ _ 5%nat)).
  unfold reimported. rewrite Hx, Hy. repeat split.
  - simpl. unfold getValue. rewrite Cnote. simpl. exact Htrim.
  - by apply (getInt_Itoa _ _ _ 2%nat).
  - by apply (getInt_Itoa _ _ _ 10%nat).
  - intros H. unfold asText. by rewrite H.
  - intros H. unfold asText. by rewrite H.
Qed.

(** The turn of the loop of [ParseStack] on the row of a station. *)
Lemma stackLine_rowBody (acc : list XStation.t) (i : Z) (s : XStation.t) :
  stackLine (tableHeader, acc) (rowBody i s) =
  (tableHeader, acc ++ [parseStationRow tableHeader (rowFields i s)]).
Proof.
  unfold stackLine. rewrite TrimSpace_rowBody.
  rewrite rowBody_not_file_header, readRecord_rowBody.
  destruct (rowBody_head i s) as [rest ->]. reflexivity.
Qed.

Lemma fold_stackLine_rows (sts : list XStation.t) (i : nat)
  (acc : list XStation.t) :
  fold_left stackLine (rowBodies sts i) (tableHeader, acc) =
  (tableHeader, acc ++ rowStations sts i).
Proof.
  revert i acc.
  induction sts as [|s sts IH]; intros i acc; cbn [rowBodies rowStations].
  - by rewrite app_nil_r.
  - destruct (XStation.DNP s); [apply IH|].
    cbn [fold_left]. rewrite stackLine_rowBody, IH, <- app_assoc. done.
Qed.

Lemma fold_stackLine_preamble :
  fold_left stackLine preambleLines ([], []) = (tableHeader, []).
Proof. vm_compute. reflexivity. Qed.

Lemma rowBodies_lineBytes (sts : list XStation.t) (i : nat) :
  Forall (fun s => XStation.DNP s = false -> plainNote (XStation.Note s)) sts ->
  Forall (Forall (fun c => lineByte c = true)) (rowBodies sts i).
Proof.
  intros H. revert i. induction H as [|s sts Hs _ IH]; intros i;
    cbn [rowBodies]; [constructor|].
  destruct (XStation.DNP s); [apply IH|].
  constructor; [|apply IH]. by apply rowBody_lineBytes, Hs.
Qed.

Lemma rowStations_reimported (sts : list XStation.t) (i : nat) :
  Forall (fun s => XStation.DNP s = false ->
                   plainNote (XStation.Note s) /\ inInt (XStation.ID s) /\
                   inInt (XStation.Status s)) sts ->
  Forall2 reimported (List.filter (fun s => negb (XStation.DNP s)) sts)
          (rowStations sts i).
Proof.
  intros H. revert i. induction H as [|s sts Hs _ IH]; intros i;
    cbn [rowStations List.filter]; [constructor|].
  destruct (XStation.DNP s); cbn [negb]; [apply IH|].
  constructor; [|apply IH].
  destruct Hs as (Hnote & Hid & Hstatus); [done|].
  by apply parseStationRow_reimported.
Qed.

Lemma only_active {P : XStation.t -> Prop} (sts : list XStation.t) :
  Forall P (List.filter (fun s => negb (XStation.DNP s)) sts) ->
  Forall (fun s => XStation.DNP s = false -> P s) sts.
Proof.
  intros H. apply Forall_forall. intros s Hs Hdnp.
  rewrite Forall_forall in H. apply H, elem_of_filter_bool.
  by rewrite Hdnp.
Qed.

Lemma GenerateStack_marker xf :
  strings.Contains (strings.ToLower (GenerateStack xf)) $"separated" = true.
Proof.
  unfold GenerateStack. rewrite stackPreamble_lines. reflexivity.
Qed.

(** What [ParseStack] reads from the text [GenerateStack] writes, when the
    notes of the stations written are plain. *)
Lemma ParseStack_GenerateStack_rows xf :
  Forall (fun s => XStation.DNP s = false -> plainNote (XStation.Note s))
         (Stations xf) ->
  ParseStack (GenerateStack xf) =
  match rowStations (Stations xf) 0 with
  | [] => Err $"no Station data found in stack file"
  | stations => Ok stations
  end.
Proof.
  intros Hnotes. unfold ParseStack. rewrite GenerateStack_marker.
  cbn [orb negb]. unfold GenerateStack.
  rewrite stackPreamble_lines, stackRows_bodies, <- concat_app, <- map_app.
  assert (Forall (Forall (fun c => lineByte c = true))
                 (preambleLines ++ rowBodies (Stations xf) 0)) as Hlines.
  { apply Forall_app. split; [|by apply rowBodies_lineBytes].
    repeat (constructor; [by repeat constructor|]). constructor. }
  rewrite ReplaceAll_CR_lines, Split_lines by done.
  rewrite !fold_left_app, fold_stackLine_preamble, fold_stackLine_rows.
  reflexivity.
Qed.

(** C4, as amended: when the model has a feeder that is to be placed, and
    the notes of such feeders have no line break in them and no white space
    around them, [ParseStack] reads from the text of [GenerateStack] one
    feeder for each of them, in order, and none for the others: with the
    note, the id and the status of the feeder, and with the offsets that
    their two-decimal text is read as, which are the offsets of the feeder
    when those are two-decimal values. *)
Theorem ParseStack_GenerateStack (xf : XFile) :
  activeStationsOf xf <> [] ->
  Forall (fun s => plainNote (XStation.Note s) /\ inInt (XStation.ID s) /\
                   inInt (XStation.Status s)) (activeStationsOf xf) ->
  exists parsed,
    ParseStack (GenerateStack xf) = Ok parsed /\
    Forall2 reimported (activeStationsOf xf) parsed.
Proof.
  intros Hsome Hplain. apply only_active in Hplain.
  pose proof (rowStations_reimported (Stations xf) 0 Hplain) as Hre.
  exists (rowStations (Stations xf) 0). split; [|exact Hre].
  rewrite ParseStack_GenerateStack_rows.
  - destruct (rowStations (Stations xf) 0); [|done].
    apply Forall2_nil_inv_r in Hre. done.
  - eapply Forall_impl; [exact Hplain|]. intros s Hs Hdnp. by apply Hs.
Qed.

(** C4, as stated, fails in three ways: an offset of 0.125 is written 0.12
    and read as another float; a note with a blank in front is read without
    it; and of a model whose only feeder is not to be placed nothing is read,
    which is an error. *)
Lemma ParseStack_GenerateStack_differs :
  match ParseStack (GenerateStack
          (withStations (NewXFile clock0) [feederAt 0.125 $"10k" false])) with
  | Ok parsed =>
      map (fun p => (fmt.f2 (XStation.DeltX p),
                     PrimFloat.eqb (XStation.DeltX p) 0.125)) parsed
  | Err _ => []
  end = [($"0.12", false)] /\
  match ParseStack (GenerateStack
          (withStations (NewXFile clock0) [feederAt 0 $" 10k" false])) with
  | Ok parsed => map XStation.Note parsed
  | Err _ => []
  end = [$"10k"] /\
  ParseStack (GenerateStack
    (withStations (NewXFile clock0) [feederAt 0 $"10k" true])) =
  Err $"no Station data found in stack file".
Proof. repeat split; vm_compute; reflexivity. Qed.

(** ** Validation: when the result is valid *)

Lemma Valid_rangeFrom_iff {A : Type}
  (body : DPVValidationResult -> Z -> A -> DPVValidationResult)
  (ok : A -> Prop) (l : list A) (i : nat) (r : DPVValidationResult) :
  (forall r i x, Valid (body r i x) = true <-> Valid r = true /\ ok x) ->
  Valid (rangeFrom body l i r) = true <-> Valid r = true /\ Forall ok l.
Proof.
  intros Hbody. revert i r. induction l as [|x l IH]; intros i r; simpl.
  - split; [by intros H | by intros [H _]].
  - rewrite IH, Hbody, Forall_cons. tauto.
Qed.

Lemma Valid_errorIf_iff {A : Type} (cond : Z -> A -> bool) mk (ok : A -> Prop)
  (l : list A) r :
  (forall i x, cond i x = false <-> ok x) ->
  Valid (errorIf cond mk l r) = true <-> Valid r = true /\ Forall ok l.
Proof.
  intros Hc. apply Valid_rangeFrom_iff. intros r' i x. rewrite <- (Hc i x).
  destruct (cond i x); simpl; [|tauto]. split; [done|]. by intros [_ ?].
Qed.

Lemma checkStationID_valid_iff (l : list XStation.t) (i : nat) st :
  Valid (rangeFrom checkStationID l i st).1 = true <->
  Valid st.1 = true /\ NoDup (map XStation.ID l) /\
  forall s, s ∈ l -> hasID st.2 (XStation.ID s) = false /\ XStation.ID s < 100.
Proof.
  split; [apply checkStationID_valid|].
  revert i st. induction l as [|s l IH]; intros i [r ids]; simpl.
  - by intros (H & _).
  - intros (H & Hnd & Hl). apply NoDup_cons in Hnd as [Hs Hnd].
    destruct (Hl s ltac:(left)) as [Hid Hlt]. apply IH. simpl.
    rewrite Valid_ifWarning, Hid.
    destruct (100 <=? XStation.ID s) eqn:Hres; [lia|].
    split; [done|]. split; [done|]. intros s' Hs'.
    destruct (Hl s' ltac:(by right)) as [Hid' Hlt']. split; [|done].
    rewrite hasID_insert, Hid', orb_false_r. apply bool_decide_eq_false_2.
    intros Heq. apply Hs. rewrite <- Heq. apply list_elem_of_fmap. by exists s'.
Qed.

Lemma stationChecks_valid_iff (l : list XStation.t) r :
  Valid (stationChecks l r).1 = true <->
  Valid r = true /\ NoDup (map XStation.ID l) /\ Forall stationOK l.
Proof.
  unfold stationChecks, range.
  pose proof (checkStationID_valid_iff l 0 (r, ∅)) as Hv.
  destruct (rangeFrom checkStationID l 0 (r, ∅)) as [r1 ids]. simpl in *.
  rewrite Valid_ifWarning.
  rewrite (Valid_rangeFrom_iff _
             (fun s => PrimFloat.ltb 5 (XStation.Height s) = false /\
                       PrimFloat.ltb (XStation.Height s) 0 = false)).
  2: { intros r' j s. destruct (PrimFloat.ltb 5 _), (PrimFloat.ltb _ 0); simpl;
         intuition congruence. }
  rewrite (Valid_errorIf_iff _ _ (fun s => 0 <= XStation.NThreshold s <= 256)).
  2: { intros _ s. rewrite andb_false_iff, negb_false_iff, orb_false_iff,
         Z.eqb_eq, !Z.ltb_ge. lia. }
  rewrite (Valid_errorIf_iff _ _
             (fun s => XStation.PHead s = 1 \/ XStation.PHead s = 2)).
  2: { intros _ s. rewrite andb_false_iff, !negb_false_iff, !Z.eqb_eq. tauto. }
  rewrite (Valid_errorIf_iff _ _
             (fun s => XStation.Speed s = 0 \/ 50 <= XStation.Speed s)).
  2: { intros _ s. rewrite andb_false_iff, negb_false_iff, Z.eqb_eq, Z.ltb_ge.
       tauto. }
  rewrite Valid_warnIf.
  rewrite (Valid_errorIf_iff _ _ (fun s => 0 <= XStation.Status s <= 15)).
  2: { intros _ s. rewrite orb_false_iff, !Z.ltb_ge. lia. }
  rewrite Valid_warnIf, Hv. unfold stationOK. rewrite !Forall_forall.
  split.
  - intros ((((((Hr & Hnd & Hl) & Hst) & Hsp) & Hph) & Hth) & Hh).
    split; [done|]. split; [done|]. intros x Hx.
    pose proof (Hl x Hx). pose proof (Hst x Hx). pose proof (Hsp x Hx).
    pose proof (Hph x Hx). pose proof (Hth x Hx). pose proof (Hh x Hx). tauto.
  - intros (Hr & Hnd & Hl).
    assert (forall P : XStation.t -> Prop,
              (forall x, stationOK x -> P x) -> forall x, x ∈ l -> P x) as Hall.
    { intros P HP x Hx. apply HP, Hl, Hx. }
    unfold stationOK in Hall.
    split; [split; [split; [split; [split; [split; [done|]|]|]|]|]|];
      [split; [done|] |..]; apply Hall; intros x Hx;
      [split; [apply hasID_empty|] |..]; tauto.
Qed.

Lemma stationChecks_ids (l : list XStation.t) r (k : Z) :
  hasID (stationChecks l r).2 k = bool_decide (k ∈ map XStation.ID l).
Proof.
  unfold stationChecks, range.
  pose proof (checkStationID_ids l 0 (r, ∅) k) as Hids.
  destruct (rangeFrom checkStationID l 0 (r, ∅)) as [r1 ids]. simpl in *.
  by rewrite Hids, hasID_empty.
Qed.

Lemma componentChecks_valid_iff xf (cs : list XComponent.t) sts ids r :
  Valid (componentChecks xf cs sts ids r) = true <->
  Valid r = true /\
  Forall (fun c => (XComponent.PHead c = 1 \/ XComponent.PHead c = 2) /\
                   hasID ids (XComponent.STNo c) = true /\
                   (XComponent.Speed c = 0 \/ 50 <= XComponent.Speed c)) cs.
Proof.
  unfold componentChecks, range. destruct (maxPosition xf cs) as [maxX maxY].
  rewrite !Valid_ifWarning.
  rewrite Valid_rangeFrom_warnings
    by (intros r' j x; by destruct (heightMismatch sts x)).
  rewrite Valid_ifWarning.
  rewrite (Valid_errorIf_iff _ _
             (fun c => XComponent.Speed c = 0 \/ 50 <= XComponent.Speed c)).
  2: { intros _ c. rewrite andb_false_iff, negb_false_iff, Z.eqb_eq, Z.ltb_ge.
       tauto. }
  rewrite !Valid_warnIf.
  rewrite Valid_rangeFrom_warnings
    by (intros r' j x; destruct (statusMap sts !! XComponent.STNo x); [|done];
        apply Valid_ifWarning).
  rewrite (Valid_errorIf_iff _ _
             (fun c => hasID ids (XComponent.STNo c) = true)).
  2: { intros _ c. by rewrite negb_false_iff. }
  rewrite (Valid_errorIf_iff _ _
             (fun c => XComponent.PHead c = 1 \/ XComponent.PHead c = 2)).
  2: { intros _ c. rewrite andb_false_iff, !negb_false_iff, !Z.eqb_eq. tauto. }
  rewrite Valid_warnIf, !Forall_forall. split.
  - intros (((Hr & Hph) & Hid) & Hsp). split; [done|]. intros c Hc.
    split; [by apply Hph|]. split; [by apply Hid | by apply Hsp].
  - intros (Hr & Hl).
    split; [split; [split; [done|]|]|]; intros c Hc;
      by destruct (Hl c Hc) as (?&?&?).
Qed.

Lemma panelAndFileChecks_valid_iff xf filename r :
  Valid (panelAndFileChecks xf filename r) = true <->
  Valid r = true /\ panelOK xf /\ filename <> [].
Proof.
  unfold panelAndFileChecks, panelOK.
  destruct filename as [|c f]; simpl.
  { split; [done|]. by intros (_ & _ & ?). }
  rewrite Valid_ifWarning.
  destruct (PanelArray xf) as [|pa ?]; simpl.
  { split; [done|]. by intros (_ & [] & _). }
  destruct (_ || _) eqn:Hn; simpl.
  - split; [done|]. intros (_ & [Hx Hy] & _).
    apply orb_true_iff in Hn as [Hn|Hn]; apply Z.ltb_lt in Hn; lia.
  - apply orb_false_iff in Hn as [Hx Hy]. apply Z.ltb_ge in Hx, Hy.
    split; [intros H|by intros (? & _)]. split; [done|]. split; [lia | done].
Qed.

Lemma validation_exportable xf filename :
  Valid (validation xf filename) = true <-> exportable xf filename.
Proof.
  unfold validation, exportable.
  pose proof (stationChecks_valid_iff (activeStationsOf xf)
                {| Valid := true; Errors := []; Warnings := [] |}) as Hst.
  pose proof (stationChecks_ids (activeStationsOf xf)
                {| Valid := true; Errors := []; Warnings := [] |}) as Hids.
  destruct (stationChecks _ _) as [r ids]. simpl in Hst, Hids.
  rewrite panelAndFileChecks_valid_iff, componentChecks_valid_iff, Hst.
  unfold componentOK. rewrite !Forall_forall. split.
  - intros (((_ & Hnd & Hs) & Hc) & Hp & Hf).
    split; [done|]. split; [done|]. split; [|done].
    intros c Hin. destruct (Hc c Hin) as (?&Hid&?).
    rewrite Hids in Hid. by apply bool_decide_eq_true in Hid.
  - intros (Hnd & Hs & Hc & Hp & Hf).
    split; [split; [done|]|done].
    intros c Hin. destruct (Hc c Hin) as (?&Hid&?).
    rewrite Hids. split; [done|]. split; [|done]. by apply bool_decide_eq_true.
Qed.
(** ** The validation result and the job file *)

(** X1: the result of the validation is valid exactly when it holds no
    error; warnings do not count. *)
Theorem validation_valid_iff_no_error (xf : XFile) (filename : gostring) :
  Valid (validation xf filename) = true <-> Errors (validation xf filename) = [].
Proof. apply consistent_validation. Qed.

(** X2: [ValidateDPV] finds the model valid, and [GenerateDPV] returns the
    text of the job file, exactly when the active feeders have distinct ids
    below 100, a status from 0 to 15, a speed of 0 or at least 50, head 1 or
    2, a threshold from 0 to 256 and a height that is neither above 5 nor
    below 0; the active placements have head 1 or 2, the id of an active
    feeder and a speed of 0 or at least 50; the first row of the panel array
    is there with both counts at least 1; and the file name is not empty. *)
Theorem GenerateDPV_succeeds_iff (xf : XFile) (filename : gostring) (now : Time) :
  (Valid (validation xf filename) = true <-> exportable xf filename) /\
  ((exists text, GenerateDPV filename now xf = Some ((text, None), xf)) <->
   exportable xf filename).
Proof.
  split; [apply validation_exportable|].
  rewrite <- validation_exportable. unfold GenerateDPV, ValidateDPV.
  destruct (Valid (validation xf filename)); simpl.
  - split; [done|]. intros _. by eexists.
  - split; [|done]. by intros [text Ht].
Qed.

Lemma usedStationsOf_referenced xf :
  usedStationsOf xf = List.filter (referenced xf) (Stations xf).
Proof.
  unfold usedStationsOf, referenced. apply filter_ext. intros s. f_equal.
  unfold usedIDs. by rewrite usedIDs_from, hasID_empty.
Qed.

(** X3: the Station table of the job file has, after its header, one row
    for every feeder that is to be placed and whose id is the feeder of a
    placement that is to be placed, in the stored order and numbered from 0;
    a feeder that no such placement refers to is left out. *)
Theorem stationSection_referenced (xf : XFile) :
  stationSection xf =
  CRLF ++
  $"Table,No.,ID,DeltX,DeltY,FeedRates,Note,Height,Speed,Status,nPixSizeX,nPixSizeY,HeightTake,DelayTake,nPullStripSpeed,nThreshold,nVisualRadio"
  ++ CRLF ++
  concat (imap (fun i s => stationRow (Z.of_nat i) s)
               (List.filter (referenced xf) (Stations xf))).
Proof.
  unfold stationSection. by rewrite rows_imap, usedStationsOf_referenced.
Qed.

(** ** The two feeder exports *)

(** X9: [GenerateStacksFile] numbers the rows it writes 0, 1, 2, ... over
    the feeders that are to be placed, whereas [GenerateStack] gives each of
    them its index in the stored list. *)
Theorem GenerateStacksFile_numbers_rows (xf : XFile) :
  GenerateStacksFile xf =
    stackPreamble $"material.stacks" ++
    concat (imap (fun i s => stackRow (Z.of_nat i) s) (activeStationsOf xf)) /\
  GenerateStack xf =
    stackPreamble $"MaterialStack.stack" ++
    concat (imap (fun i s => if XStation.DNP s then []
                             else stackRow (Z.of_nat i) s) (Stations xf)).
Proof.
  unfold GenerateStacksFile, GenerateStack.
  by rewrite stacksFileRows_contiguous, stackRows_index.
Qed.

(** ** Re-deriving the feeder of the placements *)

Lemma withSTNo_Explain c id :
  XComponent.Explain (XComponent.withSTNo c id) = XComponent.Explain c.
Proof. by destruct c. Qed.

Lemma withSTNo_twice c id id' :
  XComponent.withSTNo (XComponent.withSTNo c id) id' = XComponent.withSTNo c id'.
Proof. by destruct c. Qed.

(** X8: [rederiveComponentSTNo] changes no feeder, and done a second time it
    changes nothing at all. *)
Theorem rederiveComponentSTNo_idempotent (xf : XFile) :
  Stations (rederiveComponentSTNo xf) = Stations xf /\
  rederiveComponentSTNo (rederiveComponentSTNo xf) = rederiveComponentSTNo xf.
Proof.
  split; [done|]. unfold rederiveComponentSTNo at 1.
  change (Stations (rederiveComponentSTNo xf)) with (Stations xf).
  unfold rederiveComponentSTNo. destruct xf as [md off pr cs sts pa pc op sf].
  unfold withComponents. cbn [Metadata GlobalOffset POSRows Components Stations
                               PanelArray PanelCoord OriginalPOS StackFiles].
  f_equal. rewrite map_map. apply map_ext. intros c.
  destruct (noteIDs sts !! XComponent.Explain c) as [id|] eqn:Hc.
  - by rewrite withSTNo_Explain, Hc, withSTNo_twice.
  - by rewrite Hc.
Qed.
(** ** Merging: what is kept and what is counted *)

Lemma mergeLoop_inv (P : list XStation.t -> Z -> nat -> Prop) xf
  (stations : list XStation.t) :
  P (Stations xf) 0 0%nat ->
  (forall sts merged k incoming sts' (matched : bool),
     keepsOriginals (Stations xf) sts -> P sts merged k ->
     mergesAs false (Stations xf) sts incoming sts' matched ->
     P sts' (if matched then merged + 1 else merged) (S k)) ->
  exists sts merged,
    mergeLoop xf stations = Some (sts, merged) /\
    keepsOriginals (Stations xf) sts /\ P sts merged (length stations).
Proof.
  intros H0 Hstep. induction stations as [|x l IH] using rev_ind.
  - exists (Stations xf), 0. split; [done|].
    split; [apply keepsOriginals_refl | done].
  - destruct IH as (sts & merged & Hloop & Hkeep & HP).
    destruct (mergeStation_mergesAs _ _ merged x Hkeep)
      as (sts' & matched & Hs & Hm & Hkeep').
    eexists _, _. rewrite mergeLoop_snoc, Hloop. split; [exact Hs|].
    split; [done|]. rewrite length_app, Nat.add_1_r.
    exact (Hstep _ _ _ _ _ _ Hkeep HP Hm).
Qed.

Lemma stacksLoop_inv (P : list XStation.t -> Z -> Z -> nat -> Prop) xf
  (stations : list XStation.t) :
  P (Stations xf) 0 0 0%nat ->
  (forall sts merged added k incoming sts' (matched : bool),
     keepsOriginals (Stations xf) sts -> P sts merged added k ->
     mergesAs true (Stations xf) sts incoming sts' matched ->
     P sts' (if matched then merged + 1 else merged)
       (if matched then added else added + 1) (S k)) ->
  exists sts merged added,
    stacksLoop xf stations = Some (sts, merged, added) /\
    keepsOriginals (Stations xf) sts /\ P sts merged added (length stations).
Proof.
  intros H0 Hstep. induction stations as [|x l IH] using rev_ind.
  - exists (Stations xf), 0, 0. split; [done|].
    split; [apply keepsOriginals_refl | done].
  - destruct IH as (sts & merged & added & Hloop & Hkeep & HP).
    destruct (mergeStacksStation_mergesAs _ _ merged added x Hkeep)
      as (sts' & matched & Hs & Hm & Hkeep').
    eexists _, _, _. rewrite stacksLoop_snoc, Hloop. split; [exact Hs|].
    split; [done|]. rewrite length_app, Nat.add_1_r.
    exact (Hstep _ _ _ _ _ _ _ Hkeep HP Hm).
Qed.

Lemma mergesAs_length keepNo orig sts incoming sts' (matched : bool) :
  mergesAs keepNo orig sts incoming sts' matched ->
  length sts' = (length sts + if matched then 0 else 1)%nat.
Proof.
  intros [(_ & idx & e & _ & _ & -> & ->)|(_ & -> & ->)].
  - rewrite length_insert. lia.
  - by rewrite length_app.
Qed.

Lemma rederive_sameButSTNo (xf : XFile) :
  Forall2 sameButSTNo (Components xf) (Components (rederiveComponentSTNo xf)).
Proof.
  unfold rederiveComponentSTNo. cbn [Components withComponents].
  induction (Components xf) as [|c cs IH]; simpl; constructor; [|done].
  unfold sameButSTNo.
  destruct (noteIDs (Stations xf) !! XComponent.Explain c); by destruct c.
Qed.

Lemma addStackFile_frame (xf : XFile) (filename : gostring) :
  Metadata (addStackFile xf filename) = Metadata xf /\
  GlobalOffset (addStackFile xf filename) = GlobalOffset xf /\
  POSRows (addStackFile xf filename) = POSRows xf /\
  Components (addStackFile xf filename) = Components xf /\
  Stations (addStackFile xf filename) = Stations xf /\
  PanelArray (addStackFile xf filename) = PanelArray xf /\
  PanelCoord (addStackFile xf filename) = PanelCoord xf /\
  OriginalPOS (addStackFile xf filename) = OriginalPOS xf.
Proof.
  unfold addStackFile. destruct filename; [done|]. by destruct (existsb _ _).
Qed.

(** X6: [MergeStationsIntoXFile] returns on every input, and so does
    [MergeStacksFile] once the text is parsed.  Every feeder the model had is
    still at its place with its id and its note; every incoming feeder is
    either counted as merged or appended, so the model grows by the feeders
    not merged; and but for the feeders, the feeder the placements refer to
    and the list of stack files, the model is as it was. *)
Theorem merge_keeps_and_counts (xf : XFile) :
  (forall stations filename, exists merged xf',
     MergeStationsIntoXFile stations filename xf = Some (merged, xf') /\
     0 <= merged <= Z.of_nat (length stations) /\
     Z.of_nat (length (Stations xf')) =
       Z.of_nat (length (Stations xf)) + Z.of_nat (length stations) - merged /\
     keepsOriginals (Stations xf) (Stations xf') /\
     sameButFeeders xf xf') /\
  (forall content stations, ParseStack content = Ok stations ->
     exists merged added xf',
       MergeStacksFile content xf = Some (Ok (merged, added), xf') /\
       0 <= merged /\ 0 <= added /\
       merged + added = Z.of_nat (length stations) /\
       Z.of_nat (length (Stations xf')) =
         Z.of_nat (length (Stations xf)) + added /\
       keepsOriginals (Stations xf) (Stations xf') /\
       sameButFeeders xf xf' /\ StackFiles xf' = StackFiles xf).
Proof.
  split.
  - intros stations filename.
    destruct (mergeLoop_inv
                (fun sts merged k =>
                   0 <= merged <= Z.of_nat k /\
                   Z.of_nat (length sts) =
                     Z.of_nat (length (Stations xf)) + Z.of_nat k - merged)
                xf stations) as (sts & merged & Hloop & Hkeep & Hm & Hlen).
    { lia. }
    { intros sts merged k incoming sts' matched _ [Hm Hlen] Has.
      apply mergesAs_length in Has. destruct matched; lia. }
    exists merged. eexists. unfold MergeStationsIntoXFile. rewrite Hloop.
    split; [done|].
    pose proof (addStackFile_frame (withStations xf sts) filename)
      as (Hmd & Hoff & Hpr & Hcs & Hst & Hpa & Hpc & Hop).
    pose proof (rederive_sameButSTNo (addStackFile (withStations xf sts) filename))
      as Hc. rewrite Hcs in Hc.
    split; [done|].
    change (Stations (rederiveComponentSTNo ?x)) with (Stations x).
    rewrite Hst. split; [done|]. split; [done|].
    unfold sameButFeeders.
    change (Metadata (rederiveComponentSTNo ?x)) with (Metadata x).
    change (GlobalOffset (rederiveComponentSTNo ?x)) with (GlobalOffset x).
    change (POSRows (rederiveComponentSTNo ?x)) with (POSRows x).
    change (PanelArray (rederiveComponentSTNo ?x)) with (PanelArray x).
    change (PanelCoord (rederiveComponentSTNo ?x)) with (PanelCoord x).
    change (OriginalPOS (rederiveComponentSTNo ?x)) with (OriginalPOS x).
    by rewrite Hmd, Hoff, Hpr, Hpa, Hpc, Hop.
  - intros content stations Hparse.
    destruct (stacksLoop_inv
                (fun sts merged added k =>
                   0 <= merged /\ 0 <= added /\ merged + added = Z.of_nat k /\
                   Z.of_nat (length sts) =
                     Z.of_nat (length (Stations xf)) + added)
                xf stations)
      as (sts & merged & added & Hloop & Hkeep & Hm & Ha & Hsum & Hlen).
    { lia. }
    { intros sts merged added k incoming sts' matched _ (Hm & Ha & Hs & Hl) Has.
      apply mergesAs_length in Has. destruct matched; lia. }
    exists merged, added. eexists. unfold MergeStacksFile.
    rewrite Hparse, Hloop. split; [done|].
    pose proof (rederive_sameButSTNo (withStations xf sts)) as Hc.
    repeat (split; [done|]). done.
Qed.
(** ** Merging: the ids *)

Lemma largestID_nonneg (sts : list XStation.t) : 0 <= largestID sts.
Proof. unfold largestID. induction sts; simpl; lia. Qed.

Lemma largestID_ge (sts : list XStation.t) (s : XStation.t) :
  s ∈ sts -> XStation.ID s <= largestID sts.
Proof.
  unfold largestID. induction sts as [|x l IH]; intros Hs; [inversion Hs|].
  apply elem_of_cons in Hs as [->|Hs]; simpl; [lia|]. specialize (IH Hs). lia.
Qed.

Lemma largestID_app (a b : list XStation.t) :
  largestID (a ++ b) = Z.max (largestID a) (largestID b).
Proof.
  pose proof (largestID_nonneg b). unfold largestID in *.
  induction a as [|x l IH]; simpl; [lia|]. rewrite IH. lia.
Qed.

Lemma wrap64_small (z : Z) :
  strconv.minInt <= z <= strconv.maxInt -> wrap64 z = z.
Proof.
  unfold wrap64, strconv.minInt, strconv.maxInt. intros H.
  rewrite Z.mod_small; lia.
Qed.

Lemma replacement_ID keepNo incoming e :
  XStation.ID (replacement keepNo incoming e) = XStation.ID e.
Proof. by destruct keepNo. Qed.

Lemma mergesAs_ids keepNo orig sts incoming sts' (matched : bool) :
  mergesAs keepNo orig sts incoming sts' matched ->
  largestID sts < strconv.maxInt ->
  map XStation.ID sts' =
    (if matched then map XStation.ID sts
     else map XStation.ID sts ++ [largestID sts + 1]).
Proof.
  intros [(_ & idx & e & _ & He & -> & ->)|(_ & -> & ->)] Hmax.
  - change (map ?f) with (fmap (M:=list) f).
    rewrite list_fmap_insert, replacement_ID. apply list_insert_id.
    by rewrite list_lookup_fmap, He.
  - rewrite map_app. simpl. do 2 f_equal. apply wrap64_small.
    pose proof (largestID_nonneg sts).
    unfold strconv.minInt, strconv.maxInt in *. lia.
Qed.

Lemma largestID_ids (a b : list XStation.t) :
  map XStation.ID a = map XStation.ID b -> largestID a = largestID b.
Proof. unfold largestID. by intros ->. Qed.

Lemma mergesAs_distinct keepNo orig sts incoming sts' (matched : bool) :
  mergesAs keepNo orig sts incoming sts' matched ->
  largestID sts < strconv.maxInt ->
  NoDup (map XStation.ID sts) ->
  NoDup (map XStation.ID sts') /\ largestID sts' <= largestID sts + 1.
Proof.
  intros Hm Hmax Hnd. pose proof (mergesAs_ids _ _ _ _ _ _ Hm Hmax) as Hids.
  destruct matched.
  - rewrite Hids. split; [done|]. rewrite (largestID_ids _ _ Hids). lia.
  - rewrite Hids. split.
    + apply NoDup_app. split; [done|]. split; [|apply NoDup_singleton].
      intros id Hid Hnew. apply list_elem_of_singleton in Hnew as ->.
      apply list_elem_of_fmap in Hid as (s & Heq & Hs).
      apply largestID_ge in Hs. lia.
    + destruct Hm as [(_ & _ & _ & _ & _ & ? & _)|(_ & _ & ->)]; [done|].
      rewrite largestID_app. unfold largestID at 2. simpl.
      pose proof (largestID_nonneg sts).
      rewrite wrap64_small; unfold strconv.minInt, strconv.maxInt in *; lia.
Qed.

(** X7: when the ids of the model's feeders are distinct, and so far below
    the largest [int] that the new ids do not wrap around, the ids are
    distinct after a merge: a replaced feeder keeps the id that was there, and
    an appended one gets an id above all others. *)
Theorem merge_keeps_ids_distinct (xf : XFile) (stations : list XStation.t)
  (filename content : gostring) :
  NoDup (map XStation.ID (Stations xf)) ->
  largestID (Stations xf) + Z.of_nat (length stations) <= strconv.maxInt ->
  (exists merged xf',
     MergeStationsIntoXFile stations filename xf = Some (merged, xf') /\
     NoDup (map XStation.ID (Stations xf'))) /\
  (ParseStack content = Ok stations ->
   exists counts xf',
     MergeStacksFile content xf = Some (Ok counts, xf') /\
     NoDup (map XStation.ID (Stations xf'))).
Proof.
  intros Hnd Hmax.
  set (P := fun (sts : list XStation.t) (k : nat) =>
              (k <= length stations)%nat ->
              NoDup (map XStation.ID sts) /\
              largestID sts <= largestID (Stations xf) + Z.of_nat k).
  assert (forall keepNo sts k incoming sts' (matched : bool),
            P sts k ->
            mergesAs keepNo (Stations xf) sts incoming sts' matched ->
            P sts' (S k)) as Hstep.
  { intros keepNo sts k incoming sts' matched HP Has Hk.
    destruct HP as [Hn Hl]; [lia|].
    eapply mergesAs_distinct in Has as [Hn' Hl']; [|lia|done].
    split; [done | lia]. }
  assert (P (Stations xf) 0%nat) as H0 by (intros _; split; [done | lia]).
  split.
  - destruct (mergeLoop_inv (fun sts _ k => P sts k) xf stations)
      as (sts & merged & Hloop & _ & HP); [done|by eauto|].
    destruct HP as [Hnd' _]; [done|].
    exists merged. eexists. unfold MergeStationsIntoXFile. rewrite Hloop.
    split; [done|].
    change (Stations (rederiveComponentSTNo ?x)) with (Stations x).
    by rewrite (proj1 (proj2 (proj2 (proj2 (proj2 (addStackFile_frame _ _)))))).
  - intros Hparse.
    destruct (stacksLoop_inv (fun sts _ _ k => P sts k) xf stations)
      as (sts & merged & added & Hloop & _ & HP); [done|by eauto|].
    destruct HP as [Hnd' _]; [done|].
    exists (merged, added). eexists. unfold MergeStacksFile.
    rewrite Hparse, Hloop. split; [done|]. done.
Qed.

(** X17: the id of an appended feeder is the largest id plus one, whatever
    range that falls in: when the largest id is 99 or more, a feeder that is
    to be placed and matches no note is appended with a reserved id, and the
    model no longer passes the validation, under any file name. *)
Theorem merge_allocates_reserved_id (xf : XFile) (incoming : XStation.t)
  (filename target : gostring) :
  99 <= largestID (Stations xf) < strconv.maxInt ->
  XStation.DNP incoming = false ->
  XStation.Note incoming = [] \/ noNote (XStation.Note incoming) (Stations xf) ->
  exists xf',
    MergeStationsIntoXFile [incoming] filename xf = Some (0, xf') /\
    Stations xf' =
      Stations xf ++
      [XStation.withNo
         (XStation.withID incoming (largestID (Stations xf) + 1))
         (Z.of_nat (length (Stations xf)))] /\
    Valid (validation xf' target) = false.
Proof.
  intros Hmax Hdnp Hnote.
  destruct (mergeStation_mergesAs (Stations xf) (Stations xf) 0 incoming
              (keepsOriginals_refl _)) as (sts' & matched & Hs & Hm & _).
  destruct Hm as [(Hne & idx & e & [(o & Ho & Heq) _] & _)|(_ & -> & ->)].
  { exfalso. destruct Hnote as [?|Hno]; [done|].
    apply (Hno o); [|done]. by eapply list_elem_of_lookup_2. }
  rewrite wrap64_small in Hs
    by (unfold strconv.minInt, strconv.maxInt in *; lia).
  eexists. unfold MergeStationsIntoXFile, mergeLoop. cbn [fold_left].
  rewrite Hs.
  split; [done|].
  change (Stations (rederiveComponentSTNo ?x)) with (Stations x).
  rewrite (proj1 (proj2 (proj2 (proj2 (proj2 (addStackFile_frame _ _)))))).
  split; [done|].
  destruct (Valid _) eqn:Hv; [|done]. exfalso.
  apply validation_exportable in Hv as (_ & Hst & _).
  rewrite Forall_forall in Hst.
  set (new := XStation.withNo _ _) in *.
  destruct (Hst new) as [Hid _]; [|simpl in Hid; lia].
  unfold activeStationsOf. apply elem_of_filter_bool.
  change (Stations (rederiveComponentSTNo ?x)) with (Stations x).
  rewrite (proj1 (proj2 (proj2 (proj2 (proj2 (addStackFile_frame _ _)))))).
  split; [apply elem_of_app; right; left|].
  simpl. by rewrite Hdnp.
Qed.

Lemma existsb_elem_of (filename : gostring) (l : list gostring) :
  existsb (fun f => bool_decide (f = filename)) l = bool_decide (filename ∈ l).
Proof.
  induction l as [|x l IH]; simpl; [done|]. rewrite IH.
  destruct (decide (x = filename)) as [->|Hne].
  - rewrite bool_decide_eq_true_2 by done. simpl. symmetry.
    apply bool_decide_eq_true_2. by left.
  - rewrite (bool_decide_eq_false_2 (x = filename)) by done. simpl.
    apply bool_decide_ext. rewrite elem_of_cons. split; [by right|].
    by intros [?|?].
Qed.

(** X18: the list of stack files a merge leaves has the file name at its
    end if the name is not empty and was not yet in the list, and is the old
    list otherwise; so it never gets the empty name, nor one name twice. *)
Theorem MergeStationsIntoXFile_stack_files (xf : XFile)
  (stations : list XStation.t) (filename : gostring) :
  exists merged xf',
    MergeStationsIntoXFile stations filename xf = Some (merged, xf') /\
    StackFiles xf' =
      (if bool_decide (filename = [] \/ filename ∈ StackFiles xf)
       then StackFiles xf else StackFiles xf ++ [filename]) /\
    (NoDup (StackFiles xf) -> NoDup (StackFiles xf')) /\
    ([] ∉ StackFiles xf -> [] ∉ StackFiles xf').
Proof.
  destruct (mergeLoop_total xf stations) as (sts & merged & Hloop & _).
  exists merged. eexists. unfold MergeStationsIntoXFile. rewrite Hloop.
  split; [done|].
  change (StackFiles (rederiveComponentSTNo ?x)) with (StackFiles x).
  unfold addStackFile. destruct filename as [|c f].
  { rewrite bool_decide_eq_true_2 by (by left). done. }
  change (StackFiles (withStations xf sts)) with (StackFiles xf).
  rewrite existsb_elem_of.
  destruct (decide (c :: f ∈ StackFiles xf)) as [Hin|Hnin].
  - rewrite !bool_decide_eq_true_2 by (done || by right). done.
  - rewrite !bool_decide_eq_false_2 by (done || by intros [?|?]).
    cbn [StackFiles withStackFiles]. split; [done|]. split.
    + intros Hnd. apply NoDup_app. split; [done|].
      split; [|apply NoDup_singleton].
      intros x Hx Hx'. by apply list_elem_of_singleton in Hx' as ->.
    + intros Hno Hin. apply elem_of_app in Hin as [?|Hin]; [done|].
      by apply list_elem_of_singleton in Hin.
Qed.
(** ** ConvertPOSToXFile: the feeders and what the placements refer to *)

Lemma collectVals_spec (rows : list POSRow.t) :
  NoDup (collectVals rows).2 /\
  (forall v, v ∈ (collectVals rows).2 <->
             v <> [] /\ exists row, row ∈ rows /\ POSRow.Val row = v) /\
  (forall v id, (collectVals rows).1 !! v = Some id <->
                exists k : nat, (collectVals rows).2 !! k = Some v /\
                                id = Z.of_nat k + 1).
Proof.
  unfold collectVals. induction rows as [|x l IH] using rev_ind.
  - simpl. split; [constructor|]. split.
    + intros v. split; [intros H; inversion H|].
      intros (_ & row & Hrow & _). inversion Hrow.
    + intros v id. rewrite lookup_empty. split; [done|].
      intros (k & Hk & _). by rewrite lookup_nil in Hk.
  - rewrite fold_left_app. cbn [fold_left].
    destruct (fold_left _ l (∅, [])) as [m u]. simpl in IH.
    destruct IH as (Hnd & Hmem & Hmap).
    assert (forall v, (v <> [] /\ exists row, row ∈ l ++ [x] /\ POSRow.Val row = v)
                      <-> v ∈ u \/ (v <> [] /\ POSRow.Val x = v)) as Hsplit.
    { intros v. rewrite Hmem. split.
      - intros (Hne & row & Hrow & Hv). apply elem_of_app in Hrow as [Hrow|Hrow].
        + left. split; [done|]. by exists row.
        + apply list_elem_of_singleton in Hrow as ->. by right.
      - intros [(Hne & row & Hrow & Hv)|(Hne & Hv)]; (split; [done|]).
        + exists row. split; [|done]. apply elem_of_app. by left.
        + exists x. split; [|done]. apply elem_of_app. right. by left. }
    destruct (POSRow.Val x) as [|c v0] eqn:Hval.
    { simpl. split; [done|]. split; [|done]. intros v. rewrite Hsplit.
      split; [by left|]. intros [?|[? ?]]; [done|congruence]. }
    destruct (m !! (c :: v0)) as [id0|] eqn:Hlook.
    { simpl. split; [done|]. split; [|done]. intros v. rewrite Hsplit.
      split; [by left|]. intros [?|[_ <-]]; [done|].
      apply Hmap in Hlook as (k & Hk & _). by eapply list_elem_of_lookup_2. }
    assert (c :: v0 ∉ u) as Hnew.
    { intros Hin. apply list_elem_of_lookup in Hin as [k Hk].
      assert (m !! (c :: v0) = Some (Z.of_nat k + 1)) as Hs
        by (apply Hmap; by exists k).
      congruence. }
    simpl. split; [|split].
    + apply NoDup_app. split; [done|]. split; [|apply NoDup_singleton].
      intros v Hv Hv'. by apply list_elem_of_singleton in Hv' as ->.
    + intros v. rewrite Hsplit, elem_of_app, list_elem_of_singleton.
      split; [intros [?| ->]; [by left | by right]|].
      intros [?|[_ <-]]; [by left | by right].
    + intros v id. destruct (decide (v = c :: v0)) as [->|Hne].
      * rewrite lookup_insert_eq. split.
        -- intros [= <-]. exists (length u).
           by rewrite lookup_app_r, Nat.sub_diag by lia.
        -- intros (k & Hk & ->). f_equal.
           apply lookup_app_Some in Hk as [Hk|[Hge Hk]].
           ++ exfalso. apply Hnew. by eapply list_elem_of_lookup_2.
           ++ apply list_lookup_singleton_Some in Hk as [Hk _]. f_equal. lia.
      * rewrite lookup_insert_ne by done. rewrite Hmap. split.
        -- intros (k & Hk & ->). exists k. split; [|done].
           apply lookup_app_Some. by left.
        -- intros (k & Hk & ->). exists k. split; [|done].
           apply lookup_app_Some in Hk as [Hk|[Hge Hk]]; [done|].
           apply list_lookup_singleton_Some in Hk as [_ Hk]. congruence.
Qed.

Lemma ConvertPOSToXFile_tables (pos : POSData) (filename : gostring)
  (now : Time) :
  Stations (ConvertPOSToXFile pos filename now) =
    imap (fun k v => stationOfVal (Z.of_nat k) v) (collectVals (Rows pos)).2 /\
  Components (ConvertPOSToXFile pos filename now) =
    imap (fun i row => componentOfRow (collectVals (Rows pos)).1 (Z.of_nat i) row)
         (Rows pos).
Proof.
  unfold ConvertPOSToXFile. destruct (collectVals (Rows pos)) as [m u].
  cbn [Stations Components NewXFile fst snd]. unfold range.
  by rewrite !rangeFrom_snoc.
Qed.

Lemma imap_notes (u : list gostring) (i : nat) :
  map XStation.Note (imap (fun k v => stationOfVal (Z.of_nat (i + k)) v) u) = u.
Proof.
  revert i. induction u as [|v u IH]; intros i; simpl; [done|]. f_equal.
  rewrite <- (IH (S i)) at 2. f_equal. apply imap_ext. intros k x _. simpl.
  by rewrite Nat.add_succ_r.
Qed.

Lemma stations_notes (u : list gostring) :
  map XStation.Note (imap (fun k v => stationOfVal (Z.of_nat k) v) u) = u.
Proof. apply (imap_notes u 0). Qed.

(** X4: [ConvertPOSToXFile] makes one feeder for every value label that is
    not empty, whatever the number of rows that have it: the notes of the
    feeders are distinct, feeder [k] has No [k], id [k + 1] and the default
    settings; and one placement for every row, in order, numbered like the
    rows, which refers to the feeder whose note is the row's value label when
    that label is not empty. *)
Theorem ConvertPOSToXFile_links (pos : POSData) (filename : gostring)
  (now : Time) :
  let xf := ConvertPOSToXFile pos filename now in
  NoDup (map XStation.Note (Stations xf)) /\
  (forall v, v ∈ map XStation.Note (Stations xf) <->
             v <> [] /\ exists row, row ∈ Rows pos /\ POSRow.Val row = v) /\
  (forall (k : nat) s, Stations xf !! k = Some s ->
                       s = stationOfVal (Z.of_nat k) (XStation.Note s)) /\
  length (Components xf) = length (Rows pos) /\
  (forall (i : nat) row, Rows pos !! i = Some row ->
     exists c, Components xf !! i = Some c /\
               XComponent.No c = Z.of_nat i /\
               XComponent.ID c = Z.of_nat i + 1 /\
               XComponent.Explain c = POSRow.Val row /\
               XComponent.DeltX c = POSRow.PosX row /\
               XComponent.DeltY c = POSRow.PosY row /\
               XComponent.Angle c = POSRow.Rot row /\
               XComponent.DNP c = false /\
               (POSRow.Val row <> [] ->
                exists s, s ∈ Stations xf /\
                          XStation.Note s = POSRow.Val row /\
                          XStation.ID s = XComponent.STNo c)).
Proof.
  intros xf. unfold xf.
  destruct (ConvertPOSToXFile_tables pos filename now) as [-> ->].
  destruct (collectVals_spec (Rows pos)) as (Hnd & Hmem & Hmap).
  rewrite stations_notes. split; [done|]. split; [done|]. split; [|split].
  - intros k s Hk. apply list_lookup_imap_Some in Hk as (v & Hv & ->). done.
  - by rewrite length_imap.
  - intros i row Hi. eexists. split.
    { rewrite list_lookup_imap, Hi. reflexivity. }
    repeat (split; [reflexivity|]). intros Hne. simpl.
    assert (POSRow.Val row ∈ (collectVals (Rows pos)).2) as Hin.
    { apply Hmem. split; [done|]. exists row. split; [|done].
      by eapply list_elem_of_lookup_2. }
    apply list_elem_of_lookup in Hin as [k Hk].
    assert ((collectVals (Rows pos)).1 !! POSRow.Val row =
            Some (Z.of_nat k + 1)) as -> by (apply Hmap; by exists k).
    exists (stationOfVal (Z.of_nat k) (POSRow.Val row)).
    split; [|done]. apply list_elem_of_lookup. exists k.
    by rewrite list_lookup_imap, Hk.
Qed.
Lemma filter_all {A : Type} (p : A -> bool) (l : list A) :
  Forall (fun x => p x = true) l -> List.filter p l = l.
Proof.
  induction 1 as [|x l Hx _ IH]; simpl; [done|]. by rewrite Hx, IH.
Qed.

Lemma converted_ids (u : list gostring) (id : Z) :
  id ∈ map XStation.ID (imap (fun k v => stationOfVal (Z.of_nat k) v) u) <->
  exists k : nat, (k < length u)%nat /\ id = Z.of_nat k + 1.
Proof.
  rewrite list_elem_of_fmap. split.
  - intros (s & -> & Hs). apply list_elem_of_lookup in Hs as [k Hk].
    apply list_lookup_imap_Some in Hk as (v & Hv & ->).
    exists k. split; [by eapply lookup_lt_Some | done].
  - intros (k & Hk & ->). apply lookup_lt_is_Some_2 in Hk as [v Hv].
    exists (stationOfVal (Z.of_nat k) v). split; [done|].
    apply list_elem_of_lookup. exists k. by rewrite list_lookup_imap, Hv.
Qed.

(** X5: the model [ConvertPOSToXFile] makes passes the validation, under a
    file name, exactly when the name is not empty, the value labels gave at
    most 99 feeders, and there is a feeder unless there is no row at all:
    from the hundredth on the ids are reserved, and the placement of a row
    without a value label refers to feeder 1. *)
Theorem ConvertPOSToXFile_validates (pos : POSData) (filename : gostring)
  (now : Time) (target : gostring) :
  let xf := ConvertPOSToXFile pos filename now in
  Valid (validation xf target) = true <->
  target <> [] /\ (length (Stations xf) <= 99)%nat /\
  (Rows pos = [] \/ Stations xf <> []).
Proof.
  intros xf. rewrite validation_exportable. unfold exportable, xf.
  assert (panelOK (ConvertPOSToXFile pos filename now)) as Hpanel.
  { unfold panelOK, ConvertPOSToXFile.
    destruct (collectVals (Rows pos)). simpl. lia. }
  destruct (ConvertPOSToXFile_tables pos filename now) as [Hst Hcs].
  destruct (collectVals_spec (Rows pos)) as (Hnd & Hmem & Hmap).
  unfold activeStationsOf, activeComponentsOf. rewrite Hst, Hcs.
  set (m := (collectVals (Rows pos)).1) in *.
  set (u := (collectVals (Rows pos)).2) in *.
  rewrite !filter_all.
  2: { apply Forall_forall. intros c Hc.
       apply list_elem_of_lookup in Hc as [i Hi].
       by apply list_lookup_imap_Some in Hi as (row & _ & ->). }
  2: { apply Forall_forall. intros s Hs.
       apply list_elem_of_lookup in Hs as [k Hk].
       by apply list_lookup_imap_Some in Hk as (v & _ & ->). }
  rewrite length_imap, !Forall_forall. split.
  - intros (_ & Hsts & Hcomps & _ & Hname). split; [done|]. split.
    + destruct (decide (length u <= 99)%nat) as [?|Hbig]; [done|]. exfalso.
      destruct (lookup_lt_is_Some_2 u 99) as [v Hv]; [lia|].
      destruct (Hsts (stationOfVal (Z.of_nat 99) v)) as [Hid _]; [|simpl in Hid; lia].
      apply list_elem_of_lookup. exists 99%nat.
      by rewrite list_lookup_imap, Hv.
    + destruct (Rows pos) as [|row rows] eqn:Hrows; [by left|]. right.
      destruct (Hcomps (componentOfRow m (Z.of_nat 0) row)) as (_ & Hid & _).
      { apply list_elem_of_lookup. exists 0%nat. done. }
      apply converted_ids in Hid as (k & Hk & _).
      destruct u; [simpl in Hk; lia | done].
  - intros (Hname & Hlen & Hrows). split; [|split; [|split; [|done]]].
    + apply NoDup_alt. intros i j id Hi Hj.
      rewrite list_lookup_fmap, list_lookup_imap in Hi, Hj.
      destruct (u !! i); [|done]. destruct (u !! j); [|done].
      simpl in Hi, Hj. injection Hi as <-. injection Hj as Hj. lia.
    + intros s Hs. apply list_elem_of_lookup in Hs as [k Hk].
      pose proof (lookup_lt_Some _ _ _ Hk) as Hlt. rewrite length_imap in Hlt.
      apply list_lookup_imap_Some in Hk as (v & _ & ->).
      unfold stationOK. split; [simpl; lia|]. split; [simpl; lia|].
      split; [by left|]. split; [by left|]. split; [simpl; lia|].
      split; reflexivity.
    + intros c Hc. apply list_elem_of_lookup in Hc as [i Hi].
      apply list_lookup_imap_Some in Hi as (row & Hrow & ->).
      unfold componentOK. simpl. split; [by left|]. split; [|by left].
      apply converted_ids. destruct (m !! POSRow.Val row) as [id|] eqn:Hlook.
      * apply Hmap in Hlook as (k & Hk & ->). exists k.
        split; [by eapply lookup_lt_Some | done].
      * exists 0%nat. split; [|done].
        destruct Hrows as [Hnil|Hne]; [by rewrite Hnil in Hrow|].
        destruct u; [done | simpl; lia].
Qed.
(** ** ParsePOS: the comma-separated format and the rows *)

Lemma namesColumn_ref (cells : list gostring) :
  is_Some (buildColumnMap cells !! $"ref") <-> namesColumn refSynonyms cells.
Proof.
  rewrite buildColumnMap_lookup. unfold namesColumn.
  split; intros (cell & Hin & H); exists cell; (split; [done|]);
    by apply columnKey_ref.
Qed.

Lemma namesColumn_val (cells : list gostring) :
  is_Some (buildColumnMap cells !! $"val") <-> namesColumn valSynonyms cells.
Proof.
  rewrite buildColumnMap_lookup. unfold namesColumn.
  split; intros (cell & Hin & H); exists cell; (split; [done|]);
    by apply columnKey_val.
Qed.

Lemma csvHeaderLine_cases (line : gostring) :
  match strings.TrimSpace line with
  | [] => ~ csvHeaderLine line
  | trimmed =>
      if isComment trimmed then ~ csvHeaderLine line
      else
        match buildColumnMap (parseCSVLine trimmed) !! $"ref",
              buildColumnMap (parseCSVLine trimmed) !! $"val" with
        | Some _, Some _ => csvHeaderLine line
        | _, _ => ~ csvHeaderLine line
        end
  end.
Proof.
  unfold csvHeaderLine.
  destruct (strings.TrimSpace line) as [|c t] eqn:Ht; [by intros [? _]|].
  destruct (isComment (c :: t)) eqn:Hc; [by intros (_ & ? & _)|].
  pose proof (namesColumn_ref (parseCSVLine (c :: t))) as Href.
  pose proof (namesColumn_val (parseCSVLine (c :: t))) as Hval.
  destruct (buildColumnMap _ !! $"ref") as [i|].
  2: { intros (_ & _ & H & _). apply Href in H. by destruct H. }
  destruct (buildColumnMap _ !! $"val") as [j|].
  2: { intros (_ & _ & _ & H). apply Hval in H. by destruct H. }
  split; [done|]. split; [done|]. split; [apply Href | apply Hval]; by eexists.
Qed.

Lemma findCSVHeader_spec (lines : list gostring) (i : nat) :
  match findCSVHeader lines i with
  | None => forall line, line ∈ lines -> ~ csvHeaderLine line
  | Some (idx, line) =>
      exists k : nat,
        idx = (i + k)%nat /\ lines !! k = Some line /\ csvHeaderLine line /\
        forall (j : nat) l, (j < k)%nat -> lines !! j = Some l -> ~ csvHeaderLine l
  end.
Proof.
  revert i. induction lines as [|line rest IH]; intros i; simpl.
  { intros line Hin. inversion Hin. }
  pose proof (csvHeaderLine_cases line) as Hcase.
  assert (match findCSVHeader rest (S i) with
          | None => forall l, l ∈ rest -> ~ csvHeaderLine l
          | Some (idx, l0) =>
              exists k : nat,
                idx = (S i + k)%nat /\ rest !! k = Some l0 /\ csvHeaderLine l0 /\
                forall (j : nat) l, (j < k)%nat -> rest !! j = Some l ->
                                    ~ csvHeaderLine l
          end ->
          ~ csvHeaderLine line ->
          match findCSVHeader rest (S i) with
          | None => forall l, l ∈ line :: rest -> ~ csvHeaderLine l
          | Some (idx, l0) =>
              exists k : nat,
                idx = (i + k)%nat /\ (line :: rest) !! k = Some l0 /\
                csvHeaderLine l0 /\
                forall (j : nat) l, (j < k)%nat -> (line :: rest) !! j = Some l ->
                                    ~ csvHeaderLine l
          end) as Hskip.
  { intros Hrest Hno. destruct (findCSVHeader rest (S i)) as [[idx l0]|].
    - destruct Hrest as (k & -> & Hk & Hh & Hbefore). exists (S k).
      split; [lia|]. split; [done|]. split; [done|].
      intros [|j] l Hj Hl; simpl in Hl; [congruence|].
      apply (Hbefore j); [lia | done].
    - intros l Hl. apply elem_of_cons in Hl as [->|Hl]; [done | by apply Hrest]. }
  specialize (IH (S i)).
  destruct (strings.TrimSpace line) as [|c t]; [exact (Hskip IH Hcase)|].
  cbv zeta in Hcase.
  destruct (isComment (c :: t)); [exact (Hskip IH Hcase)|].
  destruct (buildColumnMap _ !! $"ref") as [iref|]; [|exact (Hskip IH Hcase)].
  destruct (buildColumnMap _ !! $"val") as [ival|]; [|exact (Hskip IH Hcase)].
  exists 0%nat. split; [lia|]. split; [done|]. split; [done|]. intros; lia.
Qed.

Lemma fold_left_Forall {A B : Type} (P : B -> Prop)
  (f : list B -> A -> list B) (l : list A) (acc : list B) :
  (forall acc x, Forall P acc -> Forall P (f acc x)) ->
  Forall P acc -> Forall P (fold_left f l acc).
Proof.
  intros Hf. revert acc. induction l as [|x l IH]; intros acc Hacc; simpl;
    [done|]. by apply IH, Hf.
Qed.

Lemma rowsOf_refs (split : gostring -> list gostring)
  (colMap : gmap gostring nat) (dataLines : list gostring) :
  Forall (fun row => POSRow.Ref row <> []) (rowsOf split colMap dataLines).
Proof.
  unfold rowsOf. apply fold_left_Forall; [|constructor].
  intros acc line Hacc. destruct (split line) as [|f fs]; [done|].
  destruct (POSRow.Ref _) eqn:Href; [done|].
  apply Forall_app. split; [done|]. apply Forall_singleton. by rewrite Href.
Qed.

(** X12: whatever the format, the data [ParsePOS] returns has a header cell
    that names the reference designator and one that names the value, and
    every row of it has a reference designator: a line without one is left
    out. *)
Theorem ParsePOS_rows_have_ref (text : gostring) :
  match ParsePOS text with
  | Ok data =>
      namesColumn refSynonyms (Headers data) /\
      namesColumn valSynonyms (Headers data) /\
      Forall (fun row => POSRow.Ref row <> []) (Rows data)
  | Err _ => True
  end.
Proof.
  unfold ParsePOS. destruct (_ && _).
  - unfold parseCSVFormat.
    pose proof (findCSVHeader_spec (csvLines text) 0) as Hfind.
    unfold csvLines in Hfind.
    destruct (findCSVHeader _ 0) as [[idx line]|]; [|done].
    destruct Hfind as (k & _ & _ & (_ & _ & Href & Hval) & _).
    cbn [Headers Rows]. split; [done|]. split; [done|]. apply rowsOf_refs.
  - pose proof (parseKiCadFormat_result text) as Hres.
    assert (match parseKiCadFormat text with
            | Ok data => Forall (fun row => POSRow.Ref row <> []) (Rows data)
            | Err _ => True
            end) as Hrows.
    { unfold parseKiCadFormat.
      destruct (findHeaderLine _) as [headerLine idx].
      destruct headerLine; [done|].
      destruct (splitByWhitespace _); [done|].
      destruct (buildColumnMap _ !! $"ref"); [|done].
      destruct (buildColumnMap _ !! $"val"); [|done].
      apply rowsOf_refs. }
    destruct (parseKiCadFormat text) as [data|msg]; [|done].
    destruct Hres as (header & _ & Href & Hval & ->). done.
Qed.

(** X11: a text that [ParsePOS] takes for the comma-separated format (it
    has a comma, and no comment marker in front after its leading white space)
    fails to parse exactly when none of its lines, neither blank nor a
    comment, has a cell that names the reference designator and one that
    names the value.  Otherwise the first such line gives the headers, cut at
    the commas, and the lines before it are not read. *)
Theorem ParsePOS_csv_format (text : gostring) :
  strings.Contains text $"," &&
    negb (strings.HasPrefix (strings.TrimSpace text) $"#") = true ->
  match ParsePOS text with
  | Err msg =>
      msg = $"could not find KiCad POS header row (need Ref, Val columns)" /\
      forall line, line ∈ csvLines text -> ~ csvHeaderLine line
  | Ok data =>
      exists (k : nat) line,
        csvLines text !! k = Some line /\ csvHeaderLine line /\
        (forall (j : nat) l, (j < k)%nat -> csvLines text !! j = Some l ->
                             ~ csvHeaderLine l) /\
        Headers data = parseCSVLine (strings.TrimSpace line) /\
        Rows data =
          rowsOf parseCSVLine (buildColumnMap (Headers data))
                 (csvDataLines (csvLines text) k)
  end.
Proof.
  intros Hfmt. unfold ParsePOS. rewrite Hfmt. unfold parseCSVFormat.
  fold (csvLines text).
  pose proof (findCSVHeader_spec (csvLines text) 0) as Hfind.
  destruct (findCSVHeader _ 0) as [[idx line]|]; [|done].
  destruct Hfind as (k & -> & Hk & Hh & Hbefore).
  exists k, line. done.
Qed.
(** ** Escaping a field and reading it back *)

Lemma csvLineFields_nonempty (line : gostring) (q : bool) :
  csvLineFields line q <> [].
Proof.
  assert (forall (n : nat) line q, (length line <= n)%nat ->
                                   csvLineFields line q <> []) as H.
  { clear. induction n as [|n IH]; intros [|c r] q Hlen; simpl in *;
      try done; try lia.
    assert (forall a l, csv.push a l <> []) as Hpush by (by intros ? [|? ?]).
    destruct (Ascii.eqb c dquote).
    - destruct q; [|apply IH; lia].
      destruct r as [|c' r']; [done|].
      destruct (Ascii.eqb c' dquote); [apply Hpush|].
      apply IH. simpl in *. lia.
    - destruct (_ && _); [done | apply Hpush]. }
  by apply (H (length line)).
Qed.

Lemma push_prepend (c : ascii) (f : gostring) (l : list gostring) :
  l <> [] -> csv.push c (prepend f l) = prepend (c :: f) l.
Proof. by destruct l. Qed.

Lemma prepend_nil (l : list gostring) : l <> [] -> prepend [] l = l.
Proof. by destruct l. Qed.

Lemma csvLineFields_bare (f r : gostring) :
  strings.ContainsAny f [","%char; dquote; CR; LF] = false ->
  csvLineFields (f ++ r) false = prepend f (csvLineFields r false).
Proof.
  induction f as [|c f IH]; intros Hf.
  - simpl. symmetry. apply prepend_nil, csvLineFields_nonempty.
  - unfold strings.ContainsAny in Hf. simpl in Hf.
    apply orb_false_iff in Hf as [Hc Hf].
    apply orb_false_iff in Hc as [Hcomma Hc].
    apply orb_false_iff in Hc as [Hquote _].
    simpl. rewrite Hquote, Hcomma. simpl. rewrite IH by done.
    apply push_prepend, csvLineFields_nonempty.
Qed.

Lemma csvLineFields_quoted (f r : gostring) :
  r = [] \/ (exists r', r = ","%char :: r') ->
  csvLineFields (strings.ReplaceAll f dquote [dquote; dquote] ++ dquote :: r)
                true =
  prepend f (csvLineFields r false).
Proof.
  intros Hr. induction f as [|c f IH].
  - simpl. rewrite prepend_nil by apply csvLineFields_nonempty.
    destruct Hr as [->|[r' ->]]; reflexivity.
  - unfold strings.ReplaceAll in *. simpl.
    destruct (Ascii.eqb c dquote) eqn:Hc.
    + apply Ascii.eqb_eq in Hc as ->. simpl. rewrite IH.
      apply push_prepend, csvLineFields_nonempty.
    + simpl. rewrite Hc. simpl. rewrite IH, andb_false_r.
      apply push_prepend, csvLineFields_nonempty.
Qed.

Lemma csvLineFields_escaped (f r : gostring) :
  r = [] \/ (exists r', r = ","%char :: r') ->
  csvLineFields (csvEscape f ++ r) false = prepend f (csvLineFields r false).
Proof.
  intros Hr. unfold csvEscape.
  destruct (strings.ContainsAny f _) eqn:Hf; [|by apply csvLineFields_bare].
  rewrite <- !app_assoc. cbn [app csvLineFields].
  rewrite (proj2 (Ascii.eqb_eq dquote dquote)) by done.
  destruct Hr as [->|[r' ->]].
  - rewrite <- (csvLineFields_quoted f []) by (by left). reflexivity.
  - rewrite <- (csvLineFields_quoted f (","%char :: r')) by (right; by eexists).
    reflexivity.
Qed.

Lemma csvLineFields_joined (fields : list gostring) :
  fields <> [] ->
  csvLineFields (strings.Join (map csvEscape fields) $",") false = fields.
Proof.
  induction fields as [|f fs IH]; [done|]. intros _.
  destruct fs as [|g fs].
  - simpl. rewrite <- (app_nil_r (csvEscape f)).
    rewrite csvLineFields_escaped by (by left). simpl. by rewrite app_nil_r.
  - change (strings.Join (map csvEscape (f :: g :: fs)) $",")
      with (csvEscape f ++
            ","%char :: strings.Join (map csvEscape (g :: fs)) $",").
    rewrite csvLineFields_escaped by (right; by eexists).
    cbn [csvLineFields]. change (Ascii.eqb "," dquote) with false.
    cbn [Ascii.eqb andb negb]. simpl (Ascii.eqb _ _ && _).
    rewrite IH by done. simpl. by rewrite app_nil_r.
Qed.

(** X13: fields escaped by [csvEscape] and joined by commas are cut by
    [parseCSVLine] into the same fields, each without the white space around
    it: a comma, a quote or a line break inside a field does not split it. *)
Theorem parseCSVLine_csvEscape (fields : list gostring) :
  fields <> [] ->
  parseCSVLine (strings.Join (map csvEscape fields) $",") =
  map strings.TrimSpace fields.
Proof.
  intros Hne. unfold parseCSVLine. by rewrite csvLineFields_joined.
Qed.
Lemma scan_quoted_last (f : gostring) :
  csv.scan (strings.ReplaceAll f dquote [dquote; dquote] ++ [dquote])
           csv.Quoted = Some [f].
Proof.
  induction f as [|c f IH]; [done|].
  unfold strings.ReplaceAll in *. simpl.
  destruct (Ascii.eqb c dquote) eqn:Hc.
  - apply Ascii.eqb_eq in Hc as ->. simpl. by rewrite IH.
  - simpl. by rewrite Hc, IH.
Qed.

Lemma scan_escaped_last (f : gostring) :
  csv.scan (stackCsvEscape f) csv.FieldStart = Some [f].
Proof.
  unfold stackCsvEscape.
  destruct (strings.ContainsAny f _) eqn:Hany.
  - cbn [app csv.scan]. apply scan_quoted_last.
  - by apply scan_last_field, ContainsAny_false_bare.
Qed.

(** X15: fields without a line break in them, escaped by [stackCsvEscape]
    (or [csvEscape], which is the same function) and joined by commas into a
    line that is not empty, are read back by the CSV reader of [ParseStack]
    as the same fields, whatever commas and quotes they hold. *)
Theorem readRecord_stackCsvEscape (fields : list gostring) :
  fields <> [] -> fields <> [[]] ->
  Forall (Forall (fun c => lineByte c = true)) fields ->
  (forall s, csvEscape s = stackCsvEscape s) /\
  csv.readRecord (strings.Join (map stackCsvEscape fields) $",") = Some fields.
Proof.
  intros Hne _ _. split; [done|]. unfold csv.readRecord.
  induction fields as [|f fs IH]; [done|].
  destruct fs as [|g fs]; [apply scan_escaped_last|].
  change (strings.Join (map stackCsvEscape (f :: g :: fs)) $",")
    with (stackCsvEscape f ++
          ","%char :: strings.Join (map stackCsvEscape (g :: fs)) $",").
  by rewrite scan_escaped, IH.
Qed.
(** ** parseStationRow: reading a cell by the name of its column *)

Lemma headerCols_noColumn (header : list gostring) (i : nat)
  (m : gmap gostring nat) (name : gostring) :
  noColumn name header -> headerCols header i m !! name = m !! name.
Proof.
  revert i m. induction header as [|h rest IH]; intros i m Hno; simpl; [done|].
  rewrite IH by (intros x Hx; apply Hno; by right).
  apply lookup_insert_ne. apply Hno. by left.
Qed.

Lemma headerCols_last (header : list gostring) (i : nat)
  (m : gmap gostring nat) (name : gostring) (j : nat) :
  lastColumn name header j -> headerCols header i m !! name = Some (i + j)%nat.
Proof.
  revert i m j. induction header as [|h rest IH]; intros i m j Hlast.
  { destruct Hlast as [(x & Hx & _) _]. by rewrite lookup_nil in Hx. }
  simpl. destruct j as [|j].
  - destruct Hlast as [(x & Hx & Hname) Hlater]. simpl in Hx.
    injection Hx as <-. rewrite headerCols_noColumn.
    + by rewrite Hname, lookup_insert_eq, Nat.add_0_r.
    + intros x Hx. apply list_elem_of_lookup in Hx as [k Hk].
      apply (Hlater (S k)); [lia | done].
  - rewrite (IH (S i) _ j); [f_equal; lia|].
    destruct Hlast as [(x & Hx & Hname) Hlater]. split; [by exists x|].
    intros k y Hk Hy. apply (Hlater (S k)); [lia | done].
Qed.

Lemma lastColumn_or_none (name : gostring) (header : list gostring) :
  noColumn name header \/ exists j, lastColumn name header j.
Proof.
  induction header as [|h rest IH].
  { left. intros x Hx. inversion Hx. }
  destruct IH as [Hno|[j Hj]].
  - destruct (decide (strings.ToLower (strings.TrimSpace h) = name)) as [Heq|Hne].
    + right. exists 0%nat. split; [by exists h|].
      intros [|k] y Hk Hy; [lia|]. apply Hno. by eapply list_elem_of_lookup_2.
    + left. intros x Hx. apply elem_of_cons in Hx as [->|Hx]; [done|].
      by apply Hno.
  - right. exists (S j). destruct Hj as [(x & Hx & Hname) Hlater].
    split; [by exists x|]. intros [|k] y Hk Hy; [lia|].
    apply (Hlater k); [lia | done].
Qed.

(** X16: [parseStationRow] reads the value of a column from the cell under
    the last header cell of that name, the names compared trimmed and in lower
    case, and takes it without the white space around it.  When the header
    has no cell of the name, or the row ends before that cell, the value is
    empty and the field gets its default. *)
Theorem getValue_by_name (header row : list gostring) (name : gostring) :
  (forall idx, lastColumn name header idx ->
     getValue header row name =
       default [] (strings.TrimSpace <$> row !! idx)) /\
  (noColumn name header \/
   (exists idx, lastColumn name header idx /\ (length row <= idx)%nat) ->
   getValue header row name = [] /\
   (forall def, getInt header row name def = def) /\
   (forall def, getFloat header row name def = def)) /\
  (noColumn name header \/ exists idx, lastColumn name header idx).
Proof.
  assert (forall idx, lastColumn name header idx ->
            getValue header row name =
              default [] (strings.TrimSpace <$> row !! idx)) as Hlast.
  { intros idx Hidx. unfold getValue, stationCols.
    rewrite (headerCols_last _ 0 _ _ idx Hidx). simpl.
    by destruct (row !! idx). }
  split; [done|]. split; [|apply lastColumn_or_none].
  intros Hmiss.
  assert (getValue header row name = []) as Hv.
  { destruct Hmiss as [Hno|(idx & Hidx & Hlen)].
    - unfold getValue, stationCols. by rewrite headerCols_noColumn, lookup_empty.
    - rewrite (Hlast idx Hidx). by rewrite lookup_ge_None_2. }
  split; [done|]. unfold getInt, getFloat. by rewrite Hv.
Qed.
(** ** The stacks file read back *)

Lemma tableHeader_all_cols :
  stationCols tableHeader !! $"no." = Some 1%nat /\
  stationCols tableHeader !! $"phead" = Some 3%nat /\
  stationCols tableHeader !! $"feedrates" = Some 6%nat /\
  stationCols tableHeader !! $"height" = Some 8%nat /\
  stationCols tableHeader !! $"speed" = Some 9%nat /\
  stationCols tableHeader !! $"npixsizex" = Some 11%nat /\
  stationCols tableHeader !! $"npixsizey" = Some 12%nat /\
  stationCols tableHeader !! $"heighttake" = Some 13%nat /\
  stationCols tableHeader !! $"delaytake" = Some 14%nat /\
  stationCols tableHeader !! $"npullstripspeed" = Some 15%nat /\
  stationCols tableHeader !! $"nthreshold" = Some 16%nat /\
  stationCols tableHeader !! $"nvisualradio" = Some 17%nat /\
  stationCols tableHeader !! $"sizex" = None /\
  stationCols tableHeader !! $"sizey" = None.
Proof. repeat split; vm_compute; reflexivity. Qed.

Lemma getFloat_f2_default (header row : list gostring) (name : gostring)
  (idx : nat) (x def : float) :
  stationCols header !! name = Some idx -> row !! idx = Some (fmt.f2 x) ->
  getFloat header row name def = reread def x.
Proof.
  intros Hcol Hrow. unfold getFloat, getValue, reread. rewrite Hcol, Hrow.
  rewrite TrimSpace_numberBytes by apply f2_numberBytes.
  pose proof (f2_nonempty x) as Hne.
  destruct (fmt.f2 x) eqn:Htext; [done|].
  by destruct (strconv.ParseFloat _).
Qed.

Lemma getInt_missing (header row : list gostring) (name : gostring) (def : Z) :
  stationCols header !! name = None -> getInt header row name def = def.
Proof. intros H. unfold getInt, getValue. by rewrite H. Qed.

Lemma parseStationRow_reimport (i : Z) (s : XStation.t) :
  strings.TrimSpace (XStation.Note s) = XStation.Note s ->
  inInt i -> intFields s ->
  parseStationRow tableHeader (rowFields i s) = reimport i s.
Proof.
  intros Htrim Hi (Hid & Hph & Hfr & Hsp & Hst & Hpx & Hpy & Hdt & Hps & Hth & Hvr).
  destruct tableHeader_cols as (Cid & Cx & Cy & Cnote & Cstatus).
  destruct tableHeader_all_cols
    as (Cno & Cph & Cfr & Ch & Csp & Cpx & Cpy & Cht & Cdt & Cps & Cth & Cvr &
        Csx & Csy).
  unfold parseStationRow, reimport.
  rewrite (getInt_Itoa tableHeader (rowFields i s) _ 1%nat i _ Cno eq_refl Hi).
  rewrite (getInt_Itoa tableHeader (rowFields i s) _ 2%nat (XStation.ID s) _ Cid eq_refl Hid).
  rewrite (getInt_Itoa tableHeader (rowFields i s) _ 3%nat (XStation.PHead s) _ Cph eq_refl Hph).
  rewrite (getInt_Itoa tableHeader (rowFields i s) _ 6%nat (XStation.FeedRates s) _ Cfr eq_refl Hfr).
  rewrite (getInt_Itoa tableHeader (rowFields i s) _ 9%nat (XStation.Speed s) _ Csp eq_refl Hsp).
  rewrite (getInt_Itoa tableHeader (rowFields i s) _ 10%nat (XStation.Status s) _ Cstatus eq_refl Hst).
  rewrite (getInt_Itoa tableHeader (rowFields i s) _ 11%nat (XStation.NPixSizeX s) _ Cpx eq_refl Hpx).
  rewrite (getInt_Itoa tableHeader (rowFields i s) _ 12%nat (XStation.NPixSizeY s) _ Cpy eq_refl Hpy).
  rewrite (getInt_Itoa tableHeader (rowFields i s) _ 14%nat (XStation.DelayTake s) _ Cdt eq_refl Hdt).
  rewrite (getInt_Itoa tableHeader (rowFields i s) _ 15%nat (XStation.NPullStripSpeed s) _ Cps eq_refl Hps).
  rewrite (getInt_Itoa tableHeader (rowFields i s) _ 16%nat (XStation.NThreshold s) _ Cth eq_refl Hth).
  rewrite (getInt_Itoa tableHeader (rowFields i s) _ 17%nat (XStation.NVisualRadio s) _ Cvr eq_refl Hvr).
  rewrite !getInt_missing by done.
  rewrite (getFloat_f2_default tableHeader (rowFields i s) _ 4%nat (XStation.DeltX s) _ Cx eq_refl).
  rewrite (getFloat_f2_default tableHeader (rowFields i s) _ 5%nat (XStation.DeltY s) _ Cy eq_refl).
  rewrite (getFloat_f2_default tableHeader (rowFields i s) _ 8%nat (XStation.Height s) _ Ch eq_refl).
  rewrite (getFloat_f2_default tableHeader (rowFields i s) _ 13%nat (XStation.HeightTake s) _ Cht eq_refl).
  f_equal. unfold getValue. rewrite Cnote. exact Htrim.
Qed.

Lemma stacksFileRows_active (sts : list XStation.t) (idx : nat) :
  stacksFileRows sts idx =
  stackRows (List.filter (fun s => negb (XStation.DNP s)) sts) idx.
Proof.
  revert idx. induction sts as [|s sts IH]; intros idx; simpl; [done|].
  destruct (XStation.DNP s) eqn:Hdnp; simpl; [apply IH|].
  by rewrite Hdnp, IH.
Qed.

Lemma rowStations_reimport (sts : list XStation.t) (i : nat) :
  Forall (fun s => XStation.DNP s = false /\ plainNote (XStation.Note s) /\
                   intFields s) sts ->
  Z.of_nat (i + length sts) <= strconv.maxInt ->
  rowStations sts i = imap (fun k s => reimport (Z.of_nat (i + k)) s) sts.
Proof.
  intros H. revert i. induction H as [|s sts (Hdnp & Hnote & Hint) _ IH];
    intros i Hlen; cbn [rowStations]; [done|].
  rewrite Hdnp. simpl in Hlen. cbn [imap]. f_equal.
  - rewrite Nat.add_0_r. apply parseStationRow_reimport; [apply Hnote| |done].
    unfold inInt, strconv.minInt, strconv.maxInt in *. lia.
  - rewrite IH by lia. apply imap_ext. intros k x _. simpl.
    by rewrite Nat.add_succ_r.
Qed.

Transparent stackPreamble.

Lemma stacksPreamble_lines :
  stackPreamble $"material.stacks" =
  concat (map (fun l => l ++ CRLF) stacksPreambleLines).
Proof. reflexivity. Qed.

Opaque stackPreamble.

Lemma fold_stackLine_stacksPreamble :
  fold_left stackLine stacksPreambleLines ([], []) = (tableHeader, []).
Proof. vm_compute. reflexivity. Qed.

Lemma ParseStack_GenerateStacksFile_rows xf :
  Forall (fun s => plainNote (XStation.Note s)) (activeStationsOf xf) ->
  ParseStack (GenerateStacksFile xf) =
  match rowStations (activeStationsOf xf) 0 with
  | [] => Err $"no Station data found in stack file"
  | stations => Ok stations
  end.
Proof.
  intros Hnotes. unfold GenerateStacksFile.
  rewrite stacksFileRows_active. fold (activeStationsOf xf).
  rewrite stacksPreamble_lines, stackRows_bodies, <- concat_app, <- map_app.
  unfold ParseStack.
  assert (strings.Contains
            (strings.ToLower
               (concat (map (fun l => l ++ CRLF)
                            (stacksPreambleLines ++
                             rowBodies (activeStationsOf xf) 0))))
            $"separated" = true) as -> by reflexivity.
  cbn [orb negb].
  assert (Forall (Forall (fun c => lineByte c = true))
                 (stacksPreambleLines ++ rowBodies (activeStationsOf xf) 0))
    as Hlines.
  { apply Forall_app. split.
    - repeat (constructor; [by repeat constructor|]). constructor.
    - apply rowBodies_lineBytes. eapply Forall_impl; [exact Hnotes|].
      by intros s Hs _. }
  rewrite ReplaceAll_CR_lines, Split_lines by done.
  rewrite !fold_left_app, fold_stackLine_stacksPreamble, fold_stackLine_rows.
  reflexivity.
Qed.

Lemma ParseStack_GenerateStacksFile_reimport (xf : XFile) :
  activeStationsOf xf <> [] ->
  Forall (fun s => plainNote (XStation.Note s) /\ intFields s)
         (activeStationsOf xf) ->
  Z.of_nat (length (Stations xf)) <= strconv.maxInt ->
  ParseStack (GenerateStacksFile xf) =
  Ok (imap (fun i s => reimport (Z.of_nat i) s) (activeStationsOf xf)).
Proof.
  intros Hsome Hall Hlen.
  rewrite ParseStack_GenerateStacksFile_rows
    by (eapply Forall_impl; [exact Hall|]; by intros s [? _]).
  rewrite (rowStations_reimport _ 0).
  - destruct (activeStationsOf xf); [done|]. reflexivity.
  - apply Forall_forall. intros s Hs. rewrite Forall_forall in Hall.
    destruct (Hall s Hs) as [Hn Hi]. split; [|done].
    apply elem_of_filter_bool in Hs as [_ Hs]. by apply negb_true_iff in Hs.
  - pose proof (List.filter_length_le (fun s => negb (XStation.DNP s))
                  (Stations xf)) as Hle.
    fold (activeStationsOf xf) in Hle. rewrite Nat.add_0_l. lia.
Qed.

(** X10: when the model has a feeder that is to be placed, and the notes of
    such feeders have no line break in them and no white space around them,
    [ParseStack] reads from the text of [GenerateStacksFile] one feeder for
    each of them, in order, numbered from 0, with the note and all the whole
    numbers of the feeder, the head among them; only a negative pixel size
    comes back as 0, the other numbers come back as their two-decimal text is
    read, and the selection mark is cleared. *)
Theorem ParseStack_GenerateStacksFile (xf : XFile) :
  activeStationsOf xf <> [] ->
  Forall (fun s => plainNote (XStation.Note s) /\ intFields s)
         (activeStationsOf xf) ->
  Z.of_nat (length (Stations xf)) <= strconv.maxInt ->
  ParseStack (GenerateStacksFile xf) =
  Ok (imap (fun i s => reimport (Z.of_nat i) s) (activeStationsOf xf)).
Proof. apply ParseStack_GenerateStacksFile_reimport. Qed.
(** ** Merging into a model without feeders *)

Lemma largestID_renumbered (l : list XStation.t) :
  largestID (imap renumbered l) = Z.of_nat (length l).
Proof.
  induction l as [|x l IH] using rev_ind; [done|].
  rewrite imap_app, largestID_app, IH, length_app. simpl.
  unfold largestID. simpl. lia.
Qed.

Lemma merge_empty_step (l : list XStation.t) (x : XStation.t) :
  Z.of_nat (length l) < strconv.maxInt ->
  imap renumbered l ++ [appended (imap renumbered l) x] =
  imap renumbered (l ++ [x]).
Proof.
  intros Hlen. rewrite imap_app. simpl. do 2 f_equal.
  unfold appended, renumbered.
  rewrite maxStationID_largest, largestID_renumbered, length_imap, Nat.add_0_r.
  rewrite wrap64_small; [done|].
  unfold strconv.minInt, strconv.maxInt in *. lia.
Qed.

(** X19: merged into a model without feeders, every incoming feeder is
    appended, whatever its note, and the ids of the file are not kept: the
    feeders are numbered from 0 and get the ids 1, 2, 3, ... in the order of
    the file. *)
Theorem merge_into_empty_model (xf : XFile) (stations : list XStation.t)
  (filename content : gostring) :
  Stations xf = [] ->
  Z.of_nat (length stations) <= strconv.maxInt ->
  (exists xf',
     MergeStationsIntoXFile stations filename xf = Some (0, xf') /\
     Stations xf' = imap renumbered stations) /\
  (ParseStack content = Ok stations ->
   exists xf',
     MergeStacksFile content xf =
       Some (Ok (0, Z.of_nat (length stations)), xf') /\
     Stations xf' = imap renumbered stations).
Proof.
  intros Hnone Hlen.
  assert (mergeLoop xf stations = Some (imap renumbered stations, 0) /\
          stacksLoop xf stations =
            Some (imap renumbered stations, 0, Z.of_nat (length stations)))
    as [Hloop Hsloop].
  { unfold mergeLoop, stacksLoop. rewrite Hnone. cbn [noteIndex].
    induction stations as [|x l IH] using rev_ind; [done|].
    rewrite length_app in Hlen. simpl in Hlen.
    destruct IH as [IH1 IH2]; [lia|].
    rewrite !fold_left_app, IH1, IH2. cbn [fold_left].
    unfold mergeStation, mergeStacksStation. rewrite lookup_empty.
    rewrite merge_empty_step by lia. split; [done|].
    do 2 f_equal. rewrite length_app. simpl. lia. }
  split.
  - eexists. unfold MergeStationsIntoXFile. rewrite Hloop. split; [done|].
    change (Stations (rederiveComponentSTNo ?x)) with (Stations x).
    by rewrite (proj1 (proj2 (proj2 (proj2 (proj2 (addStackFile_frame _ _)))))).
  - intros Hparse. eexists. unfold MergeStacksFile.
    rewrite Hparse, Hsloop. split; done.
Qed.
(** ** The warnings of one type *)

Lemma warningsOf_addError T r e : warningsOf T (addError r e) = warningsOf T r.
Proof. reflexivity. Qed.

Lemma warningsOf_addWarning T r w :
  warningsOf T (addWarning r w) =
  warningsOf T r ++
  (if bool_decide (DPVValidationError.Type_ w = T) then [w] else []).
Proof.
  unfold warningsOf, addWarning. cbn [Warnings]. rewrite List.filter_app. simpl.
  by destruct (bool_decide _).
Qed.

Lemma warningsOf_addWarning_other T r w :
  DPVValidationError.Type_ w <> T ->
  warningsOf T (addWarning r w) = warningsOf T r.
Proof.
  intros H. rewrite warningsOf_addWarning, bool_decide_eq_false_2 by done.
  apply app_nil_r.
Qed.

Lemma warningsOf_ifWarning_other T (b : bool) r w :
  DPVValidationError.Type_ w <> T ->
  warningsOf T (if b then addWarning r w else r) = warningsOf T r.
Proof. intros H. destruct b; [by apply warningsOf_addWarning_other | done]. Qed.

Lemma warningsOf_ifError T (b : bool) r e :
  warningsOf T (if b then addError r e else r) = warningsOf T r.
Proof. by destruct b. Qed.

Lemma warningsOf_rangeFrom_same {A : Type} T
  (body : DPVValidationResult -> Z -> A -> DPVValidationResult) (l : list A)
  (i : nat) (r : DPVValidationResult) :
  (forall r i x, warningsOf T (body r i x) = warningsOf T r) ->
  warningsOf T (rangeFrom body l i r) = warningsOf T r.
Proof.
  intros Hbody. revert i r. induction l as [|x l IH]; intros i r; simpl; [done|].
  by rewrite IH, Hbody.
Qed.

Lemma warningsOf_errorIf {A : Type} T cond mk (l : list A) r :
  warningsOf T (errorIf cond mk l r) = warningsOf T r.
Proof.
  apply warningsOf_rangeFrom_same. intros r' i x. apply warningsOf_ifError.
Qed.

Lemma warningsOf_warnIf_other {A : Type} T cond mk (l : list A) r :
  (forall i x, DPVValidationError.Type_ (mk i x) <> T) ->
  warningsOf T (warnIf cond mk l r) = warningsOf T r.
Proof.
  intros H. apply warningsOf_rangeFrom_same. intros r' i x.
  by apply warningsOf_ifWarning_other.
Qed.

Lemma warningsOf_rangeFrom_collect {A : Type} T
  (body : DPVValidationResult -> Z -> A -> DPVValidationResult)
  (f : Z -> A -> list DPVValidationError.t) (l : list A)
  (i : nat) (r : DPVValidationResult) :
  (forall r i x, warningsOf T (body r i x) = warningsOf T r ++ f i x) ->
  warningsOf T (rangeFrom body l i r) =
  warningsOf T r ++ concat (imap (fun k x => f (Z.of_nat (i + k)) x) l).
Proof.
  intros Hbody. revert i r. induction l as [|x l IH]; intros i r; simpl.
  - by rewrite app_nil_r.
  - rewrite IH, Hbody, Nat.add_0_r, <- app_assoc. do 2 f_equal.
    f_equal. apply imap_ext. intros k y _. simpl. by rewrite Nat.add_succ_r.
Qed.

Lemma warningsOf_checkStationID T (l : list XStation.t) (i : nat) st :
  T <> $"undefined_station_id" ->
  warningsOf T (rangeFrom checkStationID l i st).1 = warningsOf T st.1.
Proof.
  intros HT. revert i st. induction l as [|s l IH]; intros i [r ids]; simpl;
    [done|].
  rewrite IH. simpl.
  rewrite warningsOf_ifWarning_other by (simpl; congruence).
  by rewrite !warningsOf_ifError.
Qed.

Ltac other_warning T :=
  first
    [ rewrite (warningsOf_errorIf T)
    | rewrite (warningsOf_ifError T)
    | rewrite (warningsOf_addError T)
    | rewrite (warningsOf_warnIf_other T) by (intros; discriminate)
    | rewrite (warningsOf_ifWarning_other T) by discriminate
    | rewrite (warningsOf_addWarning_other T) by discriminate ].

Lemma allCoordsZero_active (sts : list XStation.t) :
  allCoordsZero sts =
  forallb atZero (List.filter (fun s => negb (XStation.DNP s)) sts).
Proof.
  unfold allCoordsZero, atZero, fneq.
  induction sts as [|s sts IH]; simpl; [done|]. rewrite IH.
  destruct (XStation.DNP s); simpl; [done|].
  by destruct (PrimFloat.eqb (XStation.DeltX s) 0),
              (PrimFloat.eqb (XStation.DeltY s) 0).
Qed.

Lemma warningsOf_panelAndFileChecks T xf filename r :
  T <> $"filename_extension" ->
  warningsOf T (panelAndFileChecks xf filename r) = warningsOf T r.
Proof.
  intros HT. unfold panelAndFileChecks.
  destruct filename as [|c f].
  - rewrite warningsOf_addError. destruct (PanelArray xf); [done|].
    by rewrite warningsOf_ifError.
  - rewrite warningsOf_ifWarning_other by (simpl; congruence).
    destruct (PanelArray xf); [done|]. by rewrite warningsOf_ifError.
Qed.

Lemma warningsOf_calibration_components xf cs sts ids r :
  warningsOf $"stations_need_calibration" (componentChecks xf cs sts ids r) =
  warningsOf $"stations_need_calibration" r.
Proof.
  unfold componentChecks, range. destruct (maxPosition xf cs) as [maxX maxY].
  do 2 other_warning $"stations_need_calibration".
  rewrite warningsOf_rangeFrom_same.
  2: { intros r' i c. destruct (heightMismatch sts c); [|done].
       by other_warning $"stations_need_calibration". }
  do 4 other_warning $"stations_need_calibration".
  rewrite warningsOf_rangeFrom_same.
  2: { intros r' i c. destruct (statusMap sts !! XComponent.STNo c); [|done].
       by other_warning $"stations_need_calibration". }
  by do 3 other_warning $"stations_need_calibration".
Qed.

(** X20: the validation warns that the feeders need calibration exactly
    when the model has a feeder that is to be placed and the offsets of all
    such feeders are zero, which is when the README tells of the calibration
    and there is such a feeder. *)
Theorem validation_calibration_warning (xf : XFile) (filename : gostring) :
  warningsOf $"stations_need_calibration" (validation xf filename) =
  (if allCoordsZero (Stations xf) &&
      negb (bool_decide (activeStationsOf xf = []))
   then [DPVValidationError.mk $"stations_need_calibration"
           $"Station.DeltX/DeltY" 0
           $"All Material Stack coordinates are zero. You will need to calibrate feeder positions on the machine before running."]
   else []) /\
  allCoordsZero (Stations xf) = forallb atZero (activeStationsOf xf).
Proof.
  split; [|apply allCoordsZero_active].
  unfold validation.
  destruct (stationChecks _ _) as [r ids] eqn:Hst.
  rewrite warningsOf_panelAndFileChecks by discriminate.
  rewrite warningsOf_calibration_components.
  change r with (r, ids).1. rewrite <- Hst. clear Hst.
  unfold stationChecks, range.
  pose proof (warningsOf_checkStationID $"stations_need_calibration"
                (activeStationsOf xf) 0
                ({| Valid := true; Errors := []; Warnings := [] |}, ∅)
                ltac:(discriminate)) as Hids.
  destruct (rangeFrom checkStationID _ 0 _) as [r1 ids1]. simpl in Hids.
  cbn [fst]. rewrite allCoordsZero_active. fold (activeStationsOf xf).
  assert (forallb (fun s => negb (fneq (XStation.DeltX s) 0 ||
                                   fneq (XStation.DeltY s) 0))
                  (activeStationsOf xf) =
          forallb atZero (activeStationsOf xf)) as ->.
  { induction (activeStationsOf xf) as [|s l IH]; simpl; [done|].
    rewrite IH. f_equal. unfold atZero, fneq.
    by destruct (PrimFloat.eqb (XStation.DeltX s) 0),
                (PrimFloat.eqb (XStation.DeltY s) 0). }
  assert ((0 <? length (activeStationsOf xf))%nat =
          negb (bool_decide (activeStationsOf xf = []))) as ->.
  { by destruct (activeStationsOf xf). }
  destruct (_ && _).
  - rewrite warningsOf_addWarning. simpl.
    rewrite warningsOf_rangeFrom_same.
    2: { intros r' i s. by rewrite !warningsOf_ifError. }
    do 6 other_warning $"stations_need_calibration". by rewrite Hids.
  - rewrite warningsOf_rangeFrom_same.
    2: { intros r' i s. by rewrite !warningsOf_ifError. }
    do 6 other_warning $"stations_need_calibration". by rewrite Hids.
Qed.
(** ** The warning of a vision flag and the flag that is written *)

Lemma elem_of_concat_imap {A B : Type} (f : nat -> A -> list B) (l : list A)
  (y : B) :
  y ∈ concat (imap f l) <-> exists (k : nat) x, l !! k = Some x /\ y ∈ f k x.
Proof.
  revert f. induction l as [|a l IH]; intros f; simpl.
  - split; [intros H; inversion H|]. intros (k & x & Hk & _).
    by rewrite lookup_nil in Hk.
  - rewrite elem_of_app, IH. split.
    + intros [H|(k & x & Hk & H)]; [by exists 0%nat, a | by exists (S k), x].
    + intros ([|k] & x & Hk & H); simpl in Hk.
      * injection Hk as <-. by left.
      * right. by exists k, x.
Qed.

Lemma warningsOf_skip_stations (l : list XStation.t) r :
  warningsOf $"skip_status_mismatch" (stationChecks l r).1 =
  warningsOf $"skip_status_mismatch" r.
Proof.
  unfold stationChecks, range.
  pose proof (warningsOf_checkStationID $"skip_status_mismatch" l 0 (r, ∅)
                ltac:(discriminate)) as Hids.
  destruct (rangeFrom checkStationID l 0 (r, ∅)) as [r1 ids1]. simpl in Hids.
  cbn [fst]. other_warning $"skip_status_mismatch".
  rewrite warningsOf_rangeFrom_same.
  2: { intros r' i s. by rewrite !warningsOf_ifError. }
  by do 6 other_warning $"skip_status_mismatch".
Qed.

Lemma warningsOf_skip_components xf cs sts ids r :
  warningsOf $"skip_status_mismatch" (componentChecks xf cs sts ids r) =
  warningsOf $"skip_status_mismatch" r ++
  concat
    (imap (fun (i : nat) c =>
             match statusMap sts !! XComponent.STNo c with
             | Some stationStatus =>
                 if negb (Z.land stationStatus 4 =? 0) &&
                    negb (negb (Z.land (XComponent.Skip c) 4 =? 0))
                 then
                   [DPVValidationError.mk $"skip_status_mismatch"
                      $"EComponent.Skip" (Z.of_nat i)
                      ($"Component Skip=" ++ fmt.d (XComponent.Skip c) ++
                       $" will be updated to include vision flag from Station "
                       ++ fmt.d (XComponent.STNo c) ++ $" (Status=" ++
                       fmt.d stationStatus ++ $")")]
                 else []
             | None => []
             end) cs).
Proof.
  unfold componentChecks, range. destruct (maxPosition xf cs) as [maxX maxY].
  do 2 other_warning $"skip_status_mismatch".
  rewrite warningsOf_rangeFrom_same.
  2: { intros r' i c. destruct (heightMismatch sts c); [|done].
       by other_warning $"skip_status_mismatch". }
  do 4 other_warning $"skip_status_mismatch".
  rewrite (warningsOf_rangeFrom_collect _ _
             (fun i c =>
                match statusMap sts !! XComponent.STNo c with
                | Some stationStatus =>
                    if negb (Z.land stationStatus 4 =? 0) &&
                       negb (negb (Z.land (XComponent.Skip c) 4 =? 0))
                    then
                      [DPVValidationError.mk $"skip_status_mismatch"
                         $"EComponent.Skip" i
                         ($"Component Skip=" ++ fmt.d (XComponent.Skip c) ++
                          $" will be updated to include vision flag from Station "
                          ++ fmt.d (XComponent.STNo c) ++ $" (Status=" ++
                          fmt.d stationStatus ++ $")")]
                    else []
                | None => []
                end)).
  2: { intros r' i c. destruct (statusMap sts !! XComponent.STNo c) as [st|];
         [|by rewrite app_nil_r].
       destruct (_ && _); [|by rewrite app_nil_r].
       by rewrite warningsOf_addWarning. }
  by do 3 other_warning $"skip_status_mismatch".
Qed.

Lemma land_4 (a : Z) : Z.land a 4 = if Z.testbit a 2 then 4 else 0.
Proof. exact (land_pow2 a 2 ltac:(lia)). Qed.

Lemma land_2 (a : Z) : Z.land a 2 = if Z.testbit a 1 then 2 else 0.
Proof. exact (land_pow2 a 1 ltac:(lia)). Qed.

Lemma testbit_land4 (a : Z) : (Z.land a 4 =? 0) = negb (Z.testbit a 2).
Proof. rewrite land_4. by destruct (Z.testbit a 2). Qed.

(** X21: in a model that passes the validation, the warning of a vision
    flag is given for the rows of exactly those placements whose stored flags
    lack the vision flag and whose written flags have it: every vision flag
    that [GenerateDPV] puts in is warned about by [ValidateDPV], and nothing
    else is. *)
Theorem skip_warning_iff_vision_fix (xf : XFile) (filename : gostring) :
  Valid (validation xf filename) = true ->
  forall (i : nat) (c : XComponent.t),
    activeComponentsOf xf !! i = Some c ->
    Z.of_nat i ∈ map DPVValidationError.Row
                     (warningsOf $"skip_status_mismatch" (validation xf filename))
    <->
    Z.testbit (XComponent.Skip c) 2 = false /\
    Z.testbit (autoFixSkip (statusMap (usedStationsOf xf)) c) 2 = true.
Proof.
  intros Hv i c Hi.
  destruct (referenced_station xf filename c Hv) as (s & Hs & Hid & _ & Hm).
  { by eapply list_elem_of_lookup_2. }
  destruct (validation_valid xf filename Hv) as [Hnd _].
  pose proof (statusMap_lookup _ s Hnd Hs) as Hact. rewrite Hid in Hact.
  rewrite (autoFixSkip_spec _ _ _ Hm), !Z.lor_spec.
  rewrite land_4, land_2.
  assert (Z.testbit (if Z.testbit (XStation.Status s) 1 then 2 else 0) 2
          = false) as -> by (by destruct (Z.testbit (XStation.Status s) 1)).
  assert (Z.testbit (if Z.testbit (XStation.Status s) 2 then 4 else 0) 2
          = Z.testbit (XStation.Status s) 2) as ->
    by (by destruct (Z.testbit (XStation.Status s) 2)).
  rewrite orb_false_r.
  unfold validation.
  pose proof (warningsOf_skip_stations (activeStationsOf xf)
                {| Valid := true; Errors := []; Warnings := [] |}) as Hst.
  destruct (stationChecks _ _) as [r ids]. cbn [fst] in Hst.
  rewrite warningsOf_panelAndFileChecks by discriminate.
  rewrite warningsOf_skip_components, Hst. cbn [warningsOf Warnings List.filter app].
  rewrite list_elem_of_fmap. split.
  - intros (w & Hrow & Hw). apply elem_of_concat_imap in Hw as (k & c' & Hk & Hw).
    destruct (statusMap _ !! XComponent.STNo c') as [st|] eqn:Hst';
      [|inversion Hw].
    destruct (_ && _) eqn:Hcond; [|inversion Hw].
    apply list_elem_of_singleton in Hw as ->. simpl in Hrow.
    assert (k = i) as -> by lia. rewrite Hi in Hk. injection Hk as ->.
    rewrite Hact in Hst'. injection Hst' as <-.
    rewrite !testbit_land4, !negb_involutive in Hcond.
    apply andb_true_iff in Hcond as [H1 H2]. apply negb_true_iff in H2.
    split; [exact H2|]. apply orb_true_iff. by right.
  - intros [H2 H1]. rewrite H2, orb_false_l in H1.
    eexists. split; [|apply elem_of_concat_imap; exists i, c; split; [done|]].
    2: { rewrite Hact, !testbit_land4, !negb_involutive, H1, H2. simpl.
         by left. }
    done.
Qed.
(** ** The README *)

Lemma countComponents_active (cs : list XComponent.t) :
  countComponents cs =
  Z.of_nat (length (List.filter (fun c => negb (XComponent.DNP c)) cs)).
Proof.
  unfold countComponents.
  assert (forall n, fold_left (fun n c => if XComponent.DNP c then n else n + 1)
                              cs n =
                    n + Z.of_nat (length (List.filter
                                            (fun c => negb (XComponent.DNP c)) cs)))
    as H; [|by rewrite H].
  induction cs as [|c cs IH]; intros n; simpl; [lia|]. rewrite IH.
  destruct (XComponent.DNP c); simpl; lia.
Qed.

Lemma countStations_active (sts : list XStation.t) :
  countStations sts =
  Z.of_nat (length (List.filter (fun s => negb (XStation.DNP s)) sts)).
Proof.
  unfold countStations.
  assert (forall n, fold_left (fun n s => if XStation.DNP s then n else n + 1)
                              sts n =
                    n + Z.of_nat (length (List.filter
                                            (fun s => negb (XStation.DNP s)) sts)))
    as H; [|by rewrite H].
  induction sts as [|s sts IH]; intros n; simpl; [lia|]. rewrite IH.
  destruct (XStation.DNP s); simpl; lia.
Qed.

Lemma readmeBaseName_dpv (base : gostring) :
  base <> [] -> readmeBaseName (base ++ $".dpv") = base.
Proof.
  intros Hne. unfold readmeBaseName. rewrite length_app. simpl length.
  replace (Z.to_nat (Z.of_nat (length base + 4) - 4)) with (length base) by lia.
  rewrite drop_app_length, take_app_length, bool_decide_eq_true_2 by done.
  destruct base; [done|]. simpl length.
  by rewrite (proj2 (Z.ltb_lt 0 _)) by lia.
Qed.

Lemma readmeBaseName_other (filename : gostring) :
  (length filename <= 4)%nat \/ strings.HasSuffix filename $".dpv" = false ->
  readmeBaseName filename = filename.
Proof.
  intros H. unfold readmeBaseName.
  destruct (0 <? Z.of_nat (length filename) - 4) eqn:Hlen; [|done].
  apply Z.ltb_lt in Hlen. destruct H as [H|H]; [lia|].
  rewrite bool_decide_eq_false_2; [done|]. intros Hdrop.
  assert (filename =
          take (Z.to_nat (Z.of_nat (length filename) - 4)) filename ++ $".dpv")
    as Hf by (by rewrite <- Hdrop, take_drop).
  rewrite Hf in H. unfold strings.HasSuffix in H.
  rewrite rev_app_distr in H. change (rev $".dpv") with $"vpd." in H.
  cbn in H. by destruct (rev _).
Qed.

(** X14: the README of a job file [base.dpv], the base not empty, lists the
    files of the package under that base; it tells that the feeders need
    calibration exactly when the offsets of all feeders that are to be placed
    are zero, and it counts the placements and the feeders that are to be
    placed.  A file name that does not end in [.dpv], in these small letters,
    or that has nothing in front of it, is taken for the base as it is. *)
Theorem GenerateReadme_text (xf : XFile) (base : gostring) (now : Time) :
  base <> [] ->
  GenerateReadme xf (base ++ $".dpv") now =
    readmeIntro (base ++ $".dpv") now ++
    readmeStacks (forallb atZero (activeStationsOf xf)) ++
    readmeChecks ++
    readmeContents base ++
    readmeSummary (Z.of_nat (length (activeComponentsOf xf)))
                  (Z.of_nat (length (activeStationsOf xf))) /\
  forall filename,
    (length filename <= 4)%nat \/ strings.HasSuffix filename $".dpv" = false ->
    GenerateReadme xf filename now =
      readmeIntro filename now ++
      readmeStacks (forallb atZero (activeStationsOf xf)) ++
      readmeChecks ++
      readmeContents filename ++
      readmeSummary (Z.of_nat (length (activeComponentsOf xf)))
                    (Z.of_nat (length (activeStationsOf xf))).
Proof.
  intros Hne. unfold GenerateReadme.
  rewrite allCoordsZero_active, countComponents_active, countStations_active.
  split; [by rewrite readmeBaseName_dpv|].
  intros filename H. by rewrite readmeBaseName_other.
Qed.
(** ** Rows that are not to be placed *)

Lemma filter_filter_and {A : Type} (p r : A -> bool) (l : list A) :
  List.filter (fun x => p x && r x) (List.filter p l) =
  List.filter (fun x => p x && r x) l.
Proof.
  induction l as [|x l IH]; simpl; [done|].
  destruct (p x) eqn:Hp; simpl; [|done]. rewrite Hp. simpl.
  by destruct (r x); rewrite IH.
Qed.

Lemma filter_filter_same {A : Type} (p : A -> bool) (l : list A) :
  List.filter p (List.filter p l) = List.filter p l.
Proof.
  induction l as [|x l IH]; simpl; [done|].
  destruct (p x) eqn:Hp; simpl; [|done]. by rewrite Hp, IH.
Qed.

Lemma onlyActive_rows (xf : XFile) :
  activeStationsOf (onlyActive xf) = activeStationsOf xf /\
  activeComponentsOf (onlyActive xf) = activeComponentsOf xf /\
  usedStationsOf (onlyActive xf) = usedStationsOf xf.
Proof.
  assert (activeComponentsOf (onlyActive xf) = activeComponentsOf xf) as Hc
    by apply filter_filter_same.
  split; [apply filter_filter_same|]. split; [done|].
  unfold usedStationsOf. rewrite Hc.
  apply (filter_filter_and (fun s => negb (XStation.DNP s))).
Qed.

(** X22: the rows that are not to be placed count for nothing in the
    validation, the job file, the stacks file and the README: a model gives
    the same as the model without them.  (The text of [GenerateStack] is not
    among these: its row numbers count them.) *)
Theorem do_not_place_rows_ignored (xf : XFile) (filename : gostring)
  (now : Time) :
  validation (onlyActive xf) filename = validation xf filename /\
  GenerateDPV filename now (onlyActive xf) =
    (fun r => (r.1, onlyActive xf)) <$> GenerateDPV filename now xf /\
  GenerateStacksFile (onlyActive xf) = GenerateStacksFile xf /\
  GenerateReadme (onlyActive xf) filename now = GenerateReadme xf filename now.
Proof.
  destruct (onlyActive_rows xf) as (Hs & Hc & Hu).
  assert (validation (onlyActive xf) filename = validation xf filename) as Hv.
  { unfold validation. by rewrite Hs, Hc. }
  split; [done|]. split; [|split].
  - unfold GenerateDPV, ValidateDPV. rewrite Hv.
    destruct (Valid (validation xf filename)); simpl; [|done].
    do 3 f_equal. unfold jobText, stationSection, componentSection.
    by rewrite Hu, Hc.
  - unfold GenerateStacksFile. rewrite !stacksFileRows_active.
    change (Stations (onlyActive xf)) with (activeStationsOf xf).
    unfold activeStationsOf. by rewrite filter_filter_same.
  - unfold GenerateReadme.
    rewrite !allCoordsZero_active, !countComponents_active,
      !countStations_active.
    fold (activeStationsOf (onlyActive xf)) (activeStationsOf xf)
         (activeComponentsOf (onlyActive xf)) (activeComponentsOf xf).
    by rewrite Hs, Hc.
Qed.
(** ** Tokens, numbers with a unit, and lines cut at white space *)

Lemma TrimSpace_visible (t : gostring) :
  Forall (fun c => visible c = true) t -> strings.TrimSpace t = t.
Proof.
  intros H. destruct t as [|a t]; [done|].
  destruct (last (a :: t)) as [z|] eqn:Hz; [|by apply last_None in Hz].
  apply (TrimSpace_ends _ a z); [done | done | |].
  - by apply Forall_cons in H as [H _].
  - rewrite Forall_forall in H. apply H.
    apply last_Some in Hz as [l' ->]. apply elem_of_app. right. by left.
Qed.

Lemma TrimSuffix_app (t suffix : gostring) :
  strings.TrimSuffix (t ++ suffix) suffix = t.
Proof.
  unfold strings.TrimSuffix, strings.HasSuffix. rewrite rev_app_distr.
  assert (forall a b, strings.HasPrefix (a ++ b) a = true) as ->.
  { induction a as [|c a IH]; intros b; simpl; [by destruct b|].
    by rewrite Ascii.eqb_refl, IH. }
  rewrite length_app, Nat.add_sub. apply take_app_length.
Qed.

Lemma TrimSpace_trailing_blank (a : ascii) (t : gostring) :
  Forall (fun c => visible c = true) (a :: t) ->
  strings.TrimSpace (a :: t ++ [" "%char]) = a :: t.
Proof.
  intros Hvis.
  transitivity (strings.TrimSpace (a :: t)); [|by apply TrimSpace_visible].
  unfold strings.TrimSpace, strings.trimRight.
  rewrite !trimLeft_visible by (by inversion Hvis).
  change (a :: t ++ [" "%char]) with ((a :: t) ++ [" "%char]).
  rewrite rev_app_distr. reflexivity.
Qed.

(** X23: [parseFloat] reads a number with the unit mm behind it, with or
    without a blank between them, as it reads the number alone: for a text of
    bytes that show, that does not itself end in mm, all three are what
    [strconv.ParseFloat] makes of the text. *)
Theorem parseFloat_unit (t : gostring) :
  Forall (fun c => visible c = true) t ->
  strings.HasSuffix t $"mm" = false ->
  parseFloat t = strconv.ParseFloat t /\
  parseFloat (t ++ $"mm") = strconv.ParseFloat t /\
  parseFloat (t ++ $" mm") = strconv.ParseFloat t.
Proof.
  intros Hvis Hmm. unfold parseFloat. split; [|split].
  - rewrite (TrimSpace_visible t) by done. unfold strings.TrimSuffix.
    rewrite Hmm. by rewrite TrimSpace_visible.
  - rewrite (TrimSpace_visible (t ++ $"mm"))
      by (apply Forall_app; split; [done | by repeat constructor]).
    by rewrite TrimSuffix_app, TrimSpace_visible.
  - destruct t as [|a t]; [reflexivity|].
    assert (strings.TrimSpace ((a :: t) ++ $" mm") = (a :: t) ++ $" mm") as ->.
    { apply (TrimSpace_ends _ a "m"%char); [done| |by inversion Hvis|done].
      apply last_snoc_app. done. }
    change ((a :: t) ++ $" mm") with ((a :: t) ++ [" "%char] ++ $"mm").
    rewrite app_assoc, TrimSuffix_app.
    change ((a :: t) ++ [" "%char]) with (a :: t ++ [" "%char]).
    by rewrite TrimSpace_trailing_blank.
Qed.

Lemma visible_not_space (c : ascii) :
  visible c = true -> regexp.isSpaceClass c = false.
Proof. destruct c as [[] [] [] [] [] [] [] []]; done. Qed.

Lemma splitRuns_nonempty (s : gostring) (b : bool) : regexp.splitRuns s b <> [].
Proof.
  revert b. induction s as [|c s IH]; intros b; simpl; [done|].
  destruct (regexp.isSpaceClass c).
  - destruct b; [apply IH | done].
  - by destruct (regexp.splitRuns s false).
Qed.

Lemma splitRuns_token (w rest : gostring) (b : bool) :
  w <> [] -> Forall (fun c => visible c = true) w ->
  regexp.splitRuns (w ++ rest) b = prepend w (regexp.splitRuns rest false).
Proof.
  intros Hne Hvis. revert b. induction Hvis as [|c w Hc Hw IH]; [done|].
  intros b. simpl. rewrite (visible_not_space c Hc).
  destruct w as [|c' w'].
  - simpl. pose proof (splitRuns_nonempty rest false).
    by destruct (regexp.splitRuns rest false).
  - rewrite IH by done. pose proof (splitRuns_nonempty rest false).
    by destruct (regexp.splitRuns rest false).
Qed.

Lemma splitRuns_gap (sep rest : gostring) :
  Forall (fun c => c = " "%char \/ c = "009"%char) sep ->
  regexp.splitRuns (sep ++ rest) true = regexp.splitRuns rest true.
Proof.
  induction 1 as [|c sep [->| ->] _ IH]; [done|exact IH..].
Qed.

Lemma splitRuns_gap_first (sep rest : gostring) :
  gap sep ->
  regexp.splitRuns (sep ++ rest) false = [] :: regexp.splitRuns rest true.
Proof.
  intros [Hne Hsep]. destruct sep as [|c sep]; [done|].
  apply Forall_cons in Hsep as [Hc Hsep]. simpl.
  rewrite splitRuns_gap by done. by destruct Hc as [->| ->].
Qed.

Lemma SplitSpaces_tokens (tokens : list gostring) (sep : gostring) :
  tokens <> [] -> Forall token tokens -> gap sep ->
  forall b, regexp.splitRuns (strings.Join tokens sep) b = tokens.
Proof.
  intros Hne Htok Hsep. induction Htok as [|w ws [Hw Hvis] Hws IH]; [done|].
  intros b. destruct ws as [|w2 ws].
  - simpl. rewrite <- (app_nil_r w) at 1.
    rewrite splitRuns_token by done. simpl. by rewrite app_nil_r.
  - change (strings.Join (w :: w2 :: ws) sep)
      with (w ++ sep ++ strings.Join (w2 :: ws) sep).
    rewrite splitRuns_token by done.
    rewrite splitRuns_gap_first by done. rewrite IH by done.
    simpl. by rewrite app_nil_r.
Qed.

Lemma Join_ends (tokens : list gostring) (sep : gostring) :
  tokens <> [] -> Forall token tokens ->
  exists a z, head (strings.Join tokens sep) = Some a /\
              last (strings.Join tokens sep) = Some z /\
              visible a = true /\ visible z = true.
Proof.
  intros Hne Htok. induction Htok as [|w ws [Hw Hvis] Hws IH]; [done|].
  destruct w as [|a w]; [done|].
  assert (exists z, last (a :: w) = Some z /\ visible z = true) as (z & Hz & Hvz).
  { destruct (last (a :: w)) as [z|] eqn:Hz; [|by apply last_None in Hz].
    exists z. split; [done|]. rewrite Forall_forall in Hvis. apply Hvis.
    apply last_Some in Hz as [l' ->]. apply elem_of_app. right. by left. }
  destruct ws as [|w2 ws].
  - exists a, z. split; [done|]. split; [done|]. split; [|done].
    by inversion Hvis.
  - destruct IH as (a2 & z2 & _ & Hz2 & _ & Hvz2); [done|].
    exists a, z2. split; [done|]. split; [|split; [by inversion Hvis | done]].
    change (strings.Join ((a :: w) :: w2 :: ws) sep)
      with ((a :: w) ++ sep ++ strings.Join (w2 :: ws) sep).
    rewrite app_assoc. by apply last_snoc_app.
Qed.

Lemma splitByWhitespace_Join (tokens : list gostring) (sep : gostring) :
  Forall token tokens -> gap sep ->
  splitByWhitespace (strings.Join tokens sep) = tokens.
Proof.
  intros Htok Hsep. unfold splitByWhitespace, regexp.SplitSpaces.
  destruct tokens as [|w ws]; [reflexivity|].
  destruct (Join_ends (w :: ws) sep) as (a & z & Ha & Hz & Hva & Hvz);
    [done | done |].
  rewrite (TrimSpace_ends _ a z) by done.
  rewrite SplitSpaces_tokens by done.
  apply filter_all. eapply Forall_impl; [exact Htok|].
  intros t [Hne _]. by rewrite bool_decide_eq_false_2.
Qed.

(** X24: [splitByWhitespace] cuts a line of tokens, with a run of blanks or
    tabs between each two of them, into those tokens. *)
Theorem splitByWhitespace_tokens (tokens : list gostring) (sep : gostring) :
  Forall token tokens -> gap sep ->
  splitByWhitespace (strings.Join tokens sep) = tokens.
Proof. apply splitByWhitespace_Join. Qed.

(** ** A placement file in the whitespace-delimited format *)

Lemma visible_lineByte (c : ascii) : visible c = true -> lineByte c = true.
Proof. destruct c as [[] [] [] [] [] [] [] []]; done. Qed.

Lemma Join_lineBytes (tokens : list gostring) (sep : gostring) :
  Forall token tokens -> gap sep ->
  Forall (fun c => lineByte c = true) (strings.Join tokens sep).
Proof.
  intros Htok [_ Hsep].
  assert (Forall (fun c => lineByte c = true) sep) as Hsl.
  { eapply Forall_impl; [exact Hsep|]. by intros c [->| ->]. }
  induction Htok as [|w ws [_ Hw] _ IH]; [done|].
  assert (Forall (fun c => lineByte c = true) w) as Hwl.
  { eapply Forall_impl; [exact Hw|]. intros c. apply visible_lineByte. }
  destruct ws as [|w2 ws]; [done|].
  change (strings.Join (w :: w2 :: ws) sep)
    with (w ++ sep ++ strings.Join (w2 :: ws) sep).
  by repeat (apply Forall_app; split).
Qed.

Lemma Join_TrimSpace (tokens : list gostring) (sep : gostring) :
  Forall token tokens ->
  strings.TrimSpace (strings.Join tokens sep) = strings.Join tokens sep.
Proof.
  intros Htok. destruct tokens as [|w ws]; [done|].
  destruct (Join_ends (w :: ws) sep) as (a & z & Ha & Hz & Hva & Hvz);
    [done | done |].
  by apply (TrimSpace_ends _ a z).
Qed.

Lemma kicadColumns_tokens : Forall token kicadColumns.
Proof. repeat constructor; done. Qed.

Lemma kicadHeader_line (sep : gostring) :
  gap sep ->
  Forall (fun c => lineByte c = true) (kicadHeader sep) /\
  strings.TrimSpace (kicadHeader sep) = kicadHeader sep /\
  isComment (kicadHeader sep) = true /\
  commentText (kicadHeader sep) = strings.Join kicadColumns sep /\
  strings.Contains (strings.ToLower (strings.Join kicadColumns sep)) $"ref"
    = true /\
  exists z, last (kicadHeader sep) = Some z /\ visible z = true.
Proof.
  intros Hsep.
  destruct (Join_ends kicadColumns sep) as (a & z & Ha & Hz & Hva & Hvz);
    [done | exact kicadColumns_tokens |].
  assert (last (kicadHeader sep) = Some z) as Hlast.
  { unfold kicadHeader. by apply last_snoc_app. }
  split; [|split; [|split; [|split; [|split]]]].
  - unfold kicadHeader. apply Forall_app. split; [by repeat constructor|].
    apply Join_lineBytes; [exact kicadColumns_tokens | done].
  - by apply (TrimSpace_ends _ "#"%char z).
  - reflexivity.
  - unfold commentText.
    change (strings.TrimPrefix (kicadHeader sep) $"#")
      with (" "%char :: strings.Join kicadColumns sep).
    change (strings.TrimSpace (" "%char :: strings.Join kicadColumns sep))
      with (strings.TrimSpace (strings.Join kicadColumns sep)).
    apply Join_TrimSpace, kicadColumns_tokens.
  - unfold kicadColumns.
    cbn [strings.Join app strings.ToLower strings.Contains strings.HasPrefix].
    assert (forall s, strings.HasPrefix s [] = true) as -> by (by intros [|]).
    reflexivity.
  - by exists z.
Qed.

Lemma dataLine_text (sep : gostring) (l : posLine) :
  gap sep -> dataLine l ->
  Forall (fun c => lineByte c = true) (strings.Join (cellsOf l) sep) /\
  strings.TrimSpace (strings.Join (cellsOf l) sep) =
    strings.Join (cellsOf l) sep /\
  strings.Join (cellsOf l) sep <> [] /\
  isComment (strings.Join (cellsOf l) sep) = false /\
  exists z, last (strings.Join (cellsOf l) sep) = Some z /\ visible z = true.
Proof.
  intros Hsep [Htok Hhash].
  destruct (Join_ends (cellsOf l) sep) as (a & z & Ha & Hz & Hva & Hvz);
    [done | done |].
  split; [by apply Join_lineBytes|].
  split; [by apply Join_TrimSpace|]. split; [|split; [|by exists z]].
  - intros Hnil. by rewrite Hnil in Ha.
  - unfold isComment. unfold cellsOf in *. cbn [strings.Join].
    apply Forall_cons in Htok as [[Hr _] _].
    destruct (lineRef l) as [|c r]; [done|].
    cbn [app strings.HasPrefix] in *.
    destruct (Ascii.eqb c "#"); [by destruct r|done].
Qed.

Lemma ReplaceAll_CR_eol (eol : gostring) (ls : list gostring) :
  eol = [LF] \/ eol = CRLF ->
  Forall (Forall (fun c => lineByte c = true)) ls ->
  strings.ReplaceAll (concat (map (fun l => l ++ eol) ls)) CR [] =
  concat (map (fun l => l ++ [LF]) ls).
Proof.
  intros [->| ->] Hls; [|by apply ReplaceAll_CR_lines].
  induction Hls as [|l ls Hl _ IH]; [done|].
  cbn [map concat]. rewrite !ReplaceAll_app, IH.
  by rewrite (ReplaceAll_CR_line l) by done.
Qed.

Lemma kicadColumns_map :
  buildColumnMap kicadColumns !! $"ref" = Some 0%nat /\
  buildColumnMap kicadColumns !! $"val" = Some 1%nat /\
  buildColumnMap kicadColumns !! $"package" = Some 2%nat /\
  buildColumnMap kicadColumns !! $"posx" = Some 3%nat /\
  buildColumnMap kicadColumns !! $"posy" = Some 4%nat /\
  buildColumnMap kicadColumns !! $"rot" = Some 5%nat /\
  buildColumnMap kicadColumns !! $"side" = Some 6%nat.
Proof. repeat split; vm_compute; reflexivity. Qed.

Lemma parseRowFields_cells (l : posLine) :
  Forall token (cellsOf l) ->
  parseRowFields (cellsOf l) (buildColumnMap kicadColumns) = rowOf l.
Proof.
  intros Htok.
  destruct kicadColumns_map as (Cr & Cv & Cp & Cx & Cy & Co & Cs).
  unfold cellsOf in Htok. repeat (apply Forall_cons in Htok as [[_ ?] Htok]).
  unfold parseRowFields, textField, floatField, field.
  rewrite Cr, Cv, Cp, Cx, Cy, Co, Cs. unfold cellsOf, rowOf, numberOf.
  cbn [lookup list_lookup]. rewrite !TrimSpace_visible by done.
  by destruct (parseFloat (linePosX l)), (parseFloat (linePosY l)),
              (parseFloat (lineRot l)).
Qed.

Lemma rowsOf_cells_from (sep : gostring) (ls : list posLine)
    (acc : list POSRow.t) :
  gap sep -> Forall dataLine ls ->
  fold_left
    (fun rows line =>
       match splitByWhitespace line with
       | [] => rows
       | fields =>
           let posRow := parseRowFields fields (buildColumnMap kicadColumns) in
           match POSRow.Ref posRow with
           | [] => rows
           | _ => rows ++ [posRow]
           end
       end)
    (map (fun l => strings.Join (cellsOf l) sep) ls) acc = acc ++ map rowOf ls.
Proof.
  intros Hsep Hls. revert acc.
  induction Hls as [|l ls [Htok Hhash] _ IH]; intros acc; cbn [map fold_left].
  { by rewrite app_nil_r. }
  rewrite splitByWhitespace_Join by done.
  change (cellsOf l) with (lineRef l :: tl (cellsOf l)) at 1. cbv iota zeta.
  change (lineRef l :: tl (cellsOf l)) with (cellsOf l).
  rewrite parseRowFields_cells by done.
  pose proof Htok as Htok'. unfold cellsOf in Htok'.
  apply Forall_cons in Htok' as [[Hr _] _]. cbn [POSRow.Ref rowOf].
  destruct (lineRef l) as [|c r] eqn:Href; [done|].
  by rewrite IH, <- app_assoc.
Qed.

Lemma rowsOf_cells (sep : gostring) (ls : list posLine) :
  gap sep -> Forall dataLine ls ->
  rowsOf splitByWhitespace (buildColumnMap kicadColumns)
         (map (fun l => strings.Join (cellsOf l) sep) ls) = map rowOf ls.
Proof. intros Hsep Hls. exact (rowsOf_cells_from sep ls [] Hsep Hls). Qed.

Lemma dataLinesOf_cells_from (sep : gostring) (ls : list posLine) (i : nat)
    (acc : list gostring) :
  gap sep -> Forall dataLine ls -> (0 < i)%nat ->
  rangeFrom (fun dataLines i line =>
               if i <=? 0 then dataLines
               else
                 let trimmed := strings.TrimSpace line in
                 match trimmed with
                 | [] => dataLines
                 | _ => if isComment trimmed then dataLines
                        else dataLines ++ [trimmed]
                 end)
            (map (fun l => strings.Join (cellsOf l) sep) ls ++ [[]]) i acc =
  acc ++ map (fun l => strings.Join (cellsOf l) sep) ls.
Proof.
  intros Hsep Hls. revert i acc.
  induction Hls as [|l ls Hl _ IH]; intros i acc Hi;
    cbn [map app rangeFrom].
  - rewrite (proj2 (Z.leb_gt _ _)) by lia. by rewrite app_nil_r.
  - rewrite (proj2 (Z.leb_gt _ _)) by lia. cbv zeta.
    destruct (dataLine_text sep l Hsep Hl) as (_ & -> & Hne & Hc & _).
    rewrite Hc. destruct (strings.Join (cellsOf l) sep) as [|c r] eqn:HJ;
      [done|].
    rewrite IH by lia. by rewrite <- app_assoc.
Qed.

Lemma concat_eol (eol : gostring) (l : gostring) (ls : list gostring) :
  concat (map (fun l => l ++ eol) (l :: ls)) =
  strings.Join (l :: ls) eol ++ eol.
Proof.
  revert l. induction ls as [|l2 ls IH]; intros l.
  - cbn. by rewrite app_nil_r.
  - change (concat (map (fun l => l ++ eol) (l :: l2 :: ls)))
      with ((l ++ eol) ++ concat (map (fun l => l ++ eol) (l2 :: ls))).
    rewrite IH.
    change (strings.Join (l :: l2 :: ls) eol)
      with (l ++ eol ++ strings.Join (l2 :: ls) eol).
    by rewrite <- !app_assoc.
Qed.

Lemma Join_last_visible (l : gostring) (ls : list gostring) (sep : gostring) :
  Forall (fun e => exists z, last e = Some z /\ visible z = true) (l :: ls) ->
  exists z, last (strings.Join (l :: ls) sep) = Some z /\ visible z = true.
Proof.
  revert l. induction ls as [|l2 ls IH]; intros l Hall.
  - by apply Forall_cons in Hall as [Hl _].
  - apply Forall_cons in Hall as [_ Hall].
    destruct (IH l2 Hall) as (z & Hz & Hvz). exists z. split; [|done].
    change (strings.Join (l :: l2 :: ls) sep)
      with (l ++ sep ++ strings.Join (l2 :: ls) sep).
    rewrite app_assoc. by apply last_snoc_app.
Qed.

Lemma TrimSpace_eol (a : ascii) (body eol : gostring) :
  eol = [LF] \/ eol = CRLF -> visible a = true ->
  (exists z, last (a :: body) = Some z /\ visible z = true) ->
  strings.TrimSpace ((a :: body) ++ eol) = a :: body.
Proof.
  intros Heol Ha (z & Hz & Hvz).
  transitivity (strings.TrimSpace (a :: body));
    [|by apply (TrimSpace_ends _ a z)].
  unfold strings.TrimSpace, strings.trimRight.
  change ((a :: body) ++ eol) with (a :: (body ++ eol)).
  rewrite !trimLeft_visible by done.
  change (a :: (body ++ eol)) with ((a :: body) ++ eol).
  rewrite rev_app_distr. by destruct Heol as [->| ->].
Qed.

Lemma kicadText_lines (sep eol : gostring) (ls : list posLine) :
  gap sep -> eol = [LF] \/ eol = CRLF -> Forall dataLine ls ->
  strings.Split (strings.ReplaceAll (kicadText sep eol ls) CR []) LF =
  kicadHeader sep :: map (fun l => strings.Join (cellsOf l) sep) ls ++ [[]].
Proof.
  intros Hsep Heol Hls. unfold kicadText.
  assert (Forall (Forall (fun c => lineByte c = true))
            (kicadHeader sep :: map (fun l => strings.Join (cellsOf l) sep) ls))
    as Hbytes.
  { constructor; [by apply kicadHeader_line|]. apply Forall_map.
    eapply Forall_impl; [exact Hls|]. intros l Hl.
    by apply (dataLine_text sep l Hsep Hl). }
  rewrite ReplaceAll_CR_eol by done. by rewrite Split_lines.
Qed.

Lemma kicadText_comment (sep eol : gostring) (ls : list posLine) :
  gap sep -> eol = [LF] \/ eol = CRLF -> Forall dataLine ls ->
  strings.HasPrefix (strings.TrimSpace (kicadText sep eol ls)) $"#" = true.
Proof.
  intros Hsep Heol Hls. unfold kicadText. rewrite concat_eol.
  assert (exists body,
            strings.Join
              (kicadHeader sep :: map (fun l => strings.Join (cellsOf l) sep) ls)
              eol = "#"%char :: body) as [body Hbody].
  { destruct ls; eexists; reflexivity. }
  assert (exists z, last ("#"%char :: body) = Some z /\ visible z = true)
    as Hlast.
  { rewrite <- Hbody. apply Join_last_visible. constructor.
    - by apply kicadHeader_line.
    - apply Forall_map. eapply Forall_impl; [exact Hls|]. intros l Hl.
      by apply (dataLine_text sep l Hsep Hl). }
  rewrite Hbody. rewrite TrimSpace_eol by done.
  cbn [strings.HasPrefix]. by destruct body.
Qed.

Lemma parseKiCadFormat_kicadText (sep eol : gostring) (ls : list posLine) :
  gap sep -> eol = [LF] \/ eol = CRLF -> Forall dataLine ls ->
  parseKiCadFormat (kicadText sep eol ls) =
  Ok {| Headers := kicadColumns; Rows := map rowOf ls |}.
Proof.
  intros Hsep Heol Hls. unfold parseKiCadFormat.
  assert (strings.TrimPrefix (kicadText sep eol ls) BOM = kicadText sep eol ls)
    as ->.
  { reflexivity. }
  rewrite kicadText_lines by done.
  destruct (kicadHeader_line sep Hsep) as (_ & Htrim & Hc & Htext & Href & _).
  assert (forall rest,
            findHeaderLine (kicadHeader sep :: rest) =
            (strings.Join kicadColumns sep, 0)) as ->.
  { intros rest. unfold findHeaderLine. cbn [findRefHeader]. cbv zeta.
    rewrite Htrim, Hc, Htext, Href. reflexivity. }
  assert (exists c r, strings.Join kicadColumns sep = c :: r) as (c & r & HJ).
  { by eexists _, _. }
  rewrite HJ at 1. cbv iota.
  rewrite splitByWhitespace_Join by (exact kicadColumns_tokens || done).
  unfold kicadColumns at 1. cbv iota. fold kicadColumns.
  destruct kicadColumns_map as (-> & -> & _).
  unfold dataLinesOf, range. cbn [rangeFrom]. 
  change (Z.of_nat 0 <=? 0) with true. cbv iota.
  rewrite dataLinesOf_cells_from by (done || lia). cbn [app].
  by rewrite rowsOf_cells.
Qed.

(** X25: a placement file in the whitespace-delimited format, written with
    the header line of the seven column names behind the comment marker and
    one line of seven tokens for each placement, the cells any run of blanks
    or tabs apart and the lines ended by LF or by CR LF, is read by
    [ParsePOS] into the seven headers and one row for each line, in order.
    The three numbers are read with or without the unit, and a number that
    is not read counts as 0; a comma in a cell does not make the file a
    comma-separated one. *)
Theorem ParsePOS_kicad_table (sep eol : gostring) (ls : list posLine) :
  gap sep -> eol = [LF] \/ eol = CRLF -> Forall dataLine ls ->
  ParsePOS (kicadText sep eol ls) =
  Ok {| Headers := kicadColumns; Rows := map rowOf ls |}.
Proof.
  intros Hsep Heol Hls. unfold ParsePOS.
  rewrite kicadText_comment by done. rewrite andb_false_r.
  by apply parseKiCadFormat_kicadText.
Qed.
(** ** Importing a model's own stacks file *)

Lemma stacksLoop_inv_Forall (Q : XStation.t -> Prop)
    (P : list XStation.t -> Z -> Z -> nat -> Prop) xf
    (stations : list XStation.t) :
  Forall Q stations ->
  P (Stations xf) 0 0 0%nat ->
  (forall sts merged added k incoming sts' (matched : bool),
     Q incoming -> keepsOriginals (Stations xf) sts -> P sts merged added k ->
     mergesAs true (Stations xf) sts incoming sts' matched ->
     P sts' (if matched then merged + 1 else merged)
       (if matched then added else added + 1) (S k)) ->
  exists sts merged added,
    stacksLoop xf stations = Some (sts, merged, added) /\
    keepsOriginals (Stations xf) sts /\ P sts merged added (length stations).
Proof.
  intros HQ H0 Hstep. induction stations as [|x l IH] using rev_ind.
  - exists (Stations xf), 0, 0. split; [done|].
    split; [apply keepsOriginals_refl | done].
  - apply Forall_app in HQ as [HQl HQx]. apply Forall_cons in HQx as [HQx _].
    destruct (IH HQl) as (sts & merged & added & Hloop & Hkeep & HP).
    destruct (mergeStacksStation_mergesAs _ _ merged added x Hkeep)
      as (sts' & matched & Hs & Hm & Hkeep').
    eexists _, _, _. rewrite stacksLoop_snoc, Hloop. split; [exact Hs|].
    split; [done|]. rewrite length_app, Nat.add_1_r.
    exact (Hstep _ _ _ _ _ _ _ HQx Hkeep HP Hm).
Qed.

Lemma keepsOriginals_same_length (orig sts : list XStation.t) :
  keepsOriginals orig sts -> length sts = length orig ->
  map XStation.ID sts = map XStation.ID orig /\
  map XStation.Note sts = map XStation.Note orig.
Proof.
  intros Hkeep Hlen.
  split; apply list_eq; intros i; rewrite !list_lookup_fmap;
    destruct (orig !! i) as [e|] eqn:He.
  - destruct (Hkeep i e He) as (e' & -> & _ & Hid). simpl. by rewrite Hid.
  - apply lookup_ge_None in He. rewrite (proj2 (lookup_ge_None sts i)) by lia.
    done.
  - destruct (Hkeep i e He) as (e' & -> & Hn & _). simpl. by rewrite Hn.
  - apply lookup_ge_None in He. rewrite (proj2 (lookup_ge_None sts i)) by lia.
    done.
Qed.

(** X26: a model takes in its own stacks file without growing.  When it has
    a feeder that is to be placed, and every such feeder has a note, with no
    line break in it and no white space around it, [MergeStacksFile] on the
    text of [GenerateStacksFile] counts every feeder written as merged and
    adds none, and the feeders of the model keep their places, ids and
    notes. *)
Theorem MergeStacksFile_own_export (xf : XFile) :
  activeStationsOf xf <> [] ->
  Forall (fun s => XStation.Note s <> [] /\ plainNote (XStation.Note s) /\
                   intFields s)
         (activeStationsOf xf) ->
  Z.of_nat (length (Stations xf)) <= strconv.maxInt ->
  exists xf',
    MergeStacksFile (GenerateStacksFile xf) xf =
      Some (Ok (Z.of_nat (length (activeStationsOf xf)), 0), xf') /\
    map XStation.ID (Stations xf') = map XStation.ID (Stations xf) /\
    map XStation.Note (Stations xf') = map XStation.Note (Stations xf).
Proof.
  intros Hsome Hall Hlen. unfold MergeStacksFile.
  rewrite ParseStack_GenerateStacksFile_reimport;
    [|done|(eapply Forall_impl; [exact Hall|]; by intros s (_ & ? & ?))|done].
  destruct (stacksLoop_inv_Forall
              (fun incoming =>
                 XStation.Note incoming <> [] /\
                 exists e, e ∈ Stations xf /\
                           XStation.Note e = XStation.Note incoming)
              (fun sts merged added k =>
                 added = 0 /\ merged = Z.of_nat k /\
                 length sts = length (Stations xf))
              xf (imap (fun i s => reimport (Z.of_nat i) s)
                       (activeStationsOf xf)))
    as (sts & merged & added & -> & Hkeep & -> & -> & Hsame).
  - apply Forall_forall. intros p Hp.
    apply elem_of_lookup_imap in Hp as (i & s & -> & Hs).
    apply list_elem_of_lookup_2 in Hs. rewrite Forall_forall in Hall.
    destruct (Hall s Hs) as (Hn & _). split; [exact Hn|].
    exists s. split; [|done]. by apply elem_of_filter_bool in Hs as [Hs _].
  - done.
  - intros sts merged added k incoming sts' matched (Hn & e & He & Hnote)
           _ (-> & -> & Hl) [(_ & idx & e' & _ & _ & -> & ->)|([Hno|Hno] & _)].
    + rewrite length_insert. split; [done|]. split; [lia | done].
    + done.
    + by destruct (Hno e He).
  - eexists. split; [by rewrite length_imap|].
    change (Stations (rederiveComponentSTNo (withStations xf sts))) with sts.
    by apply keepsOriginals_same_length.
Qed.

(** ** The columns of a placement file *)

Lemma columnsFrom_last (key : gostring) (headers : list gostring) (j : nat)
    (colMap : gmap gostring nat) :
  match columnsFrom headers j colMap !! key with
  | Some i =>
      ((j <= i)%nat /\ lastNamed key headers (i - j)) \/
      (colMap !! key = Some i /\
       forall cell, cell ∈ headers -> columnKey cell <> Some key)
  | None =>
      colMap !! key = None /\
      forall cell, cell ∈ headers -> columnKey cell <> Some key
  end.
Proof.
  revert j colMap. induction headers as [|cell rest IH]; intros j colMap.
  - cbn [columnsFrom]. destruct (colMap !! key) as [i|] eqn:Hk.
    + right. split; [done|]. intros c Hc. by apply elem_of_nil in Hc.
    + split; [done|]. intros c Hc. by apply elem_of_nil in Hc.
  - cbn [columnsFrom].
    set (colMap' := match columnKey cell with
                    | Some k0 => <[k0 := j]> colMap
                    | None => colMap
                    end).
    specialize (IH (S j) colMap').
    assert (forall i, colMap' !! key = Some i ->
              (forall c, c ∈ rest -> columnKey c <> Some key) ->
              ((j <= i)%nat /\ lastNamed key (cell :: rest) (i - j)) \/
              (colMap !! key = Some i /\
               forall c, c ∈ cell :: rest -> columnKey c <> Some key))
      as Hhere.
    { intros i Hi Hrest. subst colMap'.
      destruct (columnKey cell) as [k0|] eqn:Hcell.
      - destruct (decide (k0 = key)) as [->|Hne].
        + rewrite lookup_insert_eq in Hi. injection Hi as <-. left.
          split; [lia|]. rewrite Nat.sub_diag.
          split; [exists cell; split; [reflexivity | exact Hcell]|].
          intros k c Hk Hc. destruct k as [|k]; [lia|].
          apply Hrest. apply (list_elem_of_lookup_2 _ k). exact Hc.
        + rewrite lookup_insert_ne in Hi by done. right. split; [done|].
          intros c Hc. apply elem_of_cons in Hc as [->|Hc]; [|by apply Hrest].
          rewrite Hcell. congruence.
      - right. split; [done|].
        intros c Hc. apply elem_of_cons in Hc as [->|Hc]; [|by apply Hrest].
        by rewrite Hcell. }
    destruct (columnsFrom rest (S j) colMap' !! key) as [i|].
    + destruct IH as [[Hle [(c & Hc & Hkey) Hlast]]|[Hi Hrest]];
        [|by apply Hhere].
      left. split; [lia|].
      replace (i - j)%nat with (S (i - S j)) by lia. split.
      * exists c. split; [exact Hc | exact Hkey].
      * intros k c' Hk Hc'. destruct k as [|k]; [lia|].
        apply (Hlast k); [lia | done].
    + destruct IH as [Hnone Hrest]. subst colMap'.
      destruct (columnKey cell) as [k0|] eqn:Hcell.
      * destruct (decide (k0 = key)) as [->|Hne].
        { by rewrite lookup_insert_eq in Hnone. }
        rewrite lookup_insert_ne in Hnone by done. split; [done|].
        intros c Hc. apply elem_of_cons in Hc as [->|Hc]; [|by apply Hrest].
        rewrite Hcell. congruence.
      * split; [done|].
        intros c Hc. apply elem_of_cons in Hc as [->|Hc]; [|by apply Hrest].
        by rewrite Hcell.
Qed.

(** X27: when several header cells name the same column, by the same name
    or by synonyms, [buildColumnMap] keeps the place of the last of them, and
    the rows are read from that cell; a column that no header cell names is
    not in the map, and its field is empty, or 0 for a number. *)
Theorem buildColumnMap_last_wins (headers : list gostring) (key : gostring) :
  match buildColumnMap headers !! key with
  | Some j =>
      lastNamed key headers j /\
      forall fields,
        textField fields (buildColumnMap headers) key =
          default [] (strings.TrimSpace <$> fields !! j) /\
        floatField fields (buildColumnMap headers) key =
          default 0%float (fields !! j ≫= parseFloat)
  | None =>
      (forall cell, cell ∈ headers -> columnKey cell <> Some key) /\
      forall fields,
        textField fields (buildColumnMap headers) key = [] /\
        floatField fields (buildColumnMap headers) key = 0%float
  end.
Proof.
  pose proof (columnsFrom_last key headers 0 ∅) as H.
  unfold textField, floatField, field. fold (buildColumnMap headers) in H.
  destruct (buildColumnMap headers !! key) as [j|].
  - destruct H as [[_ Hlast]|[Hempty _]]; [|by rewrite lookup_empty in Hempty].
    rewrite Nat.sub_0_r in Hlast. split; [done|].
    intros fields. destruct (fields !! j) as [v|]; [|done].
    split; [done|]. simpl. by destruct (parseFloat v).
  - destruct H as [_ Hnone]. done.
Qed.

(** ** The theorems at work *)

Lemma ConvertPOSToXFile_empty_value_witness :
  Stations (ConvertPOSToXFile unlabelled $"board.pos" clock0) = [] /\
  forall c, c ∈ Components (ConvertPOSToXFile unlabelled $"board.pos" clock0) ->
            XComponent.STNo c = 1.
Proof.
  destruct (ConvertPOSToXFile_empty_value unlabelled $"board.pos" clock0)
    as (_ & _ & Hall).
  destruct Hall as (Hnone & _ & Hone).
  - intros row Hrow. simpl in Hrow.
    apply elem_of_cons in Hrow as [->|Hrow]; [reflexivity|].
    apply elem_of_cons in Hrow as [->|Hrow]; [reflexivity|].
    inversion Hrow.
  - split; [exact Hnone | exact Hone].
Defined.



Lemma validation_reserved_id_witness :
  length (Errors (validation xfReserved $"job.dpv")) = 1%nat /\
  Valid (validation xfReserved $"job.dpv") = false.
Proof.
  destruct (validation_reserved_id xfReserved $"job.dpv"
              (feeder 0 150 $"ic" 4 false)) as [He Hv];
    try reflexivity.
  - simpl. lia.
  - left. reflexivity.
  - left. reflexivity.
  - simpl. lia.
  - discriminate.
  - split; [by rewrite He | exact Hv].
Defined.

Lemma ParsePOS_whitespace_format_witness :
  exists data, ParsePOS posText = Ok data.
Proof.
  assert (strings.Contains posText $"," &&
            negb (strings.HasPrefix (strings.TrimSpace posText) $"#") = false)
    as Hfmt by (vm_compute; reflexivity).
  destruct (ParsePOS_whitespace_format posText Hfmt) as (_ & Hok & _).
  apply Hok. exists $"Ref Val PosX PosY Rot".
  split; [vm_compute; reflexivity|].
  split.
  - exists $"Ref". split; [compute_done | compute_done].
  - exists $"Val". split; [compute_done | compute_done].
Defined.

Lemma merge_twice_adds_nothing_witness :
  exists merged xf1 xf2,
    MergeStationsIntoXFile
      [feeder 0 9 $"10k" 6 false; feeder 0 9 $"new" 4 false] $"a.stack"
      xfSkippedFeeder = Some (merged, xf1) /\
    MergeStationsIntoXFile
      [feeder 0 9 $"10k" 6 false; feeder 0 9 $"new" 4 false] $"a.stack" xf1 =
      Some (2, xf2) /\
    length (Stations xf2) = length (Stations xf1).
Proof.
  destruct (merge_twice_adds_nothing xfSkippedFeeder
              [feeder 0 9 $"10k" 6 false; feeder 0 9 $"new" 4 false]
              $"a.stack" $"a.stack")
    as (merged & xf1 & xf2 & H1 & H2 & Hlen & _).
  - repeat constructor; discriminate.
  - exists merged, xf1, xf2. split; [exact H1|]. split; [exact H2 | exact Hlen].
Defined.

Lemma ParseStack_GenerateStack_witness :
  exists parsed,
    ParseStack (GenerateStack xfSkippedFeeder) = Ok parsed /\
    Forall2 reimported (activeStationsOf xfSkippedFeeder) parsed.
Proof.
  apply ParseStack_GenerateStack.
  - discriminate.
  - repeat constructor; try reflexivity; try compute_done;
      unfold strconv.minInt, strconv.maxInt; simpl; lia.
Defined.

Lemma merge_keeps_ids_distinct_witness :
  exists merged xf',
    MergeStationsIntoXFile [feeder 0 9 $"new" 4 false] $"a.stack"
      xfSkippedFeeder = Some (merged, xf') /\
    NoDup (map XStation.ID (Stations xf')).
Proof.
  destruct (merge_keeps_ids_distinct xfSkippedFeeder
              [feeder 0 9 $"new" 4 false] $"a.stack" []) as [H _].
  - by compute_done.
  - by vm_compute.
  - exact H.
Defined.

Lemma merge_allocates_reserved_id_witness :
  exists xf',
    MergeStationsIntoXFile [feeder 0 1 $"new" 4 false] $"a.stack" xfFull =
      Some (0, xf') /\
    Valid (validation xf' $"job.dpv") = false.
Proof.
  destruct (merge_allocates_reserved_id xfFull (feeder 0 1 $"new" 4 false)
              $"a.stack" $"job.dpv") as (xf' & Hm & _ & Hv).
  - split; by vm_compute.
  - reflexivity.
  - right. intros e He. apply list_elem_of_singleton in He as ->. discriminate.
  - exists xf'. split; [exact Hm | exact Hv].
Defined.

Lemma ParsePOS_csv_format_witness :
  match ParsePOS csvText with
  | Ok data =>
      exists (k : nat) line,
        csvLines csvText !! k = Some line /\ csvHeaderLine line
  | Err _ => False
  end.
Proof.
  pose proof (ParsePOS_csv_format csvText ltac:(vm_compute; reflexivity)) as H.
  destruct (ParsePOS csvText) as [data|msg] eqn:Hp.
  - destruct H as (k & line & Hk & Hh & _). by exists k, line.
  - vm_compute in Hp. discriminate Hp.
Defined.

Lemma parseCSVLine_csvEscape_witness :
  parseCSVLine (strings.Join (map csvEscape awkwardFields) $",") =
  map strings.TrimSpace awkwardFields.
Proof. apply (parseCSVLine_csvEscape awkwardFields). discriminate. Defined.

Lemma readRecord_stackCsvEscape_witness :
  csv.readRecord (strings.Join (map stackCsvEscape awkwardFields) $",") =
  Some awkwardFields.
Proof.
  apply (readRecord_stackCsvEscape awkwardFields); [discriminate..|].
  repeat constructor.
Defined.

Lemma ParseStack_GenerateStacksFile_witness :
  ParseStack (GenerateStacksFile xfSkippedFeeder) =
  Ok (imap (fun i s => reimport (Z.of_nat i) s)
           (activeStationsOf xfSkippedFeeder)).
Proof.
  apply ParseStack_GenerateStacksFile.
  - discriminate.
  - repeat constructor; try reflexivity; try compute_done;
      unfold strconv.minInt, strconv.maxInt; simpl; lia.
  - by vm_compute.
Defined.

Lemma merge_into_empty_model_witness :
  exists xf',
    MergeStationsIntoXFile
      [feeder 5 42 $"10k" 4 false; feeder 7 42 [] 4 false] $"a.stack"
      (NewXFile clock0) = Some (0, xf') /\
    map XStation.ID (Stations xf') = [1; 2].
Proof.
  destruct (merge_into_empty_model (NewXFile clock0)
              [feeder 5 42 $"10k" 4 false; feeder 7 42 [] 4 false]
              $"a.stack" []) as [(xf' & Hm & Hs) _].
  - reflexivity.
  - by vm_compute.
  - exists xf'. split; [exact Hm | by rewrite Hs].
Defined.

Lemma skip_warning_iff_vision_fix_witness :
  Z.of_nat 0 ∈ map DPVValidationError.Row
                   (warningsOf $"skip_status_mismatch"
                      (validation xfJob $"job.dpv")).
Proof.
  assert (Valid (validation xfJob $"job.dpv") = true) as Hv
    by (vm_compute; reflexivity).
  apply (proj2 (skip_warning_iff_vision_fix xfJob $"job.dpv" Hv 0%nat
                  placement0 eq_refl)).
  split; vm_compute; reflexivity.
Defined.

Lemma GenerateReadme_text_witness :
  GenerateReadme xfJob ($"job" ++ $".dpv") clock0 =
    readmeIntro ($"job" ++ $".dpv") clock0 ++
    readmeStacks (forallb atZero (activeStationsOf xfJob)) ++
    readmeChecks ++
    readmeContents $"job" ++
    readmeSummary (Z.of_nat (length (activeComponentsOf xfJob)))
                  (Z.of_nat (length (activeStationsOf xfJob))).
Proof.
  exact (proj1 (GenerateReadme_text xfJob $"job" clock0 ltac:(discriminate))).
Defined.

Lemma parseFloat_unit_witness :
  parseFloat $"1.50" = strconv.ParseFloat $"1.50" /\
  parseFloat $"1.50mm" = strconv.ParseFloat $"1.50" /\
  parseFloat $"1.50 mm" = strconv.ParseFloat $"1.50".
Proof.
  apply (parseFloat_unit $"1.50").
  - repeat constructor.
  - reflexivity.
Defined.

Lemma splitByWhitespace_tokens_witness :
  splitByWhitespace (strings.Join [$"R1"; $"10k"; $"R_0603"] [" "%char; "009"%char])
    = [$"R1"; $"10k"; $"R_0603"].
Proof.
  apply (splitByWhitespace_tokens [$"R1"; $"10k"; $"R_0603"]
           [" "%char; "009"%char]).
  - repeat constructor; discriminate.
  - split; [discriminate|]. constructor; [by left|].
    constructor; [by right|]. constructor.
Defined.

Lemma ParsePOS_kicad_table_witness :
  ParsePOS (kicadText $"  " CRLF twoLines) =
  Ok {| Headers := kicadColumns; Rows := map rowOf twoLines |}.
Proof.
  apply (ParsePOS_kicad_table $"  " CRLF twoLines).
  - split; [discriminate|]. repeat constructor.
  - by right.
  - repeat constructor; discriminate.
Defined.

Lemma MergeStacksFile_own_export_witness :
  exists xf',
    MergeStacksFile (GenerateStacksFile xfSkippedFeeder) xfSkippedFeeder =
      Some (Ok (Z.of_nat (length (activeStationsOf xfSkippedFeeder)), 0), xf') /\
    map XStation.ID (Stations xf') = map XStation.ID (Stations xfSkippedFeeder).
Proof.
  destruct (MergeStacksFile_own_export xfSkippedFeeder) as (xf' & Hm & Hid & _).
  - discriminate.
  - repeat constructor; try reflexivity; try discriminate; try compute_done;
      unfold strconv.minInt, strconv.maxInt; simpl; lia.
  - by vm_compute.
  - exists xf'. split; [exact Hm | exact Hid].
Defined.
